(** * EmailPrivacyRedactorAI: box geometry, enablement filtering,
      compositing and address de-duplication

    A shallow embedding of the deterministic logic of
    [components/ocrspace_image_redactor.py], [components/text_redactor.py]
    and the [deduplicate_email_addresses] helpers of the e-mail senders.

    Conventions of the embedding:
    - pixel coordinates are integers ([Z]); for integers the source's test
      [y_diff < prev_box['height'] * 0.6] is the exact comparison
      [5 * y_diff < 3 * height], which is how it is written here;
    - a Python [str] is a [string] whose characters are code points
      below 256;
    - a Python exception is [None] in the result of a computation;
    - the remote services (OCR.space, Groq) and Pillow's codecs and font
      rasteriser are parameters: their replies are inputs of the model;
    - image objects live in a store, so that a copy and its original are
      different objects; the requests sent are logged next to it;
    - the feedback log ([append_feedback]) and the [print] calls are
      advisory and are left out, and the points where the coroutines
      yield are not modelled: each function runs to its end. *)

From Stdlib Require Import ZArith Lia Ascii.
From stdpp Require Import gmap strings list pretty.

Local Open Scope Z_scope.

(** ** Text boxes *)

(** The dict built by [extract_text_with_boxes], extended by
    [find_sensitive_boxes] (key ['redaction_type']) and by
    [_merge_box_group] (key ['indices']). An absent key is [None]. *)
Record TextBox := mkTextBox {
  box_text : string;
  box_x : Z;
  box_y : Z;
  box_width : Z;
  box_height : Z;
  box_redaction_type : option string;
  box_indices : option (list nat)
}.

#[global] Instance TextBox_eq_dec : EqDecision TextBox.
Proof. solve_decision. Defined.

(** ** Python built-ins used by the geometry code *)

(** [min(iterable)]: raises [ValueError] on an empty sequence. *)
Definition py_min (l : list Z) : option Z :=
  match l with
  | [] => None
  | a :: r => Some (fold_left Z.min r a)
  end.

(** [max(iterable)]: raises [ValueError] on an empty sequence. *)
Definition py_max (l : list Z) : option Z :=
  match l with
  | [] => None
  | a :: r => Some (fold_left Z.max r a)
  end.

(** [sep.join(parts)]. *)
Definition py_join (sep : string) (parts : list string) : string :=
  String.concat sep parts.

(** The sort key [lambda b: (b['y'], b['x'])], compared as Python
    compares tuples. *)
Definition key_le (a b : TextBox) : bool :=
  (box_y a <? box_y b) || ((box_y a =? box_y b) && (box_x a <=? box_x b)).

Fixpoint insert_by_key (b : TextBox) (l : list TextBox) : list TextBox :=
  match l with
  | [] => [b]
  | c :: r => if key_le b c then b :: c :: r else c :: insert_by_key b r
  end.

(** [sorted(boxes, key=lambda b: (b['y'], b['x']))]: a stable sort, so a
    box stays in front of the later boxes that have the same key. *)
Definition sorted_by_position (boxes : list TextBox) : list TextBox :=
  foldr insert_by_key [] boxes.

(** ** [_merge_box_group] *)

Definition _merge_box_group (boxes : list TextBox) : option TextBox :=
  match boxes with
  | [b] => Some b
  | _ =>
      min_x ← py_min (box_x <$> boxes);
      min_y ← py_min (box_y <$> boxes);
      max_x ← py_max ((λ b, box_x b + box_width b) <$> boxes);
      max_y ← py_max ((λ b, box_y b + box_height b) <$> boxes);
      b0 ← head boxes;
      Some {| box_text := py_join " " (box_text <$> boxes);
              box_x := min_x;
              box_y := min_y;
              box_width := max_x - min_x;
              box_height := max_y - min_y;
              (* a dict has no attribute 'index': the else branch *)
              box_indices := Some [];
              box_redaction_type := box_redaction_type b0 |}
  end.

(** ** [_merge_adjacent_sensitive_boxes] *)

(** The [max_distance] chosen from the previous box's type. *)
Definition max_distance_of (redaction_type : string) : Z :=
  if decide (redaction_type = "name") then 100
  else if decide (redaction_type ∈ ["phone"; "credit_card"]) then 15
  else 30.

(** The condition of the [if] in the loop body. *)
Definition close_together (prev_box box : TextBox) : bool :=
  let y_diff := Z.abs (box_y box - box_y prev_box) in
  let x_distance := box_x box - (box_x prev_box + box_width prev_box) in
  let redaction_type := default "other" (box_redaction_type prev_box) in
  let max_distance := max_distance_of redaction_type in
  (5 * y_diff <? 3 * box_height prev_box)
  && ((0 <=? x_distance) && (x_distance <? max_distance))
  && bool_decide (box_redaction_type box = box_redaction_type prev_box).

(** What is appended to [merged] when a group is closed. *)
Definition close_group (current_group : list TextBox) : option TextBox :=
  if decide (length current_group = 1%nat) then head current_group
  else _merge_box_group current_group.

(** One iteration of [for box in sorted_boxes[1:]] on the pair
    [(merged, current_group)]. *)
Definition merge_step (st : list TextBox * list TextBox) (box : TextBox)
  : option (list TextBox * list TextBox) :=
  let '(merged, current_group) := st in
  prev_box ← last current_group;
  if close_together prev_box box
  then Some (merged, current_group ++ [box])
  else g ← close_group current_group; Some (merged ++ [g], [box]).

Fixpoint merge_loop (st : list TextBox * list TextBox) (rest : list TextBox)
  : option (list TextBox * list TextBox) :=
  match rest with
  | [] => Some st
  | box :: rest' => st' ← merge_step st box; merge_loop st' rest'
  end.

Definition _merge_adjacent_sensitive_boxes (boxes : list TextBox)
  : option (list TextBox) :=
  match boxes with
  | [] => Some []
  | _ =>
      let sorted_boxes := sorted_by_position boxes in
      first ← head sorted_boxes;
      '(merged, current_group) ← merge_loop ([], [first]) (tail sorted_boxes);
      g ← close_group current_group;
      Some (merged ++ [g])
  end.

(** ** Python [str] methods used by the senders and the OCR reader *)

(** [str.isspace] on one character (code points below 256). *)
Definition py_isspace (c : ascii) : bool :=
  let n := N_of_ascii c in
  ((9 <=? n) && (n <=? 13) || (28 <=? n) && (n <=? 32)
   || (n =? 133) || (n =? 160))%N.

(** [str.lower] on one character (code points below 256). *)
Definition py_lower_char (c : ascii) : ascii :=
  let n := N_of_ascii c in
  if ((65 <=? n) && (n <=? 90)
      || (192 <=? n) && (n <=? 222) && negb (n =? 215))%N
  then ascii_of_N (n + 32)
  else c.

Fixpoint py_lower (s : string) : string :=
  match s with
  | EmptyString => EmptyString
  | String c r => String (py_lower_char c) (py_lower r)
  end.

Fixpoint py_lstrip (s : string) : string :=
  match s with
  | EmptyString => EmptyString
  | String c r => if py_isspace c then py_lstrip r else s
  end.

Fixpoint py_rstrip (s : string) : string :=
  match s with
  | EmptyString => EmptyString
  | String c r =>
      match py_rstrip r with
      | EmptyString => if py_isspace c then EmptyString else String c EmptyString
      | r' => String c r'
      end
  end.

(** [str.strip()]. *)
Definition py_strip (s : string) : string := py_rstrip (py_lstrip s).

(** Truth value of a [str]. *)
Definition py_truthy (s : string) : bool :=
  match s with EmptyString => false | _ => true end.

(** ** [deduplicate_email_addresses] *)

(** The three senders carry the same function, line for line. *)
Module mailpit_email_sender.
Definition deduplicate_email_addresses (to_email cc_email : string)
  : string * string :=
  let to_normalized :=
    if py_truthy to_email then py_strip (py_lower to_email) else "" in
  let cc_normalized :=
    if py_truthy cc_email then py_strip (py_lower cc_email) else "" in
  if py_truthy cc_normalized && bool_decide (cc_normalized = to_normalized)
  then (to_email, "")
  else (to_email, cc_email).
End mailpit_email_sender.

Module resend_api_email_sender.
Definition deduplicate_email_addresses (to_email cc_email : string)
  : string * string :=
  let to_normalized :=
    if py_truthy to_email then py_strip (py_lower to_email) else "" in
  let cc_normalized :=
    if py_truthy cc_email then py_strip (py_lower cc_email) else "" in
  if py_truthy cc_normalized && bool_decide (cc_normalized = to_normalized)
  then (to_email, "")
  else (to_email, cc_email).
End resend_api_email_sender.

(** ** The session state *)

(** The attributes of [EmailPrivacyRedactorAI] that the redactors read or
    write. The feedback log ([ai_feedback], [append_feedback]) is advisory
    and is left out. *)
Record State := mkState {
  to_email : string;
  cc_email : string;
  subject : string;
  content : string;
  uploaded_images : list string;
  redacted_images : list string;
  step : string;
  loading : bool;
  redacted_content : string;
  original_to : string;
  original_cc : string;
  original_subject : string;
  original_content : string;
  original_images : list string;
  redact_name : string;
  redact_email : string;
  redact_phone : string;
  redact_address : string;
  redact_ssn : string;
  redact_card : string;
  redact_key : string;
  redact_password : string;
  redact_token : string;
  redact_id : string;
  redact_dollar : string;
  redact_account : string;
  redact_name_enabled : bool;
  redact_email_enabled : bool;
  redact_phone_enabled : bool;
  redact_address_enabled : bool;
  redact_ssn_enabled : bool;
  redact_card_enabled : bool;
  redact_key_enabled : bool;
  redact_password_enabled : bool;
  redact_token_enabled : bool;
  redact_id_enabled : bool;
  redact_dollar_enabled : bool;
  redact_account_enabled : bool
}.

(** The class defaults of [EmailPrivacyRedactorAI]. *)
Definition initial_state : State :=
  mkState "" "" "" "" [] [] "compose" false "" "" "" "" "" []
    "[NAME]" "[EMAIL]" "[PHONE]" "[ADDRESS]" "[SSN]" "[CC CARD]" "[KEY]"
    "[PASS]" "[TOKEN]" "[ID]" "[$]" "[ACCOUNT]"
    true true true true true true true true true true true true.

(** The category label of each flag, in the order both redactors test
    them. *)
Definition category_flags (state : State) : list (string * bool) :=
  [("name", redact_name_enabled state);
   ("email", redact_email_enabled state);
   ("phone", redact_phone_enabled state);
   ("address", redact_address_enabled state);
   ("ssn", redact_ssn_enabled state);
   ("credit_card", redact_card_enabled state);
   ("api_key", redact_key_enabled state);
   ("password", redact_password_enabled state);
   ("token", redact_token_enabled state);
   ("id", redact_id_enabled state);
   ("dollar", redact_dollar_enabled state);
   ("account", redact_account_enabled state)].

(** The closed set of category labels. *)
Definition known_types : list string :=
  ["name"; "email"; "phone"; "address"; "ssn"; "credit_card"; "api_key";
   "password"; "token"; "id"; "dollar"; "account"].

(** The placeholder of each category, in the same order. *)
Definition category_placeholders (state : State) : list (string * string) :=
  [("name", redact_name state);
   ("email", redact_email state);
   ("phone", redact_phone state);
   ("address", redact_address state);
   ("ssn", redact_ssn state);
   ("credit_card", redact_card state);
   ("api_key", redact_key state);
   ("password", redact_password state);
   ("token", redact_token state);
   ("id", redact_id state);
   ("dollar", redact_dollar state);
   ("account", redact_account state)].

(** Attribute assignments on the state object. *)
(** [state.original_to = v]. *)
Definition set_original_to (v : string) (state : State) : State :=
  {|
    to_email := to_email state; cc_email := cc_email state;
    subject := subject state; content := content state;
    uploaded_images := uploaded_images state;
    redacted_images := redacted_images state; step := step state;
    loading := loading state; redacted_content := redacted_content state;
    original_to := v; original_cc := original_cc state;
    original_subject := original_subject state;
    original_content := original_content state;
    original_images := original_images state;
    redact_name := redact_name state; redact_email := redact_email state;
    redact_phone := redact_phone state;
    redact_address := redact_address state; redact_ssn := redact_ssn state;
    redact_card := redact_card state; redact_key := redact_key state;
    redact_password := redact_password state;
    redact_token := redact_token state; redact_id := redact_id state;
    redact_dollar := redact_dollar state;
    redact_account := redact_account state;
    redact_name_enabled := redact_name_enabled state;
    redact_email_enabled := redact_email_enabled state;
    redact_phone_enabled := redact_phone_enabled state;
    redact_address_enabled := redact_address_enabled state;
    redact_ssn_enabled := redact_ssn_enabled state;
    redact_card_enabled := redact_card_enabled state;
    redact_key_enabled := redact_key_enabled state;
    redact_password_enabled := redact_password_enabled state;
    redact_token_enabled := redact_token_enabled state;
    redact_id_enabled := redact_id_enabled state;
    redact_dollar_enabled := redact_dollar_enabled state;
    redact_account_enabled := redact_account_enabled state
  |}.

(** [state.original_cc = v]. *)
Definition set_original_cc (v : string) (state : State) : State :=
  {|
    to_email := to_email state; cc_email := cc_email state;
    subject := subject state; content := content state;
    uploaded_images := uploaded_images state;
    redacted_images := redacted_images state; step := step state;
    loading := loading state; redacted_content := redacted_content state;
    original_to := original_to state; original_cc := v;
    original_subject := original_subject state;
    original_content := original_content state;
    original_images := original_images state;
    redact_name := redact_name state; redact_email := redact_email state;
    redact_phone := redact_phone state;
    redact_address := redact_address state; redact_ssn := redact_ssn state;
    redact_card := redact_card state; redact_key := redact_key state;
    redact_password := redact_password state;
    redact_token := redact_token state; redact_id := redact_id state;
    redact_dollar := redact_dollar state;
    redact_account := redact_account state;
    redact_name_enabled := redact_name_enabled state;
    redact_email_enabled := redact_email_enabled state;
    redact_phone_enabled := redact_phone_enabled state;
    redact_address_enabled := redact_address_enabled state;
    redact_ssn_enabled := redact_ssn_enabled state;
    redact_card_enabled := redact_card_enabled state;
    redact_key_enabled := redact_key_enabled state;
    redact_password_enabled := redact_password_enabled state;
    redact_token_enabled := redact_token_enabled state;
    redact_id_enabled := redact_id_enabled state;
    redact_dollar_enabled := redact_dollar_enabled state;
    redact_account_enabled := redact_account_enabled state
  |}.

(** [state.original_subject = v]. *)
Definition set_original_subject (v : string) (state : State) : State :=
  {|
    to_email := to_email state; cc_email := cc_email state;
    subject := subject state; content := content state;
    uploaded_images := uploaded_images state;
    redacted_images := redacted_images state; step := step state;
    loading := loading state; redacted_content := redacted_content state;
    original_to := original_to state; original_cc := original_cc state;
    original_subject := v; original_content := original_content state;
    original_images := original_images state;
    redact_name := redact_name state; redact_email := redact_email state;
    redact_phone := redact_phone state;
    redact_address := redact_address state; redact_ssn := redact_ssn state;
    redact_card := redact_card state; redact_key := redact_key state;
    redact_password := redact_password state;
    redact_token := redact_token state; redact_id := redact_id state;
    redact_dollar := redact_dollar state;
    redact_account := redact_account state;
    redact_name_enabled := redact_name_enabled state;
    redact_email_enabled := redact_email_enabled state;
    redact_phone_enabled := redact_phone_enabled state;
    redact_address_enabled := redact_address_enabled state;
    redact_ssn_enabled := redact_ssn_enabled state;
    redact_card_enabled := redact_card_enabled state;
    redact_key_enabled := redact_key_enabled state;
    redact_password_enabled := redact_password_enabled state;
    redact_token_enabled := redact_token_enabled state;
    redact_id_enabled := redact_id_enabled state;
    redact_dollar_enabled := redact_dollar_enabled state;
    redact_account_enabled := redact_account_enabled state
  |}.

(** [state.original_content = v]. *)
Definition set_original_content (v : string) (state : State) : State :=
  {|
    to_email := to_email state; cc_email := cc_email state;
    subject := subject state; content := content state;
    uploaded_images := uploaded_images state;
    redacted_images := redacted_images state; step := step state;
    loading := loading state; redacted_content := redacted_content state;
    original_to := original_to state; original_cc := original_cc state;
    original_subject := original_subject state; original_content := v;
    original_images := original_images state;
    redact_name := redact_name state; redact_email := redact_email state;
    redact_phone := redact_phone state;
    redact_address := redact_address state; redact_ssn := redact_ssn state;
    redact_card := redact_card state; redact_key := redact_key state;
    redact_password := redact_password state;
    redact_token := redact_token state; redact_id := redact_id state;
    redact_dollar := redact_dollar state;
    redact_account := redact_account state;
    redact_name_enabled := redact_name_enabled state;
    redact_email_enabled := redact_email_enabled state;
    redact_phone_enabled := redact_phone_enabled state;
    redact_address_enabled := redact_address_enabled state;
    redact_ssn_enabled := redact_ssn_enabled state;
    redact_card_enabled := redact_card_enabled state;
    redact_key_enabled := redact_key_enabled state;
    redact_password_enabled := redact_password_enabled state;
    redact_token_enabled := redact_token_enabled state;
    redact_id_enabled := redact_id_enabled state;
    redact_dollar_enabled := redact_dollar_enabled state;
    redact_account_enabled := redact_account_enabled state
  |}.

(** [state.original_images = v]. *)
Definition set_original_images (v : list string) (state : State) : State :=
  {|
    to_email := to_email state; cc_email := cc_email state;
    subject := subject state; content := content state;
    uploaded_images := uploaded_images state;
    redacted_images := redacted_images state; step := step state;
    loading := loading state; redacted_content := redacted_content state;
    original_to := original_to state; original_cc := original_cc state;
    original_subject := original_subject state;
    original_content := original_content state; original_images := v;
    redact_name := redact_name state; redact_email := redact_email state;
    redact_phone := redact_phone state;
    redact_address := redact_address state; redact_ssn := redact_ssn state;
    redact_card := redact_card state; redact_key := redact_key state;
    redact_password := redact_password state;
    redact_token := redact_token state; redact_id := redact_id state;
    redact_dollar := redact_dollar state;
    redact_account := redact_account state;
    redact_name_enabled := redact_name_enabled state;
    redact_email_enabled := redact_email_enabled state;
    redact_phone_enabled := redact_phone_enabled state;
    redact_address_enabled := redact_address_enabled state;
    redact_ssn_enabled := redact_ssn_enabled state;
    redact_card_enabled := redact_card_enabled state;
    redact_key_enabled := redact_key_enabled state;
    redact_password_enabled := redact_password_enabled state;
    redact_token_enabled := redact_token_enabled state;
    redact_id_enabled := redact_id_enabled state;
    redact_dollar_enabled := redact_dollar_enabled state;
    redact_account_enabled := redact_account_enabled state
  |}.

(** [state.loading = v]. *)
Definition set_loading (v : bool) (state : State) : State :=
  {|
    to_email := to_email state; cc_email := cc_email state;
    subject := subject state; content := content state;
    uploaded_images := uploaded_images state;
    redacted_images := redacted_images state; step := step state;
    loading := v; redacted_content := redacted_content state;
    original_to := original_to state; original_cc := original_cc state;
    original_subject := original_subject state;
    original_content := original_content state;
    original_images := original_images state;
    redact_name := redact_name state; redact_email := redact_email state;
    redact_phone := redact_phone state;
    redact_address := redact_address state; redact_ssn := redact_ssn state;
    redact_card := redact_card state; redact_key := redact_key state;
    redact_password := redact_password state;
    redact_token := redact_token state; redact_id := redact_id state;
    redact_dollar := redact_dollar state;
    redact_account := redact_account state;
    redact_name_enabled := redact_name_enabled state;
    redact_email_enabled := redact_email_enabled state;
    redact_phone_enabled := redact_phone_enabled state;
    redact_address_enabled := redact_address_enabled state;
    redact_ssn_enabled := redact_ssn_enabled state;
    redact_card_enabled := redact_card_enabled state;
    redact_key_enabled := redact_key_enabled state;
    redact_password_enabled := redact_password_enabled state;
    redact_token_enabled := redact_token_enabled state;
    redact_id_enabled := redact_id_enabled state;
    redact_dollar_enabled := redact_dollar_enabled state;
    redact_account_enabled := redact_account_enabled state
  |}.

(** [state.redacted_content = v]. *)
Definition set_redacted_content (v : string) (state : State) : State :=
  {|
    to_email := to_email state; cc_email := cc_email state;
    subject := subject state; content := content state;
    uploaded_images := uploaded_images state;
    redacted_images := redacted_images state; step := step state;
    loading := loading state; redacted_content := v;
    original_to := original_to state; original_cc := original_cc state;
    original_subject := original_subject state;
    original_content := original_content state;
    original_images := original_images state;
    redact_name := redact_name state; redact_email := redact_email state;
    redact_phone := redact_phone state;
    redact_address := redact_address state; redact_ssn := redact_ssn state;
    redact_card := redact_card state; redact_key := redact_key state;
    redact_password := redact_password state;
    redact_token := redact_token state; redact_id := redact_id state;
    redact_dollar := redact_dollar state;
    redact_account := redact_account state;
    redact_name_enabled := redact_name_enabled state;
    redact_email_enabled := redact_email_enabled state;
    redact_phone_enabled := redact_phone_enabled state;
    redact_address_enabled := redact_address_enabled state;
    redact_ssn_enabled := redact_ssn_enabled state;
    redact_card_enabled := redact_card_enabled state;
    redact_key_enabled := redact_key_enabled state;
    redact_password_enabled := redact_password_enabled state;
    redact_token_enabled := redact_token_enabled state;
    redact_id_enabled := redact_id_enabled state;
    redact_dollar_enabled := redact_dollar_enabled state;
    redact_account_enabled := redact_account_enabled state
  |}.

(** [state.redacted_images = v]. *)
Definition set_redacted_images (v : list string) (state : State) : State :=
  {|
    to_email := to_email state; cc_email := cc_email state;
    subject := subject state; content := content state;
    uploaded_images := uploaded_images state; redacted_images := v;
    step := step state; loading := loading state;
    redacted_content := redacted_content state;
    original_to := original_to state; original_cc := original_cc state;
    original_subject := original_subject state;
    original_content := original_content state;
    original_images := original_images state;
    redact_name := redact_name state; redact_email := redact_email state;
    redact_phone := redact_phone state;
    redact_address := redact_address state; redact_ssn := redact_ssn state;
    redact_card := redact_card state; redact_key := redact_key state;
    redact_password := redact_password state;
    redact_token := redact_token state; redact_id := redact_id state;
    redact_dollar := redact_dollar state;
    redact_account := redact_account state;
    redact_name_enabled := redact_name_enabled state;
    redact_email_enabled := redact_email_enabled state;
    redact_phone_enabled := redact_phone_enabled state;
    redact_address_enabled := redact_address_enabled state;
    redact_ssn_enabled := redact_ssn_enabled state;
    redact_card_enabled := redact_card_enabled state;
    redact_key_enabled := redact_key_enabled state;
    redact_password_enabled := redact_password_enabled state;
    redact_token_enabled := redact_token_enabled state;
    redact_id_enabled := redact_id_enabled state;
    redact_dollar_enabled := redact_dollar_enabled state;
    redact_account_enabled := redact_account_enabled state
  |}.

(** [state.step = v]. *)
Definition set_step (v : string) (state : State) : State :=
  {|
    to_email := to_email state; cc_email := cc_email state;
    subject := subject state; content := content state;
    uploaded_images := uploaded_images state;
    redacted_images := redacted_images state; step := v;
    loading := loading state; redacted_content := redacted_content state;
    original_to := original_to state; original_cc := original_cc state;
    original_subject := original_subject state;
    original_content := original_content state;
    original_images := original_images state;
    redact_name := redact_name state; redact_email := redact_email state;
    redact_phone := redact_phone state;
    redact_address := redact_address state; redact_ssn := redact_ssn state;
    redact_card := redact_card state; redact_key := redact_key state;
    redact_password := redact_password state;
    redact_token := redact_token state; redact_id := redact_id state;
    redact_dollar := redact_dollar state;
    redact_account := redact_account state;
    redact_name_enabled := redact_name_enabled state;
    redact_email_enabled := redact_email_enabled state;
    redact_phone_enabled := redact_phone_enabled state;
    redact_address_enabled := redact_address_enabled state;
    redact_ssn_enabled := redact_ssn_enabled state;
    redact_card_enabled := redact_card_enabled state;
    redact_key_enabled := redact_key_enabled state;
    redact_password_enabled := redact_password_enabled state;
    redact_token_enabled := redact_token_enabled state;
    redact_id_enabled := redact_id_enabled state;
    redact_dollar_enabled := redact_dollar_enabled state;
    redact_account_enabled := redact_account_enabled state
  |}.

(** ** Pillow images *)

Definition Color : Type := Z * Z * Z.

(** A [PIL.Image.Image]: the file format it was read from ([None] for an
    image made in memory), its mode, and its pixels as rows of RGB values
    ([im_rows[y][x]]). *)
Record Image := mkImage {
  im_format : option string;
  im_mode : string;
  im_rows : list (list Color)
}.

(** [image.size]. *)
Definition im_size (img : Image) : nat * nat :=
  (length (default [] (head (im_rows img))), length (im_rows img)).

(** The parts of Pillow that are taken as given: the codecs, and the font
    rasteriser behind [draw.textbbox] and [draw.text]. *)
Record Pillow := mkPillow {
  (** [Image.open(BytesIO(base64.b64decode(s)))]; [None] when it raises *)
  image_open_b64 : string → option Image;
  (** [image.save(buffered, format="PNG")] and [base64.b64encode] *)
  save_png_b64 : Image → string;
  (** the centred white label drawn over the rectangle [(x1, y1, x2, y2)] *)
  draw_label : list (list Color) → Z * Z * Z * Z → string → list (list Color)
}.

(** ** Remote services *)

(** One word of OCR.space's [TextOverlay]; a missing key is [None]. *)
Record Word := mkWord {
  WordText : option string;
  Left : option Z;
  Top : option Z;
  Width : option Z;
  Height : option Z
}.

(** What the OCR call can come back with. *)
Inductive OcrReply :=
  | OcrTransportError
      (* client.post raises: no connection, timeout *)
  | OcrInvalidJson
      (* response.json() raises *)
  | OcrNotADict
      (* a JSON value that is not an object *)
  | OcrUnexpectedShape
      (* an object whose members do not have the expected types *)
  | OcrResult (IsErroredOnProcessing : bool)
              (ParsedResults : list (list (list Word))).
      (* per parsed result, the words of each of TextOverlay.Lines *)

(** What the classification call can come back with: an exception
    anywhere between [client.post] and the [int(k)] conversion, or the
    converted [sensitivity_map], given by [list(sensitivity_map.items())]:
    its items in the order of the dict, whose keys are distinct. *)
Inductive ClassifyReply :=
  | ClassifyRaises
  | ClassifyMap (items : list (Z * string)).

(** The body of a chat completion, as [redact_text] reads it after a
    status 200. [ChatMalformed]: the expression
    [data.get("choices", [{}])[0].get("message", {}).get("content", ...)]
    raises, because [response.json()] fails or gives no object, [choices]
    is empty or no list, or [choices[0]] or [message] is no object.
    [ChatMessage]: the expression gives the [content] of the message, a
    string, or its default when one of the three keys is missing
    ([None] here); [usage_is_object] tells whether [data.get("usage", {})]
    is an object, as the [usage.get] of the next line needs. *)
Inductive ChatBody :=
  | ChatMalformed
  | ChatMessage (message_content : option string) (usage_is_object : bool).

(** What the text-rewriting call can come back with. *)
Inductive RewriteReply :=
  | RewriteTransportError
  | RewriteResponse (status_code : Z) (body : ChatBody).

Record Remote := mkRemote {
  (** the OCR.space answer for a base64 image *)
  ocr_space : string → OcrReply;
  (** the Groq answer for the enabled types and the [index: text] lines *)
  groq_classify : list string → list (nat * string) → ClassifyReply;
  (** the Groq answer for the instruction lines and the e-mail content *)
  groq_rewrite : list (string * string) → string → RewriteReply
}.

(** A request that left the process. *)
Inductive Request :=
  | OcrRequest (image_b64 : string)
  | ClassifyRequest (enabled_types : list string)
                    (text_list : list (nat * string))
  | RewriteRequest (instructions : list (string * string)) (content : string).

(** ** Effects: image objects, requests sent, exceptions *)

(** The image objects on the heap and the requests sent so far. *)
Record Env := mkEnv {
  images : gmap nat Image;
  requests : list Request
}.

(** A computation on a store [S] that returns a value or raises. *)
Definition Py (S A : Type) : Type := S → option A * S.

#[global] Instance Py_ret {S} : MRet (Py S) := λ A a s, (Some a, s).

#[global] Instance Py_bind {S} : MBind (Py S) := λ A B k m s,
  match m s with
  | (Some a, s') => k a s'
  | (None, s') => (None, s')
  end.

Definition raise {S A} : Py S A := λ s, (None, s).

(** [try: body  except Exception: handler]. *)
Definition try_except {S A} (body handler : Py S A) : Py S A := λ s,
  match body s with
  | (Some a, s') => (Some a, s')
  | (None, s') => handler s'
  end.

(** [try: body  finally: final]. *)
Definition try_finally {S A} (body : Py S A) (final : Py S ()) : Py S A := λ s,
  match body s with
  | (r, s') =>
      match final s' with
      | (Some _, s'') => (r, s'')
      | (None, s'') => (None, s'')
      end
  end.

(** A partial pure function used inside a computation. *)
Definition of_option {S A} (o : option A) : Py S A := λ s, (o, s).

Definition send {A} (rq : Request) (reply : A) : Py Env A := λ env,
  (Some reply, mkEnv (images env) (requests env ++ [rq])).

Definition new_image (img : Image) : Py Env nat := λ env,
  let l := fresh (dom (images env)) in
  (Some l, mkEnv (<[l:=img]> (images env)) (requests env)).

Definition read_image (l : nat) : Py Env Image := λ env,
  (images env !! l, env).

Definition write_image (l : nat) (img : Image) : Py Env () := λ env,
  (Some (), mkEnv (<[l:=img]> (images env)) (requests env)).

(** A loop [for a in l: body a]. *)
Fixpoint for_each {S A} (l : list A) (body : A → Py S ()) : Py S () :=
  match l with
  | [] => mret ()
  | a :: r => body a;; for_each r body
  end.

(** ** [extract_text_with_boxes] *)

(** The box appended for one word, when its stripped text is not empty. *)
Definition word_box (word : Word) : list TextBox :=
  let text := py_strip (default "" (WordText word)) in
  if py_truthy text
  then [{| box_text := text;
           box_x := default 0 (Left word);
           box_y := default 0 (Top word);
           box_width := default 0 (Width word);
           box_height := default 0 (Height word);
           box_redaction_type := None;
           box_indices := None |}]
  else [].

Definition extract_text_with_boxes (remote : Remote) (image_b64 : string)
    (state : option State) : Py Env (list TextBox) :=
  try_except
    (response ← send (OcrRequest image_b64) (ocr_space remote image_b64);
     match response with
     | OcrTransportError => raise
     | OcrInvalidJson => mret []
     | OcrNotADict => mret []
     | OcrUnexpectedShape => raise
     | OcrResult IsErroredOnProcessing parsed_results =>
         if negb IsErroredOnProcessing
         then
           let lines := default [] (head parsed_results) in
           mret (lines ≫= λ words, words ≫= word_box)
         else mret []
     end)
    (mret []).

(** ** [identify_sensitive_text_with_ai] *)

(** [enabled_types] as the function fills it: nothing without a state. *)
Definition enabled_types (state : option State) : list string :=
  match state with
  | Some st => (filter (λ p, p.2 = true) (category_flags st)).*1
  | None => []
  end.

(** [l[idx]] for an [int]: a negative index counts from the end, and an
    index outside [-len(l) .. len(l) - 1] raises [IndexError]. *)
Definition py_index {A} (l : list A) (idx : Z) : option A :=
  if 0 <=? idx then l !! Z.to_nat idx
  else if - Z.of_nat (length l) <=? idx
       then l !! Z.to_nat (Z.of_nat (length l) + idx)
       else None.

(** The loop that reports the first five items: for a key below
    [len(text_boxes)] it reads [text_boxes[idx]['text']]. The lines of
    feedback are not kept; that the subscript can raise is. *)
Definition report_first_items (text_boxes : list TextBox)
    (items : list (Z * string)) : Py Env () :=
  for_each (take 5 items) (λ item : Z * string,
    if item.1 <? Z.of_nat (length text_boxes)
    then box ← of_option (py_index text_boxes item.1); mret ()
    else mret ()).

Definition identify_sensitive_text_with_ai (remote : Remote)
    (text_boxes : list TextBox) (state : option State)
  : Py Env (gmap Z string) :=
  if decide (text_boxes = []) then mret ∅
  else
    let text_list := imap (λ i box, (i, box_text box)) text_boxes in
    let enabled := enabled_types state in
    if decide (enabled = []) then mret ∅
    else
      try_except
        (reply ← send (ClassifyRequest enabled text_list)
                      (groq_classify remote enabled text_list);
         match reply with
         | ClassifyRaises => raise
         | ClassifyMap items =>
             let sensitivity_map : gmap Z string := list_to_map items in
             match state with
             | Some _ => report_first_items text_boxes items
             | None => mret ()
             end;;
             mret sensitivity_map
         end)
        (mret ∅).

(** ** [find_sensitive_boxes] *)

Definition type_to_enabled (state : option State) : gmap string bool :=
  match state with
  | Some st => list_to_map (category_flags st)
  | None => list_to_map ((λ t, (t, true)) <$> known_types)
  end.

(** [{**box, 'redaction_type': redaction_type}]. *)
Definition with_redaction_type (box : TextBox) (redaction_type : string)
  : TextBox :=
  {| box_text := box_text box;
     box_x := box_x box;
     box_y := box_y box;
     box_width := box_width box;
     box_height := box_height box;
     box_redaction_type := Some redaction_type;
     box_indices := box_indices box |}.

(** The body of the loop over [enumerate(text_boxes)]: what one box adds
    to [sensitive_boxes]. *)
Definition sensitive_entry (sensitivity_map : gmap Z string)
    (enabled : gmap string bool) (idx : nat) (box : TextBox) : list TextBox :=
  match sensitivity_map !! Z.of_nat idx with
  | Some redaction_type =>
      if default true (enabled !! redaction_type)
      then [with_redaction_type box redaction_type]
      else []
  | None => []
  end.

Definition find_sensitive_boxes (remote : Remote) (text_boxes : list TextBox)
    (state : option State) : Py Env (list TextBox) :=
  sensitivity_map ← identify_sensitive_text_with_ai remote text_boxes state;
  let enabled := type_to_enabled state in
  let sensitive_boxes :=
    mjoin (imap (sensitive_entry sensitivity_map enabled) text_boxes) in
  of_option (_merge_adjacent_sensitive_boxes sensitive_boxes).

(** ** [draw_redaction_boxes] *)

(** Whether pixel [(px, py)] lies in the rectangle [(x0, y0, x1, y1)],
    corners included. *)
Definition in_rectangle (xy : Z * Z * Z * Z) (px py : nat) : bool :=
  let '(x0, y0, x1, y1) := xy in
  (x0 <=? Z.of_nat px) && (Z.of_nat px <=? x1)
  && ((y0 <=? Z.of_nat py) && (Z.of_nat py <=? y1)).

(** [draw.rectangle(xy, fill=fill)]: every pixel of the image inside the
    rectangle takes the fill colour, the part of the rectangle outside the
    image is dropped, and Pillow raises [ValueError] when [x1 < x0] or
    [y1 < y0]. *)
Definition fill_rectangle (rows : list (list Color)) (xy : Z * Z * Z * Z)
    (fill : Color) : option (list (list Color)) :=
  let '(x0, y0, x1, y1) := xy in
  if decide (x1 < x0 ∨ y1 < y0) then None
  else Some (imap (λ py row,
               imap (λ px c, if in_rectangle xy px py then fill else c) row)
             rows).

(** [image.copy()] and [image.convert(mode)] make an image in memory. *)
Definition copy_of (img : Image) : Image :=
  {| im_format := None; im_mode := im_mode img; im_rows := im_rows img |}.

Definition converted (mode : string) (img : Image) : Image :=
  {| im_format := None; im_mode := mode; im_rows := im_rows img |}.

Definition with_rows (rows : list (list Color)) (img : Image) : Image :=
  {| im_format := im_format img; im_mode := im_mode img; im_rows := rows |}.

(** The [labels] dict: the placeholders of the state, or the defaults. *)
Definition labels_of (state : option State) : gmap string string :=
  match state with
  | Some st => list_to_map (category_placeholders st)
  | None => list_to_map (category_placeholders initial_state)
  end.

(** [[x1, y1, x2, y2]] as the loop body computes it. *)
Definition redaction_rectangle (box : TextBox) : Z * Z * Z * Z :=
  let padding := 2 in
  let x1 := Z.max 0 (box_x box - padding) in
  let y1 := Z.max 0 (box_y box - padding) in
  let x2 := box_x box + box_width box + padding in
  let y2 := box_y box + box_height box + padding in
  (x1, y1, x2, y2).

(** The body of [for box in sensitive_boxes], drawing into [img_copy]. *)
Definition draw_box (pil : Pillow) (labels : gmap string string)
    (show_labels : bool) (img_copy : nat) (box : TextBox) : Py Env () :=
  let w := box_width box in
  let redaction_type := default "other" (box_redaction_type box) in
  let xy := redaction_rectangle box in
  img ← read_image img_copy;
  rows ← of_option (fill_rectangle (im_rows img) xy (0, 0, 0));
  write_image img_copy (with_rows rows img);;
  if show_labels && (40 <? w)
  then
    let label := default "[REDACTED]" (labels !! redaction_type) in
    img ← read_image img_copy;
    write_image img_copy (with_rows (draw_label pil (im_rows img) xy label) img)
  else mret ().

Definition draw_redaction_boxes (pil : Pillow) (image : nat)
    (sensitive_boxes : list TextBox) (show_labels : bool)
    (state : option State) : Py Env nat :=
  img ← read_image image;
  img_copy ← new_image (copy_of img);
  for_each sensitive_boxes (draw_box pil (labels_of state) show_labels img_copy);;
  mret img_copy.

(** ** [redact_image_from_base64] *)

Definition redact_image_from_base64 (remote : Remote) (pil : Pillow)
    (image_b64 : string) (state : option State) : Py Env string :=
  try_except
    (opened ← of_option (image_open_b64 pil image_b64);
     image ← new_image opened;
     image ← (if decide (im_mode opened ≠ "RGB")
              then new_image (converted "RGB" opened)
              else mret image);
     text_boxes ← extract_text_with_boxes remote image_b64 state;
     if decide (text_boxes = []) then mret image_b64
     else
       sensitive_boxes ← find_sensitive_boxes remote text_boxes state;
       if decide (sensitive_boxes = []) then mret image_b64
       else
         redacted_image ←
           draw_redaction_boxes pil image sensitive_boxes true state;
         redacted ← read_image redacted_image;
         mret (save_png_b64 pil redacted))
    (mret image_b64).

(** The module-level wrapper. *)
Definition redact_image (remote : Remote) (pil : Pillow) (image_b64 : string)
    (state : option State) : Py Env string :=
  redact_image_from_base64 remote pil image_b64 state.

(** ** [redact_text] *)

(** The state object lives next to the environment. *)
Definition get_state : Py (State * Env) State := λ s, (Some s.1, s).

Definition modify_state (f : State → State) : Py (State * Env) () := λ s,
  (Some (), (f s.1, s.2)).

Definition in_env {A} (m : Py Env A) : Py (State * Env) A := λ s,
  match m s.2 with
  | (r, env') => (r, (s.1, env'))
  end.

(** [redaction_instructions]: one line per enabled category, kept here as
    the category and the placeholder the line names. *)
Definition redaction_instructions (state : State) : list (string * string) :=
  omap (λ p : (string * bool) * (string * string),
          if p.1.2 then Some (p.1.1, p.2.2) else None)
       (zip (category_flags state) (category_placeholders state)).

Definition redact_text (remote : Remote) (pil : Pillow)
  : Py (State * Env) () :=
  state ← get_state;
  if negb (py_truthy (to_email state)) || negb (py_truthy (content state))
  then mret ()
  else
    modify_state (set_original_to (to_email state));;
    modify_state (set_original_cc (cc_email state));;
    modify_state (set_original_subject (subject state));;
    modify_state (set_original_content (content state));;
    modify_state (set_original_images (uploaded_images state));;
    modify_state (set_loading true);;
    try_finally
      (try_except
         (state ← get_state;
          let instructions := redaction_instructions state in
          response ← in_env (send (RewriteRequest instructions (content state))
                               (groq_rewrite remote instructions (content state)));
          match response with
          | RewriteTransportError => raise
          | RewriteResponse status_code body =>
              if decide (status_code = 200)
              then
                match body with
                | ChatMalformed => raise
                | ChatMessage message_content usage_is_object =>
                    let text_content :=
                      default (content state) message_content in
                    modify_state (set_redacted_content text_content);;
                    if usage_is_object then mret () else raise
                end
              else modify_state (set_redacted_content (content state))
          end;;
          state ← get_state;
          (if decide (uploaded_images state ≠ [])
           then
             modify_state (set_redacted_images []);;
             for_each (uploaded_images state) (λ img_b64,
               redacted_img ← in_env (redact_image remote pil img_b64
                                        (Some state));
               modify_state (λ st,
                 set_redacted_images (redacted_images st ++ [redacted_img]) st))
           else mret ());;
          modify_state (set_step "preview"))
         (state ← get_state;
          modify_state (set_redacted_content (content state));;
          modify_state (set_redacted_images (uploaded_images state));;
          modify_state (set_step "preview")))
      (modify_state (set_loading false)).

(** ** Vocabulary of the statements *)

(** The groups that the loop of [_merge_adjacent_sensitive_boxes] forms on
    an ordered list: a box joins the group of the box before it exactly
    when [close_together] holds for the two. *)
Fixpoint group_adjacent (l : list TextBox) : list (list TextBox) :=
  match l with
  | [] => []
  | a :: r =>
      match head r, group_adjacent r with
      | Some b, g :: gs =>
          if close_together a b then (a :: g) :: gs else [a] :: g :: gs
      | _, _ => [[a]]
      end
  end.

(** [outer]'s rectangle contains [inner]'s. *)
Definition rect_contains (outer inner : TextBox) : Prop :=
  box_x outer <= box_x inner
  ∧ box_y outer <= box_y inner
  ∧ box_x inner + box_width inner <= box_x outer + box_width outer
  ∧ box_y inner + box_height inner <= box_y outer + box_height outer.

(** [m] is the least element of [l]. *)
Definition is_minimum (m : Z) (l : list Z) : Prop :=
  m ∈ l ∧ Forall (λ v, m <= v) l.

(** [m] is the greatest element of [l]. *)
Definition is_maximum (m : Z) (l : list Z) : Prop :=
  m ∈ l ∧ Forall (λ v, v <= m) l.

(** The horizontal gap from [prev_box]'s right edge to [box]'s left edge. *)
Definition gap (prev_box box : TextBox) : Z :=
  box_x box - (box_x prev_box + box_width prev_box).

(** The same-line test, [|Δy| < 0.6 × height] of the previous box. *)
Definition same_line (prev_box box : TextBox) : Prop :=
  5 * Z.abs (box_y box - box_y prev_box) < 3 * box_height prev_box.

(** The invariant of the data model: no negative coordinate or size. *)
Definition box_in_range (box : TextBox) : Prop :=
  0 <= box_x box ∧ 0 <= box_y box ∧ 0 <= box_width box ∧ 0 <= box_height box.

(** The pixel at column [px] of row [py]. *)
Definition pixel (rows : list (list Color)) (px py : nat) : option Color :=
  row ← rows !! py; row !! px.

(** Two pixel arrays of the same shape. *)
Definition same_shape (rows rows' : list (list Color)) : Prop :=
  Forall2 (λ r r' : list Color, length r = length r') rows rows'.

(** The label rasteriser keeps the size of the pixel array. *)
Definition label_keeps_shape (pil : Pillow) : Prop :=
  ∀ rows xy label, same_shape rows (draw_label pil rows xy label).

(** Saving as PNG and opening the result gives a PNG image of the same
    size. *)
Definition png_reopens (pil : Pillow) : Prop :=
  ∀ img, ∃ out,
    image_open_b64 pil (save_png_b64 pil img) = Some out
    ∧ im_format out = Some "PNG"
    ∧ im_size out = im_size img.

(** The OCR replies on which the call fails: an exception, a body that is
    not JSON or not an object, or a reported error. *)
Definition ocr_failed (reply : OcrReply) : Prop :=
  match reply with
  | OcrResult false _ => False
  | _ => True
  end.

(** ** Sample collaborators

    Concrete services and a concrete codec, on which the statements below
    are run. *)
Module Sample.

(** A codec of blank images: a letter for the format ([J] for JPEG, [P]
    for PNG), then the width as [w]s and the height as [h]s. *)
Fixpoint unary (c : ascii) (n : nat) (rest : string) : string :=
  match n with
  | O => rest
  | S n' => String c (unary c n' rest)
  end.

Fixpoint leading (c : ascii) (s : string) : nat * string :=
  match s with
  | String d r =>
      if Ascii.eqb c d then (S (leading c r).1, (leading c r).2) else (O, s)
  | EmptyString => (O, s)
  end.

Definition blank (format : string) (w h : nat) : Image :=
  {| im_format := Some format; im_mode := "RGB";
     im_rows := replicate h (replicate w (255, 255, 255)) |}.

Definition open_blank (s : string) : option Image :=
  match s with
  | String f r =>
      let wr := leading "w" r in
      let hr := leading "h" wr.2 in
      if Ascii.eqb f "J" then Some (blank "JPEG" wr.1 hr.1)
      else if Ascii.eqb f "P" then
        Some (blank "PNG" (if decide (hr.1 = O) then O else wr.1) hr.1)
      else None
  | EmptyString => None
  end.

Definition save_blank (img : Image) : string :=
  String "P" (unary "w" (im_size img).1 (unary "h" (im_size img).2 "")).

Definition pil : Pillow :=
  {| image_open_b64 := open_blank;
     save_png_b64 := save_blank;
     draw_label := λ rows _ _, rows |}.

(** An OCR service that finds one word in every image, a classifier that
    calls it a [name], and a rewriting service that answers with a
    sentence of its own. *)
Definition remote : Remote :=
  {| ocr_space := λ _,
       OcrResult false
         [[[mkWord (Some "Alice") (Some 0) (Some 0) (Some 50) (Some 10)]]];
     groq_classify := λ _ _, ClassifyMap [(0, "name")];
     groq_rewrite := λ _ content,
       RewriteResponse 200
         (ChatMessage (Some ("Here is the email: " +:+ content)) true) |}.

(** A classifier that answers with a label of its own, [company]. *)
Definition remote_company : Remote :=
  {| ocr_space := ocr_space remote;
     groq_classify := λ _ _, ClassifyMap [(0, "company")];
     groq_rewrite := groq_rewrite remote |}.

(** An OCR service that cannot be reached. *)
Definition remote_offline : Remote :=
  {| ocr_space := λ _, OcrTransportError;
     groq_classify := λ _ _, ClassifyRaises;
     groq_rewrite := λ _ _, RewriteTransportError |}.

(** A session with every category switched off. *)
Definition all_disabled : State :=
  mkState "bob@example.com" "" "Hello" "Hi Bob" [] [] "compose" false ""
    "" "" "" "" []
    "[NAME]" "[EMAIL]" "[PHONE]" "[ADDRESS]" "[SSN]" "[CC CARD]" "[KEY]"
    "[PASS]" "[TOKEN]" "[ID]" "[$]" "[ACCOUNT]"
    false false false false false false false false false false false false.

(** Nothing on the heap, nothing sent. *)
Definition empty_env : Env := mkEnv ∅ [].

End Sample.

(** ** [merge_adjacent_boxes]

    The line merge that runs before classification. For integers the
    test [y_diff < prev_box['height'] * 0.5] is [2 * y_diff < height]. *)

(** The condition of the [if] in the loop body. *)
Definition on_same_line (max_distance : Z) (prev_box box : TextBox) : bool :=
  let y_diff := Z.abs (box_y box - box_y prev_box) in
  let x_distance := box_x box - (box_x prev_box + box_width prev_box) in
  (2 * y_diff <? box_height prev_box)
  && ((0 <=? x_distance) && (x_distance <? max_distance)).

(** One iteration of [for box in sorted_boxes[1:]] on the pair
    [(merged, current_line)]. *)
Definition line_step (max_distance : Z) (st : list TextBox * list TextBox)
    (box : TextBox) : option (list TextBox * list TextBox) :=
  let '(merged, current_line) := st in
  prev_box ← last current_line;
  if on_same_line max_distance prev_box box
  then Some (merged, current_line ++ [box])
  else
    merged' ← (if decide (current_line ≠ [])
               then g ← _merge_box_group current_line; Some (merged ++ [g])
               else Some merged);
    Some (merged', [box]).

Fixpoint line_loop (max_distance : Z) (st : list TextBox * list TextBox)
    (rest : list TextBox) : option (list TextBox * list TextBox) :=
  match rest with
  | [] => Some st
  | box :: rest' =>
      st' ← line_step max_distance st box; line_loop max_distance st' rest'
  end.

Definition merge_adjacent_boxes (boxes : list TextBox) (max_distance : Z)
  : option (list TextBox) :=
  match boxes with
  | [] => Some []
  | _ =>
      let sorted_boxes := sorted_by_position boxes in
      first ← head sorted_boxes;
      '(merged, current_line) ←
        line_loop max_distance ([], [first]) (tail sorted_boxes);
      if decide (current_line ≠ [])
      then g ← _merge_box_group current_line; Some (merged ++ [g])
      else Some merged
  end.

(** The groups that a loop of this shape forms on an ordered list, for any
    test [close] between a box and the one before it. *)
Fixpoint group_with (close : TextBox → TextBox → bool) (l : list TextBox)
  : list (list TextBox) :=
  match l with
  | [] => []
  | a :: r =>
      match head r, group_with close r with
      | Some b, g :: gs =>
          if close a b then (a :: g) :: gs else [a] :: g :: gs
      | _, _ => [[a]]
      end
  end.

(** Every box of [l] but the first passes the test [close] with the box
    before it. *)
Fixpoint chained (close : TextBox → TextBox → bool) (l : list TextBox)
  : Prop :=
  match l with
  | a :: r =>
      match head r with
      | Some b => close a b = true ∧ chained close r
      | None => True
      end
  | [] => True
  end.

(** ** What the pipeline reads, asks and flags *)

(** The text boxes that [extract_text_with_boxes] reads from a reply. *)
Definition ocr_text_boxes (reply : OcrReply) : list TextBox :=
  match reply with
  | OcrResult false parsed_results =>
      default [] (head parsed_results) ≫= λ words, words ≫= word_box
  | _ => []
  end.

(** The lines of the classification request. *)
Definition text_lines (text_boxes : list TextBox) : list (nat * string) :=
  imap (λ i box, (i, box_text box)) text_boxes.

(** The requests that [identify_sensitive_text_with_ai] sends. *)
Definition classify_requests (state : option State)
    (text_boxes : list TextBox) : list Request :=
  if decide (text_boxes = [] ∨ enabled_types state = []) then []
  else [ClassifyRequest (enabled_types state) (text_lines text_boxes)].

(** One of the first five keys of the answer lies below
    [-len(text_boxes)]: the subscript [text_boxes[idx]] of the report
    raises [IndexError]. *)
Definition report_raises (text_boxes : list TextBox)
    (items : list (Z * string)) : Prop :=
  Exists (λ item : Z * string, item.1 < - Z.of_nat (length text_boxes))
         (take 5 items).

#[global] Instance report_raises_dec (text_boxes : list TextBox)
    (items : list (Z * string)) : Decision (report_raises text_boxes items).
Proof. unfold report_raises. apply _. Defined.

(** The map that [identify_sensitive_text_with_ai] returns. *)
Definition classified (remote : Remote) (state : option State)
    (text_boxes : list TextBox) : gmap Z string :=
  if decide (text_boxes = [] ∨ enabled_types state = []) then ∅
  else
    match groq_classify remote (enabled_types state) (text_lines text_boxes)
    with
    | ClassifyRaises => ∅
    | ClassifyMap items =>
        if decide (report_raises text_boxes items) then ∅
        else list_to_map items
    end.

(** The list [sensitive_boxes] before the merge. *)
Definition flagged_boxes (remote : Remote) (state : option State)
    (text_boxes : list TextBox) : list TextBox :=
  mjoin (imap (sensitive_entry (classified remote state text_boxes)
                 (type_to_enabled state)) text_boxes).

(** The requests that [redact_image_from_base64] sends for an image. *)
Definition pipeline_requests (remote : Remote) (pil : Pillow)
    (image_b64 : string) (state : option State) : list Request :=
  match image_open_b64 pil image_b64 with
  | None => []
  | Some _ =>
      OcrRequest image_b64
      :: classify_requests state (ocr_text_boxes (ocr_space remote image_b64))
  end.

(** ** [EmailPrivacyRedactorAI.redact_image]

    The method of the state class: it calls the module-level
    [redact_image] without a state. *)
Definition EmailPrivacyRedactorAI_redact_image (remote : Remote)
    (pil : Pillow) (image_b64 : string) : Py Env string :=
  redact_image remote pil image_b64 None.

(** ** The area of a redaction *)

(** Pixel [(px, py)] lies in the box widened by the 2px padding. *)
Definition in_padded_box (box : TextBox) (px py : nat) : Prop :=
  box_x box - 2 <= Z.of_nat px <= box_x box + box_width box + 2
  ∧ box_y box - 2 <= Z.of_nat py <= box_y box + box_height box + 2.

#[global] Instance in_padded_box_dec (box : TextBox) (px py : nat) :
  Decision (in_padded_box box px py).
Proof. unfold in_padded_box. apply _. Defined.

(** ** The text step, in words of the state *)

(** The state once [redact_text] has stored the original data and set
    [loading]. *)
Definition with_originals (state : State) : State :=
  set_loading true
    (set_original_images (uploaded_images state)
       (set_original_content (content state)
          (set_original_subject (subject state)
             (set_original_cc (cc_email state)
                (set_original_to (to_email state) state))))).

(** The answers on which the [try] block of [redact_text] raises before
    it reaches the images: no answer at all, or a status 200 with a body
    on which reading the message raises or whose [usage] is no object. *)
Definition rewrite_raises (reply : RewriteReply) : Prop :=
  match reply with
  | RewriteTransportError => True
  | RewriteResponse status_code ChatMalformed => status_code = 200
  | RewriteResponse status_code (ChatMessage _ usage_is_object) =>
      status_code = 200 ∧ usage_is_object = false
  end.

#[global] Instance rewrite_raises_dec (reply : RewriteReply) :
  Decision (rewrite_raises reply).
Proof. destruct reply as [|c []]; simpl; apply _. Defined.

(** ** Delivery: the three senders and [send_email] *)

(** The message handed to a transport: the headers, the text body and
    the attachments as pairs of a file name and a content (the decoded
    bytes for SMTP, the base64 text for the web services). *)
Record Mail := mkMail {
  mail_from : string;
  mail_to : string;
  mail_cc : option string;
  mail_subject : string;
  mail_text : string;
  mail_attachments : list (string * string)
}.

Inductive Provider := Mailpit | Resend | SendGrid.

(** The answer to an HTTP request: an exception, or a status code and
    whether [response.json()] gives an object. *)
Inductive HttpReply :=
  | HttpRaises
  | HttpStatus (status_code : Z) (json_object : bool).

(** What the senders take from outside: the environment variables, the
    base64 decoder, and the transports with their outcome for a message. *)
Record Carriers := mkCarriers {
  (** [os.getenv(name)] *)
  getenv : string → option string;
  (** [base64.b64decode]; [None] when it raises *)
  b64decode : string → option string;
  (** [smtplib.SMTP(...)] and [send_message]: whether they return *)
  smtp_send : Mail → bool;
  (** whether [import resend] succeeds *)
  resend_installed : bool;
  (** [resend.Emails.send] and [email['id']]: whether they return *)
  resend_sdk : Mail → bool;
  (** [client.post] to api.resend.com *)
  resend_http : Mail → HttpReply;
  (** [client.post] to api.sendgrid.com *)
  sendgrid_http : Mail → HttpReply
}.

(** A message handed to a transport, and whether the sender took it as
    accepted. *)
Record Attempt := mkAttempt {
  attempt_provider : Provider;
  attempt_mail : Mail;
  attempt_accepted : bool
}.

(** [os.getenv(name, default)]. *)
Definition getenv_default (c : Carriers) (name fallback : string) : string :=
  default fallback (getenv c name).

(** [f"image_{idx + 1}.png"]. *)
Definition attachment_name (idx : nat) : string :=
  "image_" +:+ pretty (idx + 1)%nat +:+ ".png".

(** [if images:] for [images: list = None]. *)
Definition images_given (images : option (list string)) : list string :=
  default [] images.

(** Handing a message to a transport. *)
Definition hand_over {A} (provider : Provider) (mail : Mail) (accepted : bool)
    (outcome : option A) : Py (list Attempt) A := λ log,
  (outcome, log ++ [mkAttempt provider mail accepted]).

Module sendgrid_api_email_sender.
Definition deduplicate_email_addresses (to_email cc_email : string)
  : string * string :=
  let to_normalized :=
    if py_truthy to_email then py_strip (py_lower to_email) else "" in
  let cc_normalized :=
    if py_truthy cc_email then py_strip (py_lower cc_email) else "" in
  if py_truthy cc_normalized && bool_decide (cc_normalized = to_normalized)
  then (to_email, "")
  else (to_email, cc_email).
End sendgrid_api_email_sender.

(** [msg['Cc']], [params["cc"]], [personalizations[0]["cc"]]: present
    when the cleaned cc is not empty. *)
Definition cc_header (cleaned_cc_email : string) : option string :=
  if py_truthy cleaned_cc_email then Some cleaned_cc_email else None.

Definition send_email_via_mailpit (c : Carriers)
    (from_email to_email subject body_text cc_email : string)
    (images : option (list string)) : Py (list Attempt) bool :=
  try_except
    (let cleaned :=
       mailpit_email_sender.deduplicate_email_addresses to_email cc_email in
     attachments ←
       of_option
         (mapM (λ p : nat * string,
                  img_data ← b64decode c p.2;
                  Some (attachment_name p.1, img_data))
               (imap pair (images_given images)));
     let msg :=
       {| mail_from := from_email;
          mail_to := cleaned.1;
          mail_cc := cc_header cleaned.2;
          mail_subject := subject;
          mail_text := body_text;
          mail_attachments := attachments |} in
     hand_over Mailpit msg (smtp_send c msg)
       (if smtp_send c msg then Some true else None))
    (mret false).

(** The [params] and [email_data] of both web services. *)
Definition api_mail (cleaned : string * string)
    (from_email subject body_text : string) (images : option (list string))
  : Mail :=
  {| mail_from := from_email;
     mail_to := cleaned.1;
     mail_cc := cc_header cleaned.2;
     mail_subject := subject;
     mail_text := body_text;
     mail_attachments :=
       imap (λ idx img_b64, (attachment_name idx, img_b64))
            (images_given images) |}.

Definition send_email_resend (c : Carriers)
    (from_email to_email subject body_text cc_email : string)
    (images : option (list string)) (api_key : option string)
  : Py (list Attempt) bool :=
  let api_key :=
    match api_key with
    | Some k => if py_truthy k then k else getenv_default c "RESEND_API_KEY" ""
    | None => getenv_default c "RESEND_API_KEY" ""
    end in
  if negb (py_truthy api_key) then mret false
  else
    try_except
      (let cleaned :=
         resend_api_email_sender.deduplicate_email_addresses
           to_email cc_email in
       let params := api_mail cleaned from_email subject body_text images in
       if resend_installed c
       then
         hand_over Resend params (resend_sdk c params)
           (if resend_sdk c params then Some true else None)
       else
         match resend_http c params with
         | HttpRaises => hand_over Resend params false None
         | HttpStatus status_code json_object =>
             if decide (status_code = 200)
             then hand_over Resend params json_object
                    (if json_object then Some true else None)
             else hand_over Resend params false (Some false)
         end)
      (mret false).

Definition send_email_sendgrid (c : Carriers)
    (from_email to_email subject body_text cc_email : string)
    (images : option (list string)) (api_key : option string)
  : Py (list Attempt) bool :=
  let api_key :=
    match api_key with
    | Some k =>
        if py_truthy k then k else getenv_default c "SENDGRID_API_KEY" ""
    | None => getenv_default c "SENDGRID_API_KEY" ""
    end in
  if negb (py_truthy api_key) then mret false
  else
    try_except
      (let cleaned :=
         sendgrid_api_email_sender.deduplicate_email_addresses
           to_email cc_email in
       let email_data :=
         api_mail cleaned from_email subject body_text images in
       match sendgrid_http c email_data with
       | HttpRaises => hand_over SendGrid email_data false None
       | HttpStatus status_code _ =>
           if decide (status_code = 202)
           then hand_over SendGrid email_data true (Some true)
           else hand_over SendGrid email_data false (Some false)
       end)
      (mret false).

(** [state.redacted_images if state.redacted_images else None]. *)
Definition images_argument (state : State) : option (list string) :=
  match redacted_images state with
  | [] => None
  | imgs => Some imgs
  end.

(** The state object next to the log of attempts. *)
Definition on_state (f : State → State) : Py (State * list Attempt) () :=
  λ s, (Some (), (f s.1, s.2)).

Definition with_log {A} (m : Py (list Attempt) A)
  : Py (State * list Attempt) A := λ s,
  match m s.2 with
  | (r, log') => (r, (s.1, log'))
  end.

Definition current_state : Py (State * list Attempt) State := λ s,
  (Some s.1, s).

Definition send_email (c : Carriers) : Py (State * list Attempt) () :=
  try_except
    (state ← current_state;
     let use_production :=
       bool_decide (py_lower (getenv_default c "USE_PRODUCTION_EMAIL" "")
                    = "true") in
     if negb use_production
     then
       let from_email_mailpit := getenv_default c "EMAIL_SENDER_MAILPIT" "" in
       success ← with_log
         (send_email_via_mailpit c from_email_mailpit (to_email state)
            (subject state) (redacted_content state) (cc_email state)
            (images_argument state));
       if success : bool
       then on_state (set_step "sent")
       else on_state (set_step "sent")
     else
       let from_email_resend := getenv_default c "EMAIL_SENDER_RESEND" "" in
       resend_success ← with_log
         (send_email_resend c from_email_resend (to_email state)
            (subject state) (redacted_content state) (cc_email state)
            (images_argument state) None);
       if resend_success : bool
       then on_state (set_step "sent")
       else
         let from_email_sendgrid :=
           getenv_default c "EMAIL_SENDER_SENDGRID" "" in
         sendgrid_success ← with_log
           (send_email_sendgrid c from_email_sendgrid (to_email state)
              (subject state) (redacted_content state) (cc_email state)
              (images_argument state) None);
         if sendgrid_success : bool
         then on_state (set_step "sent")
         else on_state (set_step "sent"))
    (on_state (set_step "sent")).

(** ** [handle_back]

    The assignments of the method, on the attributes of the record (the
    two error messages that it also clears are not among them). Each
    right-hand side reads an [original_*] attribute, which none of the
    assignments writes. *)
Definition handle_back (state : State) : State :=
  {| to_email := original_to state;
     cc_email := original_cc state;
     subject := original_subject state;
     content := original_content state;
     uploaded_images := original_images state;
     redacted_images := redacted_images state;
     step := "compose";
     loading := loading state;
     redacted_content := redacted_content state;
     original_to := original_to state;
     original_cc := original_cc state;
     original_subject := original_subject state;
     original_content := original_content state;
     original_images := original_images state;
     redact_name := redact_name state;
     redact_email := redact_email state;
     redact_phone := redact_phone state;
     redact_address := redact_address state;
     redact_ssn := redact_ssn state;
     redact_card := redact_card state;
     redact_key := redact_key state;
     redact_password := redact_password state;
     redact_token := redact_token state;
     redact_id := redact_id state;
     redact_dollar := redact_dollar state;
     redact_account := redact_account state;
     redact_name_enabled := redact_name_enabled state;
     redact_email_enabled := redact_email_enabled state;
     redact_phone_enabled := redact_phone_enabled state;
     redact_address_enabled := redact_address_enabled state;
     redact_ssn_enabled := redact_ssn_enabled state;
     redact_card_enabled := redact_card_enabled state;
     redact_key_enabled := redact_key_enabled state;
     redact_password_enabled := redact_password_enabled state;
     redact_token_enabled := redact_token_enabled state;
     redact_id_enabled := redact_id_enabled state;
     redact_dollar_enabled := redact_dollar_enabled state;
     redact_account_enabled := redact_account_enabled state |}.

(** ** The message of a draft *)

(** [mail] is the message that a sender builds for a recipient, a subject,
    a text, a cc and a list of images: the cc header is the cc as typed,
    unless it is empty or names the recipient again (up to case and
    surrounding white space); the attachments are the images in order,
    named [image_1.png], [image_2.png], ..., decoded for SMTP and as they
    are for the web services. *)
Definition mail_of (c : Carriers) (provider : Provider)
    (to_email subject body_text cc_email : string) (images : list string)
    (mail : Mail) : Prop :=
  mail_to mail = to_email
  ∧ mail_subject mail = subject
  ∧ mail_text mail = body_text
  ∧ mail_cc mail
    = (if decide (cc_email = ""
                  ∨ (py_strip (py_lower cc_email) ≠ ""
                     ∧ py_strip (py_lower cc_email)
                       = py_strip (py_lower to_email)))
       then None else Some cc_email)
  ∧ length (mail_attachments mail) = length images
  ∧ ∀ (i : nat) att,
      mail_attachments mail !! i = Some att →
      att.1 = attachment_name i
      ∧ ∃ img, images !! i = Some img
               ∧ match provider with
                 | Mailpit => b64decode c img = Some att.2
                 | _ => att.2 = img
                 end.

(** [USE_PRODUCTION_EMAIL] reads [true], in any case. *)
Definition use_production (c : Carriers) : bool :=
  bool_decide (py_lower (getenv_default c "USE_PRODUCTION_EMAIL" "") = "true").

(** The sender address configured for a provider. *)
Definition sender_address (c : Carriers) (provider : Provider) : string :=
  getenv_default c
    match provider with
    | Mailpit => "EMAIL_SENDER_MAILPIT"
    | Resend => "EMAIL_SENDER_RESEND"
    | SendGrid => "EMAIL_SENDER_SENDGRID"
    end "".

(** Whether the key of a web service is configured. *)
Definition key_set (c : Carriers) (name : string) : bool :=
  py_truthy (getenv_default c name "").

(** ** A draft with an upload *)

Module Draft.

(** A message to Bob with one uploaded 3×2 JPEG, every category on. *)
Definition with_upload : State :=
  mkState "bob@example.com" "" "Hello" "Hi Bob" ["Jwwwhh"] [] "compose" false
    "" "" "" "" "" []
    "[NAME]" "[EMAIL]" "[PHONE]" "[ADDRESS]" "[SSN]" "[CC CARD]" "[KEY]"
    "[PASS]" "[TOKEN]" "[ID]" "[$]" "[ACCOUNT]"
    true true true true true true true true true true true true.

End Draft.

(** ** [validate_emails]

    The addresses typed into the To and Cc fields. The pattern is
    [^[a-zA-Z0-9._%+-]+@[a-zA-Z0-9.-]+\.[a-zA-Z]{2,}$], tried with
    [re.match] on each stripped piece between commas and semicolons. *)

(** [[a-zA-Z]] *)
Definition is_letter (c : ascii) : bool :=
  let n := N_of_ascii c in
  ((65 <=? n) && (n <=? 90) || (97 <=? n) && (n <=? 122))%N.

(** [[0-9]] *)
Definition is_digit (c : ascii) : bool :=
  let n := N_of_ascii c in ((48 <=? n) && (n <=? 57))%N.

(** [[a-zA-Z0-9._%+-]] *)
Definition local_char (c : ascii) : bool :=
  is_letter c || is_digit c
  || bool_decide (c ∈ ["."; "_"; "%"; "+"; "-"]%char).

(** [[a-zA-Z0-9.-]] *)
Definition domain_char (c : ascii) : bool :=
  is_letter c || is_digit c || bool_decide (c ∈ ["."; "-"]%char).

Fixpoint all_chars (p : ascii → bool) (s : string) : bool :=
  match s with
  | EmptyString => true
  | String c r => p c && all_chars p r
  end.

(** The text before and after the first [c]. *)
Fixpoint split_first (c : ascii) (s : string) : option (string * string) :=
  match s with
  | EmptyString => None
  | String d r =>
      if Ascii.eqb d c then Some (EmptyString, r)
      else match split_first c r with
           | Some (a, b) => Some (String d a, b)
           | None => None
           end
  end.

(** The text before and after the last [c]. *)
Fixpoint split_last (c : ascii) (s : string) : option (string * string) :=
  match s with
  | EmptyString => None
  | String d r =>
      match split_last c r with
      | Some (a, b) => Some (String d a, b)
      | None => if Ascii.eqb d c then Some (EmptyString, r) else None
      end
  end.

(** [$] matches at the end and before a newline that ends the string. *)
Fixpoint before_final_newline (s : string) : string :=
  match s with
  | EmptyString => EmptyString
  | String c EmptyString =>
      if Ascii.eqb c "010" then EmptyString else s
  | String c r => String c (before_final_newline r)
  end.

(** [re.match(email_pattern, email)] is not [None]. The first class has
    no [@], so the local part ends at the first [@]; the last class has no
    dot, so the [\.] of the pattern is the last dot. *)
Definition matches_email_pattern (email : string) : bool :=
  match split_first "@" (before_final_newline email) with
  | Some (local, rest) =>
      match split_last "." rest with
      | Some (domain, tld) =>
          py_truthy local && all_chars local_char local
          && py_truthy domain && all_chars domain_char domain
          && (2 <=? String.length tld)%nat && all_chars is_letter tld
      | None => false
      end
  | None => false
  end.

(** [re.split(r'[,;]', email_string)]. *)
Fixpoint split_addresses (email_string : string) : list string :=
  match email_string with
  | EmptyString => [EmptyString]
  | String c r =>
      if bool_decide (c ∈ [","; ";"]%char)
      then EmptyString :: split_addresses r
      else match split_addresses r with
           | piece :: pieces => String c piece :: pieces
           | [] => [String c EmptyString]
           end
  end.

Definition validate_emails (email_string : string) : bool * string :=
  if negb (py_truthy email_string) || negb (py_truthy (py_strip email_string))
  then (true, "")
  else
    let emails := split_addresses email_string in
    let invalid_emails :=
      filter (λ email, py_truthy email = true
                       ∧ matches_email_pattern email = false)
             (py_strip <$> emails) in
    if decide (invalid_emails = [])
    then (true, "")
    else (false,
          "Invalid email address(es): " +:+ py_join ", " invalid_emails).

(** The [redact_text] event handler of the state class: the two checks,
    then the redaction. The result is what the handler leaves in
    [to_email_error] and [cc_email_error]. *)
Definition EmailPrivacyRedactorAI_redact_text (remote : Remote) (pil : Pillow)
  : Py (State * Env) (string * string) :=
  state ← get_state;
  if negb (py_truthy (to_email state))
     || negb (py_truthy (py_strip (to_email state)))
  then mret ("To email is required", "")
  else
    let to_result := validate_emails (to_email state) in
    if negb to_result.1 then mret (to_result.2, "")
    else
      let cc_result :=
        if py_truthy (cc_email state) && py_truthy (py_strip (cc_email state))
        then validate_emails (cc_email state)
        else (true, "") in
      if negb cc_result.1 then mret ("", cc_result.2)
      else redact_text remote pil;; mret ("", "").

(** An address of the shape that the pattern describes. *)
Definition well_formed_address (email : string) : Prop :=
  ∃ local domain tld,
    email = local +:+ "@" +:+ domain +:+ "." +:+ tld
    ∧ local ≠ "" ∧ all_chars local_char local = true
    ∧ domain ≠ "" ∧ all_chars domain_char domain = true
    ∧ (2 ≤ String.length tld)%nat ∧ all_chars is_letter tld = true.

(** * Properties *)

(** ** Minimum and maximum *)

Lemma fold_min_spec (r : list Z) (a : Z) :
  is_minimum (fold_left Z.min r a) (a :: r).
Proof.
  revert a. induction r as [|b r IH]; intros a; simpl.
  - split; [left | repeat constructor; lia].
  - destruct (IH (Z.min a b)) as [Hin Hall]. split.
    + apply elem_of_cons in Hin as [Heq | Hin].
      * rewrite Heq. destruct (Z.min_spec a b) as [[_ ->] | [_ ->]].
        -- left.
        -- right; left.
      * right; right; exact Hin.
    + apply Forall_cons in Hall as [Hm Hall].
      constructor; [lia |]. constructor; [lia | exact Hall].
Qed.

Lemma fold_max_spec (r : list Z) (a : Z) :
  is_maximum (fold_left Z.max r a) (a :: r).
Proof.
  revert a. induction r as [|b r IH]; intros a; simpl.
  - split; [left | repeat constructor; lia].
  - destruct (IH (Z.max a b)) as [Hin Hall]. split.
    + apply elem_of_cons in Hin as [Heq | Hin].
      * rewrite Heq. destruct (Z.max_spec a b) as [[_ ->] | [_ ->]].
        -- right; left.
        -- left.
      * right; right; exact Hin.
    + apply Forall_cons in Hall as [Hm Hall].
      constructor; [lia |]. constructor; [lia | exact Hall].
Qed.

Lemma py_min_spec (l : list Z) :
  l ≠ [] → ∃ m, py_min l = Some m ∧ is_minimum m l.
Proof.
  destruct l as [|a r]; [congruence |]. intros _.
  eexists; split; [reflexivity | apply fold_min_spec].
Qed.

Lemma py_max_spec (l : list Z) :
  l ≠ [] → ∃ m, py_max l = Some m ∧ is_maximum m l.
Proof.
  destruct l as [|a r]; [congruence |]. intros _.
  eexists; split; [reflexivity | apply fold_max_spec].
Qed.

(** ** The merged box of a group *)

(** The general branch of [_merge_box_group], for a group that is not
    empty. *)
Lemma merge_box_group_general (b0 : TextBox) (rest : list TextBox) :
  let boxes := b0 :: rest in
  ∃ min_x min_y max_x max_y,
    is_minimum min_x (box_x <$> boxes)
    ∧ is_minimum min_y (box_y <$> boxes)
    ∧ is_maximum max_x ((λ b, box_x b + box_width b) <$> boxes)
    ∧ is_maximum max_y ((λ b, box_y b + box_height b) <$> boxes)
    ∧ (rest ≠ [] →
       _merge_box_group boxes =
       Some {| box_text := py_join " " (box_text <$> boxes);
               box_x := min_x; box_y := min_y;
               box_width := max_x - min_x; box_height := max_y - min_y;
               box_indices := Some [];
               box_redaction_type := box_redaction_type b0 |}).
Proof.
  intros boxes.
  exists (fold_left Z.min (box_x <$> rest) (box_x b0)),
         (fold_left Z.min (box_y <$> rest) (box_y b0)),
         (fold_left Z.max ((λ b, box_x b + box_width b) <$> rest)
                    (box_x b0 + box_width b0)),
         (fold_left Z.max ((λ b, box_y b + box_height b) <$> rest)
                    (box_y b0 + box_height b0)).
  repeat split; try apply fold_min_spec; try apply fold_max_spec.
  intros Hrest. destruct rest as [|b1 rest]; [congruence |]. reflexivity.
Qed.

(** C5. For every group of boxes that is not empty, [_merge_box_group]
    returns a box whose [(x, y)] is the elementwise minimum of the
    members' [(x, y)], whose [(x + width, y + height)] is the elementwise
    maximum of the members' [(x + width, y + height)], whose text is the
    members' texts joined by single spaces in the order of the group, and
    which carries the category shared by the members. *)
Theorem merge_box_group_union (boxes : list TextBox) :
  boxes ≠ [] →
  ∃ m,
    _merge_box_group boxes = Some m
    ∧ is_minimum (box_x m) (box_x <$> boxes)
    ∧ is_minimum (box_y m) (box_y <$> boxes)
    ∧ is_maximum (box_x m + box_width m)
                 ((λ b, box_x b + box_width b) <$> boxes)
    ∧ is_maximum (box_y m + box_height m)
                 ((λ b, box_y b + box_height b) <$> boxes)
    ∧ box_text m = py_join " " (box_text <$> boxes)
    ∧ ∀ category,
        Forall (λ b, box_redaction_type b = category) boxes →
        box_redaction_type m = category.
Proof.
  destruct boxes as [|b0 rest]; [congruence |]. intros _.
  destruct rest as [|b1 rest].
  - exists b0. simpl.
    repeat split; try (left; fail); try (repeat constructor; lia).
    intros category Hall. by apply Forall_cons in Hall as [? _].
  - destruct (merge_box_group_general b0 (b1 :: rest))
      as (min_x & min_y & max_x & max_y & Hx & Hy & HX & HY & Heq).
    eexists. split; [apply Heq; congruence |]. simpl.
    replace (min_x + (max_x - min_x)) with max_x by lia.
    replace (min_y + (max_y - min_y)) with max_y by lia.
    repeat split; try apply Hx; try apply Hy; try apply HX; try apply HY.
    intros category Hall. by apply Forall_cons in Hall as [? _].
Qed.

(** ** The sort *)

Lemma insert_by_key_perm (b : TextBox) (l : list TextBox) :
  insert_by_key b l ≡ₚ b :: l.
Proof.
  induction l as [|c r IH]; simpl; [done |].
  destruct (key_le b c); [done |].
  rewrite IH. apply Permutation_swap.
Qed.

Lemma sorted_by_position_perm (boxes : list TextBox) :
  sorted_by_position boxes ≡ₚ boxes.
Proof.
  induction boxes as [|b r IH]; simpl; [done |].
  rewrite insert_by_key_perm. by rewrite IH.
Qed.

(** ** The groups of the merge *)

Lemma group_adjacent_cons (a : TextBox) (r : list TextBox) :
  ∃ g gs, group_adjacent (a :: r) = (a :: g) :: gs.
Proof.
  simpl. destruct (head r) as [b|]; [| by eexists _, _].
  destruct (group_adjacent r) as [|g gs]; [by eexists _, _ |].
  destruct (close_together a b); by eexists _, _.
Qed.

Lemma group_adjacent_join (l : list TextBox) :
  mjoin (group_adjacent l) = l.
Proof.
  induction l as [|a r IH]; [done |].
  destruct r as [|b r']; [done |].
  destruct (group_adjacent_cons b r') as (g & gs & Hg).
  change (group_adjacent (a :: b :: r')) with
    (match group_adjacent (b :: r') with
     | g :: gs => if close_together a b then (a :: g) :: gs else [a] :: g :: gs
     | [] => [[a]]
     end).
  rewrite Hg in IH |- *.
  destruct (close_together a b); simpl in *; by rewrite IH.
Qed.

Lemma group_adjacent_nonempty (l : list TextBox) :
  Forall (λ g, g ≠ []) (group_adjacent l).
Proof.
  induction l as [|a r IH]; [constructor |].
  simpl. destruct (head r) as [b|]; [| by repeat constructor].
  destruct (group_adjacent r) as [|g gs]; [by repeat constructor |].
  apply Forall_cons in IH as [Hg Hgs].
  destruct (close_together a b); repeat constructor; done.
Qed.

(** A closed group is its only box, or the union of its boxes. *)
Lemma close_group_spec (g : list TextBox) :
  g ≠ [] →
  ∃ o, close_group g = Some o
       ∧ (∀ b, g = [b] → o = b)
       ∧ (∀ b, b ∈ g → rect_contains o b)
       ∧ (∀ category, Forall (λ b, box_redaction_type b = category) g →
                      box_redaction_type o = category).
Proof.
  intros Hg. destruct g as [|b0 rest]; [congruence |].
  destruct rest as [|b1 rest].
  - exists b0. repeat split; try lia.
    + intros b [= ->]. done.
    + apply list_elem_of_singleton in H as ->. lia.
    + apply list_elem_of_singleton in H as ->. lia.
    + apply list_elem_of_singleton in H as ->. lia.
    + apply list_elem_of_singleton in H as ->. lia.
    + intros category Hall. by apply Forall_cons in Hall as [? _].
  - destruct (merge_box_group_general b0 (b1 :: rest))
      as (min_x & min_y & max_x & max_y & Hx & Hy & HX & HY & Heq).
    eexists. split; [| split; [| split]].
    + unfold close_group. rewrite decide_False by (simpl; lia).
      apply Heq. congruence.
    + intros b [=].
    + intros b Hb. unfold rect_contains. simpl.
      destruct Hx as [_ Hx], Hy as [_ Hy], HX as [_ HX], HY as [_ HY].
      rewrite Forall_forall in Hx, Hy, HX, HY.
      specialize (Hx (box_x b) (list_elem_of_fmap_2 _ _ _ Hb)).
      specialize (Hy (box_y b) (list_elem_of_fmap_2 _ _ _ Hb)).
      specialize (HX _ (list_elem_of_fmap_2 (λ b, box_x b + box_width b) _ _ Hb)).
      specialize (HY _ (list_elem_of_fmap_2 (λ b, box_y b + box_height b) _ _ Hb)).
      simpl in *. lia.
    + intros category Hall. by apply Forall_cons in Hall as [? _].
Qed.

(** The loop, followed by the closing of the last group, closes the groups
    of [group_adjacent] one by one. *)
Lemma merge_loop_groups (rest : list TextBox) :
  ∀ merged c p,
  ∃ g gs outs,
    group_adjacent (p :: rest) = (p :: g) :: gs
    ∧ (st ← merge_loop (merged, c ++ [p]) rest;
       o ← close_group st.2; Some (st.1 ++ [o])) = Some (merged ++ outs)
    ∧ Forall2 (λ grp o, close_group grp = Some o) ((c ++ p :: g) :: gs) outs.
Proof.
  induction rest as [|b r IH]; intros merged c p.
  - destruct (close_group_spec (c ++ [p])) as (o & Ho & _).
    { by destruct c. }
    exists [], [], [o]. simpl. rewrite Ho. simpl.
    split; [done |]. split; [done |]. by repeat constructor.
  - assert (group_adjacent (p :: b :: r) =
            match group_adjacent (b :: r) with
            | g :: gs =>
                if close_together p b then (p :: g) :: gs else [p] :: g :: gs
            | [] => [[p]]
            end) as -> by reflexivity.
    cbn [merge_loop]. unfold merge_step. rewrite last_snoc. cbn [mbind option_bind].
    destruct (close_together p b) eqn:Hclose.
    + destruct (IH merged (c ++ [p]) b) as (g & gs & outs & Hg & Hrun & Hall).
      exists (b :: g), gs, outs. rewrite Hg. split; [done |].
      split; [exact Hrun |]. by rewrite <- app_assoc in Hall.
    + destruct (close_group_spec (c ++ [p])) as (o & Ho & _).
      { by destruct c. }
      rewrite Ho. cbn [mbind option_bind].
      destruct (IH (merged ++ [o]) [] b) as (g & gs & outs & Hg & Hrun & Hall).
      exists [], ((b :: g) :: gs), (o :: outs). rewrite Hg.
      split; [done |]. split.
      * simpl in Hrun. rewrite Hrun. by rewrite <- app_assoc.
      * by constructor.
Qed.

(** [_merge_adjacent_sensitive_boxes] never raises: it returns the closed
    groups of the sorted input, in order. *)
Lemma merge_adjacent_groups (boxes : list TextBox) :
  ∃ outs,
    _merge_adjacent_sensitive_boxes boxes = Some outs
    ∧ Forall2 (λ grp o, close_group grp = Some o)
              (group_adjacent (sorted_by_position boxes)) outs.
Proof.
  destruct boxes as [|b0 boxes']; [by exists [] |].
  unfold _merge_adjacent_sensitive_boxes.
  pose proof (sorted_by_position_perm (b0 :: boxes')) as Hperm.
  destruct (sorted_by_position (b0 :: boxes')) as [|first rest] eqn:Hsorted.
  { by apply Permutation_nil_cons in Hperm. }
  destruct (merge_loop_groups rest [] [] first)
    as (g & gs & outs & Hg & Hrun & Hall).
  exists outs. split; [| by rewrite Hg].
  simpl in *. destruct (merge_loop ([], [first]) rest) as [[merged cur]|];
    simpl in *; [exact Hrun | done].
Qed.

(** C10. The merge partitions its input: the output boxes are the closed
    groups of a family of non-empty groups whose concatenation is a
    rearrangement of the input (each input box is in exactly one group, so
    none is dropped); a group of one box is returned as that box; and the
    rectangle of each output box contains the rectangle of every box of
    its group. *)
Theorem merge_adjacent_partitions (boxes : list TextBox) :
  ∃ groups outs,
    _merge_adjacent_sensitive_boxes boxes = Some outs
    ∧ mjoin groups ≡ₚ boxes
    ∧ Forall (λ grp, grp ≠ []) groups
    ∧ Forall2 (λ grp o,
                 close_group grp = Some o
                 ∧ (∀ b, grp = [b] → o = b)
                 ∧ (∀ b, b ∈ grp → rect_contains o b))
              groups outs.
Proof.
  destruct (merge_adjacent_groups boxes) as (outs & Hrun & Hall).
  exists (group_adjacent (sorted_by_position boxes)), outs.
  split; [exact Hrun |]. split.
  { rewrite group_adjacent_join. apply sorted_by_position_perm. }
  split; [apply group_adjacent_nonempty |].
  pose proof (group_adjacent_nonempty (sorted_by_position boxes)) as Hne.
  clear Hrun. revert Hne Hall.
  generalize (group_adjacent (sorted_by_position boxes)) as groups.
  intros groups Hne Hall.
  induction Hall as [|grp o groups outs' Ho Hall IH].
  - constructor.
  - apply Forall_cons in Hne as [Hgrp Hne].
    constructor; [| by apply IH].
    destruct (close_group_spec grp Hgrp) as (o' & Ho' & Hone & Hin & _).
    assert (o' = o) as -> by congruence. done.
Qed.

(** ** The merge rule *)

Lemma group_adjacent_step (a b : TextBox) (r : list TextBox) :
  ∃ g gs,
    group_adjacent (b :: r) = (b :: g) :: gs
    ∧ group_adjacent (a :: b :: r) =
      if close_together a b then (a :: b :: g) :: gs
      else [a] :: (b :: g) :: gs.
Proof.
  destruct (group_adjacent_cons b r) as (g & gs & Hg).
  exists g, gs. split; [exact Hg |].
  assert (group_adjacent (a :: b :: r) =
          match group_adjacent (b :: r) with
          | g :: gs =>
              if close_together a b then (a :: g) :: gs else [a] :: g :: gs
          | [] => [[a]]
          end) as -> by reflexivity.
  by rewrite Hg.
Qed.

(** Two consecutive boxes that are not close together end up in different
    groups: the groups split between them. *)
Lemma group_adjacent_split (l1 : list TextBox) (a b : TextBox)
    (l2 : list TextBox) :
  close_together a b = false →
  group_adjacent (l1 ++ a :: b :: l2)
  = group_adjacent (l1 ++ [a]) ++ group_adjacent (b :: l2).
Proof.
  intros Hclose. induction l1 as [|c l1 IH].
  - cbn [app].
    destruct (group_adjacent_step a b l2) as (g & gs & Hg & ->).
    by rewrite Hclose, Hg.
  - destruct l1 as [|d l1].
    + cbn [app] in *.
      destruct (group_adjacent_step c a (b :: l2)) as (g & gs & Hg & ->).
      destruct (group_adjacent_step c a []) as (g' & gs' & Hg' & ->).
      rewrite IH in Hg. rewrite Hg' in Hg. simpl in Hg.
      injection Hg as <- <-. by destruct (close_together c a).
    + cbn [app] in *.
      destruct (group_adjacent_step c d (l1 ++ a :: b :: l2))
        as (g & gs & Hg & ->).
      destruct (group_adjacent_step c d (l1 ++ [a])) as (g' & gs' & Hg' & ->).
      rewrite IH in Hg. rewrite Hg' in Hg. simpl in Hg.
      injection Hg as <- <-. by destruct (close_together c d).
Qed.

(** Two consecutive boxes that are close together end up side by side in
    one group. *)
Lemma group_adjacent_glue (l1 : list TextBox) (a b : TextBox)
    (l2 : list TextBox) :
  close_together a b = true →
  ∃ G g1 g2 G',
    group_adjacent (l1 ++ a :: b :: l2) = G ++ (g1 ++ a :: b :: g2) :: G'.
Proof.
  intros Hclose. induction l1 as [|c l1 IH].
  - cbn [app].
    destruct (group_adjacent_step a b l2) as (g & gs & Hg & ->).
    rewrite Hclose. by exists [], [], g, gs.
  - destruct IH as (G & g1 & g2 & G' & IH).
    assert (∃ d r, l1 ++ a :: b :: l2 = d :: r) as (d & r & Hd).
    { destruct l1; by eexists _, _. }
    cbn [app]. rewrite Hd in IH |- *.
    destruct (group_adjacent_step c d r) as (g & gs & Hg & ->).
    rewrite Hg in IH.
    destruct G as [|h G]; simpl in IH; injection IH as Hh Hgs.
    + destruct (close_together c d).
      * exists [], (c :: g1), g2, G'. simpl. by rewrite <- Hh, Hgs.
      * exists [[c]], g1, g2, G'. simpl. by rewrite <- Hh, Hgs.
    + destruct (close_together c d).
      * exists ((c :: h) :: G), g1, g2, G'. simpl. by rewrite <- Hh, Hgs.
      * exists ([c] :: h :: G), g1, g2, G'. simpl. by rewrite <- Hh, Hgs.
Qed.

Lemma max_distance_of_table :
  max_distance_of "name" = 100
  ∧ max_distance_of "phone" = 15
  ∧ max_distance_of "credit_card" = 15
  ∧ ∀ c, c ≠ "name" → c ≠ "phone" → c ≠ "credit_card" →
         max_distance_of c = 30.
Proof.
  repeat split; try reflexivity.
  intros c Hn Hp Hc. unfold max_distance_of.
  rewrite decide_False by done.
  rewrite decide_False; [done |].
  intros Hin. repeat (apply elem_of_cons in Hin as [-> | Hin]; [done |]).
  by apply elem_of_nil in Hin.
Qed.

(** For two boxes of one category on one line, the test of the loop is the
    test on the gap. *)
Lemma close_together_iff (prev_box box : TextBox) (c : string) :
  box_redaction_type prev_box = Some c →
  box_redaction_type box = Some c →
  same_line prev_box box →
  close_together prev_box box = true
  ↔ 0 <= gap prev_box box < max_distance_of c.
Proof.
  intros Hp Hb Hline. unfold close_together, gap, same_line in *.
  rewrite Hp, Hb. simpl.
  rewrite bool_decide_eq_true_2 by done.
  rewrite !andb_true_iff, Z.ltb_lt, Z.leb_le, Z.ltb_lt. tauto.
Qed.

(** C4 (as stated, refuted). Two [phone] boxes on one line whose gap is
    exactly the 15px maximum are within that maximum, and the merge keeps
    them apart. *)
Lemma merge_gap_at_maximum_kept_apart :
  same_line (mkTextBox "555" 10 5 30 10 (Some "phone") None)
            (mkTextBox "1234" 55 5 40 10 (Some "phone") None)
  ∧ 0 <= gap (mkTextBox "555" 10 5 30 10 (Some "phone") None)
             (mkTextBox "1234" 55 5 40 10 (Some "phone") None) <= 15
  ∧ _merge_adjacent_sensitive_boxes
      [mkTextBox "555" 10 5 30 10 (Some "phone") None;
       mkTextBox "1234" 55 5 40 10 (Some "phone") None]
    = Some [mkTextBox "555" 10 5 30 10 (Some "phone") None;
            mkTextBox "1234" 55 5 40 10 (Some "phone") None].
Proof.
  unfold same_line, gap. simpl. split; [lia |]. split; [lia | reflexivity].
Qed.

(** C4 (amended). The maximum gap is 100px for [name], 15px for [phone]
    and [credit_card] and 30px for every other category. Two consecutive
    boxes (in the processing order) of one category on one visual line are
    put side by side in one group of the merge exactly when the gap from
    the right edge of the first to the left edge of the second is at least
    0 and strictly below that maximum; otherwise one group ends with the
    first and the next group starts with the second. So two [phone] boxes
    merge at a gap of 2px and not at 20px, and two [name] boxes merge at a
    gap of 90px and not at 110px. *)
Theorem merge_rule_strict_gap :
  (max_distance_of "name" = 100
   ∧ max_distance_of "phone" = 15
   ∧ max_distance_of "credit_card" = 15
   ∧ ∀ c, c ≠ "name" → c ≠ "phone" → c ≠ "credit_card" →
          max_distance_of c = 30)
  ∧ (∀ boxes l1 a b l2 c,
       sorted_by_position boxes = l1 ++ a :: b :: l2 →
       box_redaction_type a = Some c →
       box_redaction_type b = Some c →
       same_line a b →
       ∃ outs,
         _merge_adjacent_sensitive_boxes boxes = Some outs
         ∧ Forall2 (λ grp o, close_group grp = Some o)
                   (group_adjacent (l1 ++ a :: b :: l2)) outs
         ∧ if decide (0 <= gap a b < max_distance_of c)
           then ∃ G g1 g2 G',
                  group_adjacent (l1 ++ a :: b :: l2)
                  = G ++ (g1 ++ a :: b :: g2) :: G'
           else group_adjacent (l1 ++ a :: b :: l2)
                = group_adjacent (l1 ++ [a]) ++ group_adjacent (b :: l2))
  ∧ _merge_adjacent_sensitive_boxes
      [mkTextBox "555" 10 5 30 10 (Some "phone") None;
       mkTextBox "1234" 42 5 40 10 (Some "phone") None]
    = Some [mkTextBox "555 1234" 10 5 72 10 (Some "phone") (Some [])]
  ∧ _merge_adjacent_sensitive_boxes
      [mkTextBox "555" 10 5 30 10 (Some "phone") None;
       mkTextBox "1234" 60 5 40 10 (Some "phone") None]
    = Some [mkTextBox "555" 10 5 30 10 (Some "phone") None;
            mkTextBox "1234" 60 5 40 10 (Some "phone") None]
  ∧ _merge_adjacent_sensitive_boxes
      [mkTextBox "Jane" 10 5 30 10 (Some "name") None;
       mkTextBox "Doe" 130 5 25 10 (Some "name") None]
    = Some [mkTextBox "Jane Doe" 10 5 145 10 (Some "name") (Some [])]
  ∧ _merge_adjacent_sensitive_boxes
      [mkTextBox "Jane" 10 5 30 10 (Some "name") None;
       mkTextBox "Doe" 150 5 25 10 (Some "name") None]
    = Some [mkTextBox "Jane" 10 5 30 10 (Some "name") None;
            mkTextBox "Doe" 150 5 25 10 (Some "name") None].
Proof.
  split; [apply max_distance_of_table |].
  split; [| by repeat split].
  intros boxes l1 a b l2 c Hsorted Ha Hb Hline.
  destruct (merge_adjacent_groups boxes) as (outs & Hrun & Hall).
  rewrite Hsorted in Hall.
  exists outs. split; [exact Hrun |]. split; [exact Hall |].
  pose proof (close_together_iff a b c Ha Hb Hline) as Hiff.
  destruct (decide (0 <= gap a b < max_distance_of c)) as [Hgap | Hgap].
  - apply group_adjacent_glue. by apply Hiff.
  - apply group_adjacent_split.
    destruct (close_together a b); [| done]. by destruct Hgap; apply Hiff.
Qed.

(** ** Address de-duplication *)

(** C9. In both senders, when the normalised cc ([cc.lower().strip()]) is
    not empty and equals the normalised to, [deduplicate_email_addresses]
    returns the to address unchanged with an empty cc; in every other case
    it returns both addresses unchanged. *)
Theorem deduplicate_email_addresses_spec (to_email cc_email : string) :
  let same := py_strip (py_lower cc_email) ≠ ""
              ∧ py_strip (py_lower cc_email) = py_strip (py_lower to_email) in
  (same →
   mailpit_email_sender.deduplicate_email_addresses to_email cc_email
   = (to_email, "")
   ∧ resend_api_email_sender.deduplicate_email_addresses to_email cc_email
     = (to_email, ""))
  ∧ (¬ same →
     mailpit_email_sender.deduplicate_email_addresses to_email cc_email
     = (to_email, cc_email)
     ∧ resend_api_email_sender.deduplicate_email_addresses to_email cc_email
       = (to_email, cc_email)).
Proof.
  intros same. subst same.
  assert (∀ s, (if py_truthy s then py_strip (py_lower s) else "")
               = py_strip (py_lower s)) as Hnorm.
  { intros s. by destruct s. }
  unfold mailpit_email_sender.deduplicate_email_addresses,
    resend_api_email_sender.deduplicate_email_addresses.
  rewrite !Hnorm.
  assert (∀ s, py_truthy s = true ↔ s ≠ "") as Htruthy.
  { intros s. destruct s; simpl; split; congruence. }
  split.
  - intros [Hne Heq].
    apply Htruthy in Hne. rewrite Hne.
    rewrite bool_decide_eq_true_2 by done. done.
  - intros Hnot.
    destruct (py_truthy (py_strip (py_lower cc_email))) eqn:Ht; [| done].
    destruct (bool_decide_reflect
                (py_strip (py_lower cc_email) = py_strip (py_lower to_email)))
      as [Heq | Hneq]; [| done].
    destruct Hnot. split; [by apply Htruthy | done].
Qed.

(** ** Compositing *)

Lemma fill_rectangle_ok (rows : list (list Color)) (x0 y0 x1 y1 : Z)
    (fill : Color) :
  x0 <= x1 → y0 <= y1 →
  ∃ rows',
    fill_rectangle rows (x0, y0, x1, y1) fill = Some rows'
    ∧ same_shape rows rows'
    ∧ ∀ px py c,
        pixel rows px py = Some c →
        pixel rows' px py =
        Some (if in_rectangle (x0, y0, x1, y1) px py then fill else c).
Proof.
  intros Hx Hy. unfold fill_rectangle.
  rewrite decide_False by lia. eexists. split; [reflexivity |]. split.
  - unfold same_shape. apply Forall2_same_length_lookup. split.
    + by rewrite length_imap.
    + intros i r r' Hr Hr'. rewrite list_lookup_imap, Hr in Hr'.
      simpl in Hr'. injection Hr' as <-. by rewrite length_imap.
  - intros px py c. unfold pixel.
    rewrite list_lookup_imap.
    destruct (rows !! py) as [row|]; simpl; [| done].
    rewrite list_lookup_imap. intros ->. done.
Qed.

Lemma fill_rectangle_shape (rows rows' : list (list Color))
    (xy : Z * Z * Z * Z) (fill : Color) :
  fill_rectangle rows xy fill = Some rows' → same_shape rows rows'.
Proof.
  destruct xy as [[[x0 y0] x1] y1]. unfold fill_rectangle.
  destruct (decide (x1 < x0 ∨ y1 < y0)) as [|Hok]; [done |].
  destruct (fill_rectangle_ok rows x0 y0 x1 y1 fill) as (r & Hr & Hs & _);
    [lia | lia |].
  unfold fill_rectangle in Hr. rewrite decide_False in Hr by done.
  congruence.
Qed.

Lemma same_shape_size (img img' : Image) :
  same_shape (im_rows img) (im_rows img') → im_size img = im_size img'.
Proof.
  unfold same_shape, im_size. intros Hs.
  rewrite (Forall2_length _ _ _ Hs).
  destruct Hs as [|r r' rows rows' Hr _]; simpl; [done | by rewrite Hr].
Qed.

Lemma same_shape_refl (rows : list (list Color)) : same_shape rows rows.
Proof.
  unfold same_shape. apply Forall_Forall2_diag, Forall_forall. done.
Qed.

Lemma same_shape_trans (a b c : list (list Color)) :
  same_shape a b → same_shape b c → same_shape a c.
Proof.
  unfold same_shape. intros Hab Hbc.
  eapply Forall2_trans; [| exact Hab | exact Hbc].
  simpl. congruence.
Qed.

Ltac py_run :=
  unfold mbind, Py_bind, mret, Py_ret, try_except, try_finally, raise,
    of_option, send, new_image, read_image, write_image, in_env, get_state,
    modify_state; cbn [images requests fst snd].

(** What one iteration of the drawing loop does to the copy. *)
Lemma draw_box_run (pil : Pillow) (labels : gmap string string)
    (show_labels : bool) (l : nat) (box : TextBox)
    (imgs : gmap nat Image) (reqs : list Request) (img : Image) :
  imgs !! l = Some img →
  draw_box pil labels show_labels l box (mkEnv imgs reqs) =
  match fill_rectangle (im_rows img) (redaction_rectangle box) (0, 0, 0) with
  | None => (None, mkEnv imgs reqs)
  | Some rows =>
      (Some (),
       mkEnv (<[l := with_rows
                       (if show_labels && (40 <? box_width box)
                        then draw_label pil rows (redaction_rectangle box)
                               (default "[REDACTED]"
                                  (labels !! default "other"
                                                (box_redaction_type box)))
                        else rows) img]> imgs) reqs)
  end.
Proof.
  intros Himg. unfold draw_box. py_run. rewrite Himg.
  destruct (fill_rectangle (im_rows img) (redaction_rectangle box) (0, 0, 0))
    as [rows|]; [| done].
  destruct (show_labels && (40 <? box_width box)); [| done].
  cbn [images requests]. rewrite lookup_insert_eq. by rewrite insert_insert_eq.
Qed.

(** The drawing loop writes to the copy only, and sends nothing. *)
Lemma draw_loop_run (pil : Pillow) (labels : gmap string string)
    (show_labels : bool) (l : nat) (boxes : list TextBox) :
  ∀ imgs reqs cur,
    imgs !! l = Some cur →
    ∃ r cur',
      for_each boxes (draw_box pil labels show_labels l) (mkEnv imgs reqs)
      = (r, mkEnv (<[l := cur']> imgs) reqs)
      ∧ im_mode cur' = im_mode cur
      ∧ (boxes = [] → r = Some () ∧ cur' = cur)
      ∧ (label_keeps_shape pil → same_shape (im_rows cur) (im_rows cur')).
Proof.
  induction boxes as [|box boxes IH]; intros imgs reqs cur Hcur.
  - exists (Some ()), cur. simpl. py_run. rewrite insert_id by done.
    repeat split; auto using same_shape_refl.
  - cbn [for_each]. unfold mbind at 1, Py_bind at 1.
    rewrite (draw_box_run _ _ _ _ _ _ _ cur Hcur).
    destruct (fill_rectangle (im_rows cur) (redaction_rectangle box) (0, 0, 0))
      as [rows|] eqn:Hfill.
    + set (cur1 := with_rows _ cur).
      destruct (IH (<[l := cur1]> imgs) reqs cur1) as (r & cur' & Hrun & Hm & _ & Hs).
      { apply lookup_insert_eq. }
      exists r, cur'. rewrite Hrun, insert_insert_eq.
      split; [done |]. split; [by rewrite Hm |]. split; [done |].
      intros Hpil. eapply same_shape_trans; [| by apply Hs].
      subst cur1. simpl.
      apply fill_rectangle_shape in Hfill.
      destruct (show_labels && (40 <? box_width box)); [| done].
      eapply same_shape_trans; [exact Hfill | apply Hpil].
    + exists None, cur. rewrite insert_id by done.
      repeat split; auto using same_shape_refl. done.
Qed.


(** [draw_redaction_boxes] allocates the copy, draws into it and into
    nothing else, and sends nothing. *)
Lemma draw_redaction_boxes_run (pil : Pillow) (image : nat)
    (sensitive_boxes : list TextBox) (show_labels : bool)
    (state : option State) (imgs : gmap nat Image) (reqs : list Request)
    (original : Image) :
  imgs !! image = Some original →
  ∃ (r : option ()) out,
    draw_redaction_boxes pil image sensitive_boxes show_labels state
      (mkEnv imgs reqs)
    = (match r with Some _ => Some (fresh (dom imgs)) | None => None end,
       mkEnv (<[fresh (dom imgs) := out]> imgs) reqs)
    ∧ fresh (dom imgs) ≠ image
    ∧ im_mode out = im_mode original
    ∧ (sensitive_boxes = [] → r = Some () ∧ out = copy_of original)
    ∧ (label_keeps_shape pil → same_shape (im_rows original) (im_rows out)).
Proof.
  intros Himage.
  pose proof (is_fresh (dom imgs)) as Hfresh.
  set (l := fresh (dom imgs)) in *.
  assert (l ≠ image) as Hne.
  { intros ->. apply Hfresh, elem_of_dom. by eexists. }
  destruct (draw_loop_run pil (labels_of state) show_labels l sensitive_boxes
              (<[l := copy_of original]> imgs) reqs (copy_of original))
    as (r & cur' & Hrun & Hmode & Hnil & Hshape).
  { apply lookup_insert_eq. }
  rewrite insert_insert_eq in Hrun.
  exists r, cur'. split; [| done].
  unfold draw_redaction_boxes. py_run. rewrite Himage.
  fold l. cbn [images requests].
  unfold mbind, Py_bind in Hrun. rewrite Hrun. by destruct r.
Qed.


(** ** Running a computation *)

Lemma bind_run {S A B} (m : Py S A) (k : A → Py S B) (s : S) :
  (m ≫= k) s =
  match m s with
  | (Some a, s') => k a s'
  | (None, s') => (None, s')
  end.
Proof. reflexivity. Qed.

Lemma try_except_run {S A} (body handler : Py S A) (s : S) :
  try_except body handler s =
  match body s with
  | (Some a, s') => (Some a, s')
  | (None, s') => handler s'
  end.
Proof. reflexivity. Qed.

Lemma get_bind {A} (k : State → Py (State * Env) A) (s : State * Env) :
  (get_state ≫= k) s = k s.1 s.
Proof. reflexivity. Qed.

Lemma modify_bind {A} (f : State → State) (k : () → Py (State * Env) A)
    (s : State * Env) :
  (modify_state f ≫= k) s = k () (f s.1, s.2).
Proof. reflexivity. Qed.

(** ** The OCR call *)

(** [extract_text_with_boxes] sends one request and never raises. *)
Lemma extract_text_with_boxes_run (remote : Remote) (image_b64 : string)
    (state : option State) (imgs : gmap nat Image) (reqs : list Request) :
  extract_text_with_boxes remote image_b64 state (mkEnv imgs reqs) =
  (Some match ocr_space remote image_b64 with
        | OcrResult false parsed_results =>
            default [] (head parsed_results) ≫= λ words, words ≫= word_box
        | _ => []
        end,
   mkEnv imgs (reqs ++ [OcrRequest image_b64])).
Proof.
  unfold extract_text_with_boxes. py_run.
  destruct (ocr_space remote image_b64) as [| | | |[] parsed]; done.
Qed.

Lemma extract_text_with_boxes_value (remote : Remote) (image_b64 : string)
    (state : option State) (env env0 : Env) :
  (extract_text_with_boxes remote image_b64 state env).1
  = (extract_text_with_boxes remote image_b64 state env0).1.
Proof.
  destruct env, env0. by rewrite !extract_text_with_boxes_run.
Qed.

(** C3. [extract_text_with_boxes] never raises, and returns the empty list
    when the OCR call raises or times out, when its answer is not JSON or
    not an object, and when it reports an error; and whenever
    [extract_text_with_boxes] returns the empty list for an image,
    [redact_image_from_base64] returns the base64 string it was given. *)
Theorem ocr_failure_returns_original (remote : Remote) (pil : Pillow)
    (image_b64 : string) (state : option State) (env : Env) :
  (∃ text_boxes env',
     extract_text_with_boxes remote image_b64 state env
     = (Some text_boxes, env')
     ∧ (ocr_failed (ocr_space remote image_b64) → text_boxes = []))
  ∧ (∀ env0,
       (extract_text_with_boxes remote image_b64 state env0).1 = Some [] →
       (redact_image_from_base64 remote pil image_b64 state env).1
       = Some image_b64).
Proof.
  split.
  - destruct env as [imgs reqs]. rewrite extract_text_with_boxes_run.
    eexists _, _. split; [reflexivity |].
    destruct (ocr_space remote image_b64) as [| | | |[] parsed]; done.
  - intros env0 Hempty. destruct env as [imgs reqs], env0 as [imgs0 reqs0].
    rewrite extract_text_with_boxes_run in Hempty. simpl in Hempty.
    injection Hempty as Hempty.
    unfold redact_image_from_base64. rewrite try_except_run, bind_run.
    unfold of_option.
    destruct (image_open_b64 pil image_b64) as [opened|]; [| done].
    rewrite bind_run. unfold new_image at 1. cbn [images requests].
    rewrite bind_run.
    destruct (decide (im_mode opened ≠ "RGB")).
    + unfold new_image at 1. cbn [images requests].
      rewrite bind_run, extract_text_with_boxes_run, Hempty.
      by rewrite decide_True.
    + unfold mret at 1, Py_ret at 1.
      rewrite bind_run, extract_text_with_boxes_run, Hempty.
      by rewrite decide_True.
Qed.

(** ** Category filtering *)

(** The category of an output box of the merge is the category of one of
    the input boxes. *)
Lemma merge_adjacent_types (boxes outs : list TextBox) :
  _merge_adjacent_sensitive_boxes boxes = Some outs →
  ∀ o, o ∈ outs →
  ∃ b, b ∈ boxes ∧ box_redaction_type o = box_redaction_type b.
Proof.
  intros Hrun o Ho.
  destruct (merge_adjacent_groups boxes) as (outs' & Hrun' & Hall).
  assert (outs' = outs) as -> by congruence.
  apply list_elem_of_lookup in Ho as [i Ho].
  destruct (Forall2_lookup_r _ _ _ _ _ Hall Ho) as (grp & Hgrp & Hclose).
  assert (grp ∈ group_adjacent (sorted_by_position boxes)) as Hin.
  { apply list_elem_of_lookup. by exists i. }
  pose proof (group_adjacent_nonempty (sorted_by_position boxes)) as Hne.
  rewrite Forall_forall in Hne. specialize (Hne grp Hin).
  destruct grp as [|b0 rest]; [done |].
  exists b0. split.
  - rewrite <- (sorted_by_position_perm boxes), <- group_adjacent_join.
    apply list_elem_of_join. exists (b0 :: rest). split; [left | done].
  - destruct (close_group_spec (b0 :: rest)) as (o' & Ho' & _ & _ & Hty);
      [done |].
    assert (o' = o) as -> by congruence.
    destruct rest as [|b1 rest].
    + unfold close_group in Hclose. simpl in Hclose. congruence.
    + destruct (merge_box_group_general b0 (b1 :: rest))
        as (mx & my & Mx & My & _ & _ & _ & _ & Heq).
      unfold close_group in Hclose.
      rewrite decide_False in Hclose by (simpl; lia).
      rewrite Heq in Hclose by done. by injection Hclose as <-.
Qed.

(** A box enters [sensitive_boxes] with the category that the classifier
    gave to its index, when the lookup of that category in
    [type_to_enabled], [True] by default, says so. *)
Lemma sensitive_entries_spec (sensitivity_map : gmap Z string)
    (enabled : gmap string bool) (text_boxes : list TextBox) (b : TextBox) :
  b ∈ mjoin (imap (sensitive_entry sensitivity_map enabled) text_boxes) →
  ∃ (idx : nat) box redaction_type,
    text_boxes !! idx = Some box
    ∧ sensitivity_map !! Z.of_nat idx = Some redaction_type
    ∧ default true (enabled !! redaction_type) = true
    ∧ b = with_redaction_type box redaction_type.
Proof.
  intros Hb. apply list_elem_of_join in Hb as (entry & Hb & Hentry).
  apply list_elem_of_lookup in Hentry as [idx Hentry].
  rewrite list_lookup_imap in Hentry.
  destruct (text_boxes !! idx) as [box|] eqn:Hbox; [| done].
  simpl in Hentry. injection Hentry as <-.
  unfold sensitive_entry in Hb.
  destruct (sensitivity_map !! Z.of_nat idx) as [rt|] eqn:Hrt;
    [| by apply elem_of_nil in Hb].
  destruct (default true (enabled !! rt)) eqn:Hen;
    [| by apply elem_of_nil in Hb].
  apply list_elem_of_singleton in Hb as ->. by exists idx, box, rt.
Qed.

(** A known category that passes the lookup is an enabled one. *)
Lemma type_to_enabled_known (st : State) (redaction_type : string) :
  redaction_type ∈ known_types →
  default true (type_to_enabled (Some st) !! redaction_type) = true →
  redaction_type ∈ enabled_types (Some st).
Proof.
  intros Hknown Hen.
  change known_types with (category_flags st).*1 in Hknown.
  apply list_elem_of_fmap in Hknown as ([rt flag] & -> & Hin).
  cbn [fst] in *. unfold type_to_enabled in Hen.
  rewrite (elem_of_list_to_map_1 (category_flags st) rt flag) in Hen; [| | done].
  - simpl in Hen. subst flag.
    apply list_elem_of_fmap. exists (rt, true). split; [done |].
    by apply list_elem_of_filter.
  - change (category_flags st).*1 with known_types.
    apply (bool_decide_unpack (NoDup known_types)). by vm_compute.
Qed.

(** A subscript in range finds a box. *)
Lemma py_index_in_range {A} (l : list A) (idx : Z) :
  - Z.of_nat (length l) <= idx < Z.of_nat (length l) →
  is_Some (py_index l idx).
Proof.
  intros [Hlow Hhigh]. unfold py_index.
  destruct (0 <=? idx) eqn:Hsign.
  - apply lookup_lt_is_Some. apply Z.leb_le in Hsign. lia.
  - apply Z.leb_gt in Hsign.
    assert ((- Z.of_nat (length l) <=? idx) = true) as ->
      by by apply Z.leb_le.
    apply lookup_lt_is_Some. lia.
Qed.

(** A subscript below [-len(l)] raises. *)
Lemma py_index_below {A} (l : list A) (idx : Z) :
  idx < - Z.of_nat (length l) → py_index l idx = None.
Proof.
  intros Hlow. unfold py_index.
  assert ((0 <=? idx) = false) as -> by (apply Z.leb_gt; lia).
  by assert ((- Z.of_nat (length l) <=? idx) = false) as ->
    by (apply Z.leb_gt; lia).
Qed.

(** The report changes nothing; it raises exactly when one of the first
    five keys lies below [-len(text_boxes)]. *)
Lemma report_loop_run (text_boxes : list TextBox)
    (shown : list (Z * string)) (env : Env) :
  for_each shown (λ item : Z * string,
    if item.1 <? Z.of_nat (length text_boxes)
    then box ← of_option (py_index text_boxes item.1); mret ()
    else mret ()) env
  = (if decide (Exists (λ item : Z * string,
                          item.1 < - Z.of_nat (length text_boxes)) shown)
     then None else Some (), env).
Proof.
  induction shown as [|item shown IH].
  - by rewrite decide_False by by intros ?%Exists_nil.
  - cbn [for_each]. rewrite bind_run.
    destruct (item.1 <? Z.of_nat (length text_boxes)) eqn:Hbelow.
    + apply Z.ltb_lt in Hbelow. rewrite bind_run. unfold of_option at 1.
      destruct (decide (item.1 < - Z.of_nat (length text_boxes)))
        as [Hlow | Hin].
      * rewrite (py_index_below _ _ Hlow).
        by rewrite decide_True by by left.
      * destruct (py_index_in_range text_boxes item.1) as [box ->];
          [lia |].
        change (for_each shown (λ item : Z * string,
                  if item.1 <? Z.of_nat (length text_boxes)
                  then box ← of_option (py_index text_boxes item.1); mret ()
                  else mret ()) env
                = (if decide (Exists (λ item : Z * string,
                                        item.1
                                        < - Z.of_nat (length text_boxes))
                                (item :: shown))
                   then None else Some (), env)).
        rewrite IH.
        destruct (decide (Exists _ shown)) as [Hex | Hnex].
        -- by rewrite decide_True by by right.
        -- rewrite decide_False; [done |].
           by intros [? | ?]%Exists_cons.
    + apply Z.ltb_ge in Hbelow.
      change (for_each shown (λ item : Z * string,
                if item.1 <? Z.of_nat (length text_boxes)
                then box ← of_option (py_index text_boxes item.1); mret ()
                else mret ()) env
              = (if decide (Exists (λ item : Z * string,
                                      item.1
                                      < - Z.of_nat (length text_boxes))
                              (item :: shown))
                 then None else Some (), env)).
      rewrite IH.
      destruct (decide (Exists _ shown)) as [Hex | Hnex].
      * by rewrite decide_True by by right.
      * rewrite decide_False; [done |].
        intros [? | ?]%Exists_cons; [lia | done].
Qed.

Lemma report_first_items_run (text_boxes : list TextBox)
    (items : list (Z * string)) (env : Env) :
  report_first_items text_boxes items env
  = (if decide (report_raises text_boxes items) then None else Some (), env).
Proof.
  unfold report_first_items. rewrite report_loop_run.
  destruct (decide (Exists _ (take 5 items))) as [Hex | Hnex].
  - by rewrite decide_True by exact Hex.
  - by rewrite decide_False by exact Hnex.
Qed.

(** [identify_sensitive_text_with_ai] never raises; without a text box or
    without an enabled category it answers [{}] and sends nothing. *)
Lemma identify_sensitive_text_with_ai_run (remote : Remote)
    (text_boxes : list TextBox) (state : option State)
    (imgs : gmap nat Image) (reqs : list Request) :
  ∃ sensitivity_map reqs',
    identify_sensitive_text_with_ai remote text_boxes state (mkEnv imgs reqs)
    = (Some sensitivity_map, mkEnv imgs reqs')
    ∧ (text_boxes = [] ∨ enabled_types state = [] →
       sensitivity_map = ∅ ∧ reqs' = reqs).
Proof.
  unfold identify_sensitive_text_with_ai.
  destruct (decide (text_boxes = [])) as [Hnil | Hcons].
  { by exists ∅, reqs. }
  destruct (decide (enabled_types state = [])) as [Hoff | Hon].
  { by exists ∅, reqs. }
  py_run.
  destruct (groq_classify remote _ _) as [|items].
  { eexists _, _. split; [reflexivity | by intros [? | ?]]. }
  assert (∀ env, match state with
                 | Some _ => report_first_items text_boxes items
                 | None => λ s : Env, (Some (), s)
                 end env
                 = (if decide (report_raises text_boxes items ∧ is_Some state)
                    then None else Some (), env)) as ->.
  { intros env. destruct state as [st|].
    - rewrite report_first_items_run.
      destruct (decide (report_raises text_boxes items)).
      + by rewrite decide_True by done.
      + by rewrite decide_False by by intros [? _].
    - by rewrite decide_False by by intros [_ [? ?]]. }
  destruct (decide (report_raises text_boxes items ∧ is_Some state));
    eexists _, _; (split; [reflexivity | by intros [? | ?]]).
Qed.

(** [find_sensitive_boxes] never raises and leaves the image objects
    alone; every box it returns carries a category, which passed the
    lookup in [type_to_enabled] and which the classifier gave to the index
    of some text box. *)
Lemma find_sensitive_boxes_run (remote : Remote) (text_boxes : list TextBox)
    (state : option State) (imgs : gmap nat Image) (reqs : list Request) :
  ∃ sensitive_boxes reqs',
    find_sensitive_boxes remote text_boxes state (mkEnv imgs reqs)
    = (Some sensitive_boxes, mkEnv imgs reqs')
    ∧ (enabled_types state = [] → sensitive_boxes = [])
    ∧ Forall (λ b, ∃ redaction_type,
                box_redaction_type b = Some redaction_type
                ∧ default true (type_to_enabled state !! redaction_type)
                  = true)
             sensitive_boxes.
Proof.
  destruct (identify_sensitive_text_with_ai_run remote text_boxes state
              imgs reqs) as (m & reqs' & Hrun & Hoff).
  unfold find_sensitive_boxes. rewrite bind_run, Hrun. unfold of_option.
  set (entries := mjoin (imap (sensitive_entry m (type_to_enabled state))
                              text_boxes)).
  destruct (merge_adjacent_groups entries) as (outs & Hmerge & _).
  exists outs, reqs'. rewrite Hmerge. split; [done |]. split.
  - intros Hnone. destruct (Hoff (or_intror Hnone)) as [-> _].
    destruct entries as [|b entries'] eqn:Hentries.
    + simpl in Hmerge. congruence.
    + assert (b ∈ entries) as Hb by (rewrite Hentries; left).
      apply sensitive_entries_spec in Hb as (idx & box & rt & _ & Hrt & _).
      by rewrite lookup_empty in Hrt.
  - apply Forall_forall. intros o Ho.
    destruct (merge_adjacent_types entries outs Hmerge o Ho) as (b & Hb & ->).
    apply sensitive_entries_spec in Hb as (idx & box & rt & _ & _ & Hen & ->).
    by exists rt.
Qed.

(** C1 (as stated, refuted). With every category enabled, a text box that
    the classifier labels [company] is returned with that label, which is
    not an enabled category. *)
Lemma find_sensitive_boxes_keeps_unknown_label :
  (find_sensitive_boxes Sample.remote_company
     [mkTextBox "Acme" 0 0 50 10 None None] (Some initial_state)
     Sample.empty_env).1
  = Some [mkTextBox "Acme" 0 0 50 10 (Some "company") None]
  ∧ "company" ∉ enabled_types (Some initial_state).
Proof.
  split; [by vm_compute |].
  intros Hin. vm_compute in Hin.
  repeat (apply elem_of_cons in Hin as [Heq | Hin]; [discriminate Heq |]).
  by apply elem_of_nil in Hin.
Qed.

(** C1 (amended). [find_sensitive_boxes] always returns a list, and every
    box of that list carries a category label that is an enabled category
    or is none of the twelve known categories: whatever the classifier
    answers, no box comes back under a category that is switched off (an
    index mapped to [ssn] while [ssn] is disabled is absent from the
    list), while a label outside the known categories is let through. *)
Theorem find_sensitive_boxes_no_disabled_category (remote : Remote)
    (text_boxes : list TextBox) (state : option State) (env : Env) :
  ∃ sensitive_boxes env',
    find_sensitive_boxes remote text_boxes state env
    = (Some sensitive_boxes, env')
    ∧ Forall (λ b, ∃ redaction_type,
                box_redaction_type b = Some redaction_type
                ∧ (redaction_type ∈ known_types →
                   redaction_type ∈ enabled_types state))
             sensitive_boxes
    ∧ (∀ st, state = Some st → redact_ssn_enabled st = false →
         Forall (λ b, box_redaction_type b ≠ Some "ssn") sensitive_boxes).
Proof.
  destruct env as [imgs reqs].
  destruct (find_sensitive_boxes_run remote text_boxes state imgs reqs)
    as (boxes & reqs' & Hrun & Hoff & Hall).
  exists boxes, (mkEnv imgs reqs'). split; [exact Hrun |].
  assert (Forall (λ b, ∃ redaction_type,
                    box_redaction_type b = Some redaction_type
                    ∧ (redaction_type ∈ known_types →
                       redaction_type ∈ enabled_types state)) boxes) as Hok.
  { destruct state as [st|].
    - eapply Forall_impl; [exact Hall |].
      intros b (rt & Hb & Hen). exists rt. split; [done |].
      intros Hknown. by apply type_to_enabled_known.
    - rewrite (Hoff eq_refl). constructor. }
  split; [exact Hok |].
  intros st -> Hssn. eapply Forall_impl; [exact Hok |].
  intros b (rt & Hb & Hen) Hb'. rewrite Hb in Hb'. injection Hb' as ->.
  assert ("ssn" ∈ known_types) as Hknown.
  { unfold known_types. do 4 right. left. }
  specialize (Hen Hknown). unfold enabled_types in Hen.
  apply list_elem_of_fmap in Hen as ([rt flag] & Hrt & Hin).
  apply list_elem_of_filter in Hin as [Hflag Hin].
  simpl in Hrt, Hflag. subst rt flag.
  unfold category_flags in Hin. rewrite Hssn in Hin.
  repeat (apply elem_of_cons in Hin as [Heq | Hin]; [discriminate Heq |]).
  by apply elem_of_nil in Hin.
Qed.

(** ** The image pipeline *)

(** C8 (as stated, refuted). A JPEG image in which a sensitive box is
    found comes back as a PNG image. *)
Lemma redact_image_jpeg_comes_back_png :
  (redact_image_from_base64 Sample.remote Sample.pil "Jwwwhh"
     (Some initial_state) Sample.empty_env).1 = Some "Pwwwhh"
  ∧ im_format <$> image_open_b64 Sample.pil "Jwwwhh" = Some (Some "JPEG")
  ∧ im_format <$> image_open_b64 Sample.pil "Pwwwhh" = Some (Some "PNG").
Proof. by vm_compute. Qed.

(** ** The text classifier *)

(** The image pipeline never raises. *)
Lemma redact_image_from_base64_total (remote : Remote) (pil : Pillow)
    (image_b64 : string) (state : option State) (env : Env) :
  ∃ out env',
    redact_image_from_base64 remote pil image_b64 state env = (Some out, env').
Proof.
  unfold redact_image_from_base64. rewrite try_except_run.
  match goal with |- context [match ?body env with _ => _ end] =>
    destruct (body env) as [[out|] env']
  end; by eexists _, _.
Qed.

(** The loop over the uploaded images never raises and touches nothing of
    the state but [redacted_images]. *)
Lemma redact_images_loop (remote : Remote) (pil : Pillow)
    (snapshot : option State) (imgs : list string) :
  ∀ st env,
  ∃ st' env',
    for_each imgs (λ img_b64,
      redacted_img ← in_env (redact_image remote pil img_b64 snapshot);
      modify_state (λ st,
        set_redacted_images (redacted_images st ++ [redacted_img]) st))
      (st, env)
    = (Some (), (st', env'))
    ∧ redacted_content st' = redacted_content st
    ∧ content st' = content st.
Proof.
  induction imgs as [|img imgs IH]; intros st env.
  - by exists st, env.
  - cbn [for_each]. rewrite !bind_run. unfold in_env. cbn [fst snd].
    unfold redact_image.
    destruct (redact_image_from_base64_total remote pil img snapshot env)
      as (out & env1 & ->).
    unfold modify_state. cbn [fst snd].
    destruct (IH (set_redacted_images (redacted_images st ++ [out]) st) env1)
      as (st' & env' & Hloop & Hrc & Hc).
    exists st', env'. split; [exact Hloop | done].
Qed.

(** Whatever the categories, when the service answers with status 200
    and a body that is read without raising, the redacted content is the
    text of the answer. *)
Lemma redact_text_stores_answer (remote : Remote) (pil : Pillow)
    (state : State) (env : Env) (answer : string) :
  py_truthy (to_email state) = true →
  py_truthy (content state) = true →
  groq_rewrite remote (redaction_instructions state) (content state)
  = RewriteResponse 200 (ChatMessage (Some answer) true) →
  ∃ state' env',
    redact_text remote pil (state, env) = (Some (), (state', env'))
    ∧ redacted_content state' = answer
    ∧ content state' = content state.
Proof.
  intros Hto Hcontent Hanswer. unfold redact_text.
  rewrite get_bind. cbn [fst snd]. rewrite Hto, Hcontent. cbn [negb orb].
  repeat (rewrite modify_bind; cbn [fst snd]).
  unfold try_finally. rewrite try_except_run, get_bind. cbn [fst snd].
  rewrite bind_run. unfold in_env at 1, send. cbn [fst snd images requests].
  match goal with |- context [groq_rewrite remote ?i ?c] =>
    change (groq_rewrite remote i c)
      with (groq_rewrite remote (redaction_instructions state) (content state))
  end.
  rewrite Hanswer. rewrite decide_True by done.
  rewrite bind_run, modify_bind. cbn [fst snd default].
  unfold mret at 1, Py_ret at 1.
  rewrite get_bind. cbn [fst snd]. rewrite bind_run.
  match goal with
  | |- context [if decide (uploaded_images ?st ≠ []) then _ else _] =>
      destruct (decide (uploaded_images st ≠ []))
  end.
  - rewrite modify_bind. cbn [fst snd].
    match goal with
    | |- context [for_each ?imgs ?body (?st, ?e)] =>
        assert (∃ st' env',
                  for_each imgs body (st, e) = (Some (), (st', env'))
                  ∧ redacted_content st' = redacted_content st
                  ∧ content st' = content st)
          as (st' & env' & Hloop & Hrc & Hc)
          by apply redact_images_loop
    end.
    rewrite Hloop.
    unfold modify_state. cbn [fst snd].
    eexists _, _. split; [reflexivity |].
    cbn [redacted_content content set_loading set_step].
    by rewrite Hrc, Hc.
  - unfold mret at 1, Py_ret at 1. unfold modify_state. cbn [fst snd].
    eexists _, _. split; [reflexivity |]. done.
Qed.

(** Without an enabled category there is no instruction line. *)
Lemma no_category_no_instruction (state : State) :
  enabled_types (Some state) = [] → redaction_instructions state = [].
Proof.
  unfold enabled_types, redaction_instructions, category_flags,
    category_placeholders.
  destruct (redact_name_enabled state); [by vm_compute |].
  destruct (redact_email_enabled state); [by vm_compute |].
  destruct (redact_phone_enabled state); [by vm_compute |].
  destruct (redact_address_enabled state); [by vm_compute |].
  destruct (redact_ssn_enabled state); [by vm_compute |].
  destruct (redact_card_enabled state); [by vm_compute |].
  destruct (redact_key_enabled state); [by vm_compute |].
  destruct (redact_password_enabled state); [by vm_compute |].
  destruct (redact_token_enabled state); [by vm_compute |].
  destruct (redact_id_enabled state); [by vm_compute |].
  destruct (redact_dollar_enabled state); [by vm_compute |].
  destruct (redact_account_enabled state); [by vm_compute |].
  done.
Qed.

(** C2 (the code at the failing input). With every category switched off,
    [redact_text] builds no instruction line and still sends the content
    to the rewriting service, and the redacted content is whatever the
    service answers: in the sample session a text that differs from the
    input, and in general the text of any answer with status 200 whose
    body is read without raising. The
    image side does what the claim says: without an enabled category
    [identify_sensitive_text_with_ai] answers [{}] and sends nothing. *)
Theorem redact_text_without_categories_asks_remote :
  redaction_instructions Sample.all_disabled = []
  ∧ requests
      (redact_text Sample.remote Sample.pil
         (Sample.all_disabled, Sample.empty_env)).2.2
    = [RewriteRequest [] "Hi Bob"]
  ∧ content
      (redact_text Sample.remote Sample.pil
         (Sample.all_disabled, Sample.empty_env)).2.1
    = "Hi Bob"
  ∧ redacted_content
      (redact_text Sample.remote Sample.pil
         (Sample.all_disabled, Sample.empty_env)).2.1
    = "Here is the email: Hi Bob"
  ∧ (∀ remote pil state env answer,
       enabled_types (Some state) = [] →
       py_truthy (to_email state) = true →
       py_truthy (content state) = true →
       groq_rewrite remote [] (content state)
       = RewriteResponse 200 (ChatMessage (Some answer) true) →
       redacted_content (redact_text remote pil (state, env)).2.1 = answer)
  ∧ (∀ remote text_boxes state env,
       enabled_types state = [] →
       identify_sensitive_text_with_ai remote text_boxes state env
       = (Some ∅, env)).
Proof.
  split; [by vm_compute |]. split; [by vm_compute |].
  split; [by vm_compute |]. split; [by vm_compute |].
  split.
  - intros remote pil state env answer Hoff Hto Hcontent Hanswer.
    rewrite <- (no_category_no_instruction state Hoff) in Hanswer.
    destruct (redact_text_stores_answer remote pil state env answer
                Hto Hcontent Hanswer) as (state' & env' & -> & Hrc & _).
    exact Hrc.
  - intros remote text_boxes state env Hoff.
    unfold identify_sensitive_text_with_ai.
    destruct (decide (text_boxes = [])); [done |].
    by rewrite decide_True.
Qed.

(** ** The statements on concrete inputs *)

Example deduplicate_same_address :
  mailpit_email_sender.deduplicate_email_addresses
    "Bob@Example.com" "  bob@example.COM "
  = ("Bob@Example.com", "").
Proof. reflexivity. Qed.

Example deduplicate_other_address :
  resend_api_email_sender.deduplicate_email_addresses
    "bob@example.com" "eve@example.com"
  = ("bob@example.com", "eve@example.com").
Proof. reflexivity. Qed.

Example sort_is_stable :
  sorted_by_position
    [mkTextBox "c" 5 9 1 1 None None; mkTextBox "a" 7 2 1 1 None None;
     mkTextBox "b" 7 2 1 1 None None; mkTextBox "d" 1 9 1 1 None None]
  = [mkTextBox "a" 7 2 1 1 None None; mkTextBox "b" 7 2 1 1 None None;
     mkTextBox "d" 1 9 1 1 None None; mkTextBox "c" 5 9 1 1 None None].
Proof. reflexivity. Qed.

Example offline_ocr_keeps_image :
  (redact_image_from_base64 Sample.remote_offline Sample.pil "Jwwwhh" None
     Sample.empty_env).1 = Some "Jwwwhh".
Proof. by vm_compute. Qed.

(** The union of two [name] boxes on neighbouring lines. *)
Lemma merge_box_group_union_witness :
  [mkTextBox "Jane" 10 5 30 10 (Some "name") None;
   mkTextBox "Doe" 60 7 25 12 (Some "name") None] ≠ []
  ∧ ∃ m,
      _merge_box_group
        [mkTextBox "Jane" 10 5 30 10 (Some "name") None;
         mkTextBox "Doe" 60 7 25 12 (Some "name") None] = Some m
      ∧ is_minimum (box_x m)
          (box_x <$> [mkTextBox "Jane" 10 5 30 10 (Some "name") None;
                      mkTextBox "Doe" 60 7 25 12 (Some "name") None])
      ∧ is_minimum (box_y m)
          (box_y <$> [mkTextBox "Jane" 10 5 30 10 (Some "name") None;
                      mkTextBox "Doe" 60 7 25 12 (Some "name") None])
      ∧ is_maximum (box_x m + box_width m)
          ((λ b, box_x b + box_width b)
             <$> [mkTextBox "Jane" 10 5 30 10 (Some "name") None;
                  mkTextBox "Doe" 60 7 25 12 (Some "name") None])
      ∧ is_maximum (box_y m + box_height m)
          ((λ b, box_y b + box_height b)
             <$> [mkTextBox "Jane" 10 5 30 10 (Some "name") None;
                  mkTextBox "Doe" 60 7 25 12 (Some "name") None])
      ∧ box_text m
        = py_join " "
            (box_text <$> [mkTextBox "Jane" 10 5 30 10 (Some "name") None;
                           mkTextBox "Doe" 60 7 25 12 (Some "name") None])
      ∧ ∀ category,
          Forall (λ b, box_redaction_type b = category)
            [mkTextBox "Jane" 10 5 30 10 (Some "name") None;
             mkTextBox "Doe" 60 7 25 12 (Some "name") None] →
          box_redaction_type m = category.
Proof.
  split; [discriminate |]. apply merge_box_group_union. discriminate.
Defined.



(** The sample codec reads back the sizes it wrote. *)
Lemma sample_leading (c : ascii) (n : nat) (rest : string) :
  (∀ r, rest ≠ String c r) →
  Sample.leading c (Sample.unary c n rest) = (n, rest).
Proof.
  intros Hrest. induction n as [|n IH]; simpl.
  - destruct rest as [|d r]; [done |]. simpl.
    destruct (Ascii.eqb_spec c d) as [-> | _]; [| done].
    by destruct (Hrest r).
  - by rewrite Ascii.eqb_refl, IH.
Qed.

Lemma sample_label_keeps_shape : label_keeps_shape Sample.pil.
Proof. intros rows xy label. apply same_shape_refl. Qed.

Lemma sample_png_reopens : png_reopens Sample.pil.
Proof.
  intros img. cbn [image_open_b64 save_png_b64 Sample.pil].
  unfold Sample.save_blank, Sample.open_blank.
  assert (im_size img = (length (default [] (head (im_rows img))),
                         length (im_rows img))) as Hsize by reflexivity.
  destruct (im_size img) as [w h]. injection Hsize as -> ->.
  cbn [fst snd]. rewrite sample_leading.
  2: { intros r. destruct (length (im_rows img)); simpl; [done | congruence]. }
  cbn [fst snd]. rewrite sample_leading by done. cbn [fst snd].
  eexists. split; [reflexivity |]. split; [reflexivity |].
  unfold im_size, Sample.blank. cbn [im_rows].
  rewrite length_replicate.
  destruct (im_rows img) as [|row rows]; simpl; [done |].
  by rewrite length_replicate.
Qed.

(** * More of the code *)

(** ** Groups of a merge loop, for any test *)

Section Grouping.
Context (close : TextBox → TextBox → bool).

Lemma group_with_cons (a : TextBox) (r : list TextBox) :
  ∃ g gs, group_with close (a :: r) = (a :: g) :: gs.
Proof.
  simpl. destruct (head r) as [b|]; [| by eexists _, _].
  destruct (group_with close r) as [|g gs]; [by eexists _, _ |].
  destruct (close a b); by eexists _, _.
Qed.

Lemma group_with_step (a b : TextBox) (r : list TextBox) :
  ∃ g gs,
    group_with close (b :: r) = (b :: g) :: gs
    ∧ group_with close (a :: b :: r) =
      if close a b then (a :: b :: g) :: gs else [a] :: (b :: g) :: gs.
Proof.
  destruct (group_with_cons b r) as (g & gs & Hg).
  exists g, gs. split; [exact Hg |].
  assert (group_with close (a :: b :: r) =
          match group_with close (b :: r) with
          | g :: gs => if close a b then (a :: g) :: gs else [a] :: g :: gs
          | [] => [[a]]
          end) as -> by reflexivity.
  by rewrite Hg.
Qed.

Lemma group_with_join (l : list TextBox) : mjoin (group_with close l) = l.
Proof.
  induction l as [|a r IH]; [done |].
  destruct r as [|b r']; [done |].
  destruct (group_with_step a b r') as (g & gs & Hg & ->).
  rewrite Hg in IH. destruct (close a b); simpl in *; by rewrite IH.
Qed.

Lemma group_with_nonempty (l : list TextBox) :
  Forall (λ g, g ≠ []) (group_with close l).
Proof.
  induction l as [|a r IH]; [constructor |].
  destruct r as [|b r']; [by repeat constructor |].
  destruct (group_with_step a b r') as (g & gs & Hg & ->).
  rewrite Hg in IH. apply Forall_cons in IH as [_ Hgs].
  destruct (close a b); repeat constructor; done.
Qed.

(** Inside a group every box passed the test with the box before it. *)
Lemma group_with_chained (l : list TextBox) :
  Forall (chained close) (group_with close l).
Proof.
  induction l as [|a r IH]; [constructor |].
  destruct r as [|b r']; [by repeat constructor |].
  destruct (group_with_step a b r') as (g & gs & Hg & ->).
  rewrite Hg in IH. apply Forall_cons in IH as [Hbg Hgs].
  destruct (close a b) eqn:Hclose.
  - constructor; [| exact Hgs]. simpl. split; [exact Hclose | exact Hbg].
  - constructor; [done |]. by constructor.
Qed.

Lemma group_with_split (l1 : list TextBox) (a b : TextBox)
    (l2 : list TextBox) :
  close a b = false →
  group_with close (l1 ++ a :: b :: l2)
  = group_with close (l1 ++ [a]) ++ group_with close (b :: l2).
Proof.
  intros Hclose. induction l1 as [|c l1 IH].
  - cbn [app].
    destruct (group_with_step a b l2) as (g & gs & Hg & ->).
    by rewrite Hclose, Hg.
  - destruct l1 as [|d l1].
    + cbn [app] in *.
      destruct (group_with_step c a (b :: l2)) as (g & gs & Hg & ->).
      destruct (group_with_step c a []) as (g' & gs' & Hg' & ->).
      rewrite IH in Hg. rewrite Hg' in Hg. simpl in Hg.
      injection Hg as <- <-. by destruct (close c a).
    + cbn [app] in *.
      destruct (group_with_step c d (l1 ++ a :: b :: l2))
        as (g & gs & Hg & ->).
      destruct (group_with_step c d (l1 ++ [a])) as (g' & gs' & Hg' & ->).
      rewrite IH in Hg. rewrite Hg' in Hg. simpl in Hg.
      injection Hg as <- <-. by destruct (close c d).
Qed.

Lemma group_with_glue (l1 : list TextBox) (a b : TextBox)
    (l2 : list TextBox) :
  close a b = true →
  ∃ G g1 g2 G',
    group_with close (l1 ++ a :: b :: l2) = G ++ (g1 ++ a :: b :: g2) :: G'.
Proof.
  intros Hclose. induction l1 as [|c l1 IH].
  - cbn [app].
    destruct (group_with_step a b l2) as (g & gs & Hg & ->).
    rewrite Hclose. by exists [], [], g, gs.
  - destruct IH as (G & g1 & g2 & G' & IH).
    assert (∃ d r, l1 ++ a :: b :: l2 = d :: r) as (d & r & Hd).
    { destruct l1; by eexists _, _. }
    cbn [app]. rewrite Hd in IH |- *.
    destruct (group_with_step c d r) as (g & gs & Hg & ->).
    rewrite Hg in IH.
    destruct G as [|h G]; simpl in IH; injection IH as Hh Hgs.
    + destruct (close c d).
      * exists [], (c :: g1), g2, G'. simpl. by rewrite <- Hh, Hgs.
      * exists [[c]], g1, g2, G'. simpl. by rewrite <- Hh, Hgs.
    + destruct (close c d).
      * exists ((c :: h) :: G), g1, g2, G'. simpl. by rewrite <- Hh, Hgs.
      * exists ([c] :: h :: G), g1, g2, G'. simpl. by rewrite <- Hh, Hgs.
Qed.

(** When no two boxes pass the test, every box is a group of its own. *)
Lemma group_with_never (l : list TextBox) :
  (∀ a b, close a b = false) → group_with close l = (λ b, [b]) <$> l.
Proof.
  intros Hnever. induction l as [|a r IH]; [done |].
  destruct r as [|b r']; [done |].
  destruct (group_with_step a b r') as (g & gs & Hg & ->).
  rewrite Hnever. rewrite <- Hg, IH. done.
Qed.

End Grouping.

Lemma group_adjacent_with (l : list TextBox) :
  group_adjacent l = group_with close_together l.
Proof.
  induction l as [|a r IH]; [done |]. simpl. by rewrite IH.
Qed.

Lemma close_group_merge (g : list TextBox) :
  close_group g = _merge_box_group g.
Proof. by destruct g as [|a [|b r]]. Qed.

(** ** The line merge *)

Lemma line_loop_groups (max_distance : Z) (rest : list TextBox) :
  ∀ merged c p,
  ∃ g gs outs,
    group_with (on_same_line max_distance) (p :: rest) = (p :: g) :: gs
    ∧ (st ← line_loop max_distance (merged, c ++ [p]) rest;
       if decide (st.2 ≠ [])
       then o ← _merge_box_group st.2; Some (st.1 ++ [o])
       else Some st.1) = Some (merged ++ outs)
    ∧ Forall2 (λ grp o, _merge_box_group grp = Some o)
              ((c ++ p :: g) :: gs) outs.
Proof.
  induction rest as [|b r IH]; intros merged c p.
  - destruct (close_group_spec (c ++ [p])) as (o & Ho & _).
    { by destruct c. }
    rewrite close_group_merge in Ho.
    exists [], [], [o]. simpl. rewrite decide_True by (by destruct c).
    rewrite Ho. simpl.
    split; [done |]. split; [done |]. by repeat constructor.
  - destruct (group_with_step (on_same_line max_distance) p b r)
      as (g & gs & Hg & Hstep).
    rewrite Hstep.
    cbn [line_loop]. unfold line_step. rewrite last_snoc.
    cbn [mbind option_bind].
    destruct (on_same_line max_distance p b) eqn:Hclose.
    + destruct (IH merged (c ++ [p]) b) as (g' & gs' & outs & Hg' & Hrun & Hall).
      rewrite Hg in Hg'. injection Hg' as <- <-.
      exists (b :: g), gs, outs. split; [done |].
      split; [exact Hrun |]. by rewrite <- app_assoc in Hall.
    + destruct (close_group_spec (c ++ [p])) as (o & Ho & _).
      { by destruct c. }
      rewrite close_group_merge in Ho.
      rewrite decide_True by (by destruct c).
      rewrite Ho. cbn [mbind option_bind].
      destruct (IH (merged ++ [o]) [] b) as (g' & gs' & outs & Hg' & Hrun & Hall).
      rewrite Hg in Hg'. injection Hg' as <- <-.
      exists [], ((b :: g) :: gs), (o :: outs).
      split; [done |]. split.
      * simpl in Hrun. rewrite Hrun. by rewrite <- app_assoc.
      * by constructor.
Qed.

(** [merge_adjacent_boxes] never raises: it returns the unions of the
    groups of the sorted input, in order. *)
Lemma merge_adjacent_boxes_groups (boxes : list TextBox) (max_distance : Z) :
  ∃ outs,
    merge_adjacent_boxes boxes max_distance = Some outs
    ∧ Forall2 (λ grp o, _merge_box_group grp = Some o)
              (group_with (on_same_line max_distance)
                 (sorted_by_position boxes)) outs.
Proof.
  destruct boxes as [|b0 boxes']; [by exists [] |].
  unfold merge_adjacent_boxes.
  pose proof (sorted_by_position_perm (b0 :: boxes')) as Hperm.
  destruct (sorted_by_position (b0 :: boxes')) as [|first rest] eqn:Hsorted.
  { by apply Permutation_nil_cons in Hperm. }
  destruct (line_loop_groups max_distance rest [] [] first)
    as (g & gs & outs & Hg & Hrun & Hall).
  exists outs. split; [| by rewrite Hg].
  simpl in *.
  destruct (line_loop max_distance ([], [first]) rest) as [[merged cur]|];
    simpl in *; [exact Hrun | done].
Qed.

(** The union of a group is its only box, or a box around all its boxes;
    its text is the texts of the group joined by spaces. *)
Lemma merge_box_group_spec (g : list TextBox) (o : TextBox) :
  _merge_box_group g = Some o →
  (∀ b, g = [b] → o = b)
  ∧ (∀ b, b ∈ g → rect_contains o b)
  ∧ box_text o = py_join " " (box_text <$> g)
  ∧ box_redaction_type <$> head g = Some (box_redaction_type o).
Proof.
  intros Ho. destruct g as [|b0 rest]; [done |].
  destruct (close_group_spec (b0 :: rest)) as (o' & Ho' & Hone & Hin & _);
    [done |].
  rewrite close_group_merge in Ho'.
  assert (o' = o) as -> by congruence.
  split; [exact Hone |]. split; [exact Hin |].
  destruct rest as [|b1 rest].
  - simpl in Ho. injection Ho as <-. done.
  - destruct (merge_box_group_general b0 (b1 :: rest))
      as (mx & my & Mx & My & _ & _ & _ & _ & Heq).
    rewrite Heq in Ho by done. by injection Ho as <-.
Qed.

Lemma py_join_app (sep : string) (l1 l2 : list string) :
  l1 ≠ [] → l2 ≠ [] →
  py_join sep (l1 ++ l2)
  = String.append (py_join sep l1) (String.append sep (py_join sep l2)).
Proof.
  intros H1 H2. induction l1 as [|x l1 IH]; [done |].
  destruct l1 as [|y l1].
  - destruct l2 as [|z l2]; [done |]. reflexivity.
  - assert (∀ l, py_join sep (x :: y :: l)
                 = String.append x (String.append sep (py_join sep (y :: l))))
      as Hunfold by reflexivity.
    cbn [app] in *. rewrite !Hunfold, IH by done.
    assert (∀ a b c : string,
              String.append (String.append a b) c
              = String.append a (String.append b c)) as Hassoc.
    { intros a b c. induction a as [|ch a IHa]; [done |].
      change (String ch (String.append (String.append a b) c)
              = String ch (String.append a (String.append b c))).
      by rewrite IHa. }
    by rewrite !Hassoc.
Qed.

Lemma py_join_join (sep : string) (ls : list (list string)) :
  Forall (λ l, l ≠ []) ls →
  py_join sep (py_join sep <$> ls) = py_join sep (mjoin ls).
Proof.
  induction ls as [|l ls IH]; intros Hne; [done |].
  apply Forall_cons in Hne as [Hl Hls].
  destruct ls as [|l' ls].
  - simpl. by rewrite app_nil_r.
  - assert (py_join sep (py_join sep <$> l :: l' :: ls)
            = String.append (py_join sep l)
                (String.append sep (py_join sep (py_join sep <$> l' :: ls))))
      as -> by reflexivity.
    rewrite IH by done.
    change (mjoin (l :: l' :: ls)) with (l ++ mjoin (l' :: ls)).
    rewrite py_join_app; [done | done |].
    apply Forall_cons in Hls as [Hl' _].
    destruct l'; [done |]. done.
Qed.

(** The texts of the unions of a family of groups, joined, are the texts
    of the boxes of the groups, joined. *)
Lemma merged_groups_text (groups : list (list TextBox))
    (outs : list TextBox) :
  Forall (λ g, g ≠ []) groups →
  Forall2 (λ grp o, _merge_box_group grp = Some o) groups outs →
  py_join " " (box_text <$> outs) = py_join " " (box_text <$> mjoin groups).
Proof.
  intros Hne Hall.
  assert (box_text <$> outs
          = py_join " " <$> (fmap box_text <$> groups)) as ->.
  { clear Hne. induction Hall as [|grp o groups outs Ho _ IH]; [done |].
    cbn [fmap list_fmap]. f_equal; [| exact IH].
    by destruct (merge_box_group_spec grp o Ho) as (_ & _ & -> & _). }
  rewrite py_join_join.
  - f_equal. clear Hall Hne. induction groups as [|g groups IH]; [done |].
    change (mjoin (fmap box_text <$> g :: groups))
      with ((box_text <$> g) ++ mjoin (fmap box_text <$> groups)).
    change (mjoin (g :: groups)) with (g ++ mjoin groups).
    by rewrite fmap_app, IH.
  - clear Hall. induction Hne as [|g groups Hg _ IH]; constructor; [| done].
    by destruct g.
Qed.

(** What the unions of a partition into non-empty groups keep of the
    boxes: every box is in a group that has a union, and there are no
    more unions than boxes. *)
Lemma groups_cover (groups : list (list TextBox)) (outs boxes : list TextBox) :
  mjoin groups ≡ₚ boxes →
  Forall (λ g, g ≠ []) groups →
  Forall2 (λ grp o, _merge_box_group grp = Some o) groups outs →
  (∀ b, b ∈ boxes →
        ∃ grp o, b ∈ grp ∧ o ∈ outs ∧ _merge_box_group grp = Some o)
  ∧ (length outs ≤ length boxes)%nat
  ∧ (outs = [] ↔ boxes = []).
Proof.
  intros Hperm Hne Hall. split; [| split].
  - intros b Hb. rewrite <- Hperm in Hb.
    apply list_elem_of_join in Hb as (grp & Hb & Hgrp).
    apply list_elem_of_lookup in Hgrp as [i Hi].
    destruct (Forall2_lookup_l _ _ _ _ _ Hall Hi) as (o & Ho & Hmerge).
    exists grp, o. split; [done |]. split; [| done].
    apply list_elem_of_lookup. by exists i.
  - rewrite <- (Permutation_length Hperm), <- (Forall2_length _ _ _ Hall).
    clear Hall Hperm. induction Hne as [|g groups Hg _ IH]; [done |].
    simpl. rewrite length_app. destruct g; [done |]. simpl. lia.
  - split.
    + intros ->. apply Forall2_nil_inv_r in Hall as ->.
      by apply Permutation_nil_l in Hperm.
    + intros ->. apply Permutation_nil_r in Hperm.
      destruct Hall as [|g o groups outs _ _]; [done |].
      apply Forall_cons in Hne as [Hg _]. by destruct g.
Qed.

(** X1. [merge_adjacent_boxes] never raises, whatever the boxes and the
    distance: it returns a list in which every input box lies inside the
    rectangle of some output box, which has no more boxes than the input,
    and which is empty only for an empty input. *)
Theorem merge_adjacent_boxes_covers (boxes : list TextBox) (max_distance : Z) :
  ∃ outs,
    merge_adjacent_boxes boxes max_distance = Some outs
    ∧ (∀ b, b ∈ boxes → ∃ o, o ∈ outs ∧ rect_contains o b)
    ∧ (length outs ≤ length boxes)%nat
    ∧ (outs = [] ↔ boxes = []).
Proof.
  destruct (merge_adjacent_boxes_groups boxes max_distance)
    as (outs & Hrun & Hall).
  exists outs. split; [exact Hrun |].
  destruct (groups_cover _ outs boxes
              ltac:(rewrite group_with_join; apply sorted_by_position_perm)
              (group_with_nonempty _ _) Hall) as (Hcover & Hlen & Hnil).
  split; [| done].
  intros b Hb. destruct (Hcover b Hb) as (grp & o & Hbg & Ho & Hmerge).
  exists o. split; [done |].
  by apply (merge_box_group_spec grp o Hmerge).
Qed.

(** X2. In [merge_adjacent_boxes], two consecutive boxes of the sorted
    input are put side by side in one group exactly when the second is on
    the line of the first ([2 |Δy| < height] of the first) and starts at
    a gap of at least 0 and strictly less than [max_distance] after it;
    otherwise one group ends with the first and the next starts with the
    second. With a [max_distance] of 0 or less nothing is merged and the
    result is the sorted input. *)
Theorem merge_adjacent_boxes_rule (boxes : list TextBox) (max_distance : Z) :
  (∀ l1 a b l2,
     sorted_by_position boxes = l1 ++ a :: b :: l2 →
     ∃ outs,
       merge_adjacent_boxes boxes max_distance = Some outs
       ∧ Forall2 (λ grp o, _merge_box_group grp = Some o)
                 (group_with (on_same_line max_distance)
                    (l1 ++ a :: b :: l2)) outs
       ∧ if decide (2 * Z.abs (box_y b - box_y a) < box_height a
                    ∧ 0 <= gap a b < max_distance)
         then ∃ G g1 g2 G',
                group_with (on_same_line max_distance) (l1 ++ a :: b :: l2)
                = G ++ (g1 ++ a :: b :: g2) :: G'
         else group_with (on_same_line max_distance) (l1 ++ a :: b :: l2)
              = group_with (on_same_line max_distance) (l1 ++ [a])
                ++ group_with (on_same_line max_distance) (b :: l2))
  ∧ (max_distance <= 0 →
     merge_adjacent_boxes boxes max_distance
     = Some (sorted_by_position boxes)).
Proof.
  destruct (merge_adjacent_boxes_groups boxes max_distance)
    as (outs & Hrun & Hall).
  assert (∀ a b, on_same_line max_distance a b = true
                 ↔ 2 * Z.abs (box_y b - box_y a) < box_height a
                   ∧ 0 <= gap a b < max_distance) as Hiff.
  { intros a b. unfold on_same_line, gap.
    rewrite !andb_true_iff, Z.ltb_lt, Z.leb_le, Z.ltb_lt. tauto. }
  split.
  - intros l1 a b l2 Hsorted. rewrite Hsorted in Hall.
    exists outs. split; [exact Hrun |]. split; [exact Hall |].
    destruct (decide _) as [Hyes | Hno].
    + apply group_with_glue. by apply Hiff.
    + apply group_with_split.
      destruct (on_same_line max_distance a b) eqn:Hc; [| done].
      by destruct Hno; apply Hiff.
  - intros Hmax. rewrite Hrun. f_equal.
    rewrite group_with_never in Hall.
    2: { intros a b. destruct (on_same_line max_distance a b) eqn:Hc; [| done].
         apply Hiff in Hc. lia. }
    clear Hrun. revert outs Hall.
    induction (sorted_by_position boxes) as [|b l IH]; intros outs Hall.
    + by apply Forall2_nil_inv_l in Hall.
    + apply Forall2_cons_inv_l in Hall as (o & outs' & Ho & Hall & ->).
      simpl in Ho. injection Ho as <-. f_equal. by apply IH.
Qed.

(** X3. Neither merge loses, repeats or reorders text: the texts of the
    boxes that [merge_adjacent_boxes] and [_merge_adjacent_sensitive_boxes]
    return, joined by spaces, are the texts of the input boxes in sorted
    order, joined by spaces. *)
Theorem merges_keep_text (boxes : list TextBox) (max_distance : Z) :
  (∃ outs,
     merge_adjacent_boxes boxes max_distance = Some outs
     ∧ py_join " " (box_text <$> outs)
       = py_join " " (box_text <$> sorted_by_position boxes))
  ∧ (∃ outs,
       _merge_adjacent_sensitive_boxes boxes = Some outs
       ∧ py_join " " (box_text <$> outs)
         = py_join " " (box_text <$> sorted_by_position boxes)).
Proof.
  split.
  - destruct (merge_adjacent_boxes_groups boxes max_distance)
      as (outs & Hrun & Hall).
    exists outs. split; [exact Hrun |].
    rewrite (merged_groups_text _ _ (group_with_nonempty _ _) Hall).
    by rewrite group_with_join.
  - destruct (merge_adjacent_groups boxes) as (outs & Hrun & Hall).
    exists outs. split; [exact Hrun |].
    rewrite group_adjacent_with in Hall.
    eapply Forall2_impl in Hall.
    2: { intros grp o Ho. rewrite close_group_merge in Ho. exact Ho. }
    rewrite (merged_groups_text _ _ (group_with_nonempty _ _) Hall).
    by rewrite group_with_join.
Qed.

(** ** The merge of classified boxes *)

(** The boxes of a group of the merge have one category. *)
Lemma chained_close_together_types (g : list TextBox) (b0 : TextBox) :
  head g = Some b0 →
  chained close_together g →
  ∀ b, b ∈ g → box_redaction_type b = box_redaction_type b0.
Proof.
  revert b0. induction g as [|a r IH]; intros b0 Hhead Hchain b Hb; [done |].
  injection Hhead as ->.
  apply elem_of_cons in Hb as [-> | Hb]; [done |].
  simpl in Hchain. destruct (head r) as [c|] eqn:Hc.
  - destruct Hchain as [Hclose Hchain].
    rewrite (IH c eq_refl Hchain b Hb).
    unfold close_together in Hclose.
    apply andb_true_iff in Hclose as [_ Hty].
    by apply bool_decide_eq_true in Hty.
  - destruct r; [by apply elem_of_nil in Hb | done].
Qed.

(** Every input box of the merge is inside an output box of its own
    category. *)
Lemma merge_adjacent_sensitive_cover (boxes : list TextBox) :
  ∃ outs,
    _merge_adjacent_sensitive_boxes boxes = Some outs
    ∧ (∀ b, b ∈ boxes →
         ∃ o, o ∈ outs
              ∧ rect_contains o b
              ∧ box_redaction_type o = box_redaction_type b)
    ∧ (length outs ≤ length boxes)%nat
    ∧ (outs = [] ↔ boxes = []).
Proof.
  destruct (merge_adjacent_groups boxes) as (outs & Hrun & Hall).
  exists outs. split; [exact Hrun |].
  rewrite group_adjacent_with in Hall.
  pose proof (group_with_chained close_together (sorted_by_position boxes))
    as Hchain.
  assert (Forall2 (λ grp o, _merge_box_group grp = Some o
                            ∧ chained close_together grp)
            (group_with close_together (sorted_by_position boxes)) outs)
    as Hall'.
  { clear Hrun. revert Hall Hchain.
    generalize (group_with close_together (sorted_by_position boxes)).
    intros groups Hall Hchain.
    induction Hall as [|grp o groups' outs' Ho _ IH]; [constructor |].
    apply Forall_cons in Hchain as [Hg Hgs].
    constructor; [| by apply IH].
    split; [by rewrite <- close_group_merge | done]. }
  eapply Forall2_impl in Hall.
  2: { intros grp o Ho. rewrite close_group_merge in Ho. exact Ho. }
  destruct (groups_cover _ outs boxes
              ltac:(rewrite group_with_join; apply sorted_by_position_perm)
              (group_with_nonempty _ _) Hall) as (Hcover & Hlen & Hnil).
  split; [| done].
  intros b Hb. rewrite <- (sorted_by_position_perm boxes) in Hb.
  rewrite <- (group_with_join close_together) in Hb.
  apply list_elem_of_join in Hb as (grp & Hb & Hgrp).
  apply list_elem_of_lookup in Hgrp as [i Hi].
  destruct (Forall2_lookup_l _ _ _ _ _ Hall' Hi) as (o & Ho & Hmerge & Hch).
  exists o. split; [apply list_elem_of_lookup; by exists i |].
  destruct (merge_box_group_spec grp o Hmerge) as (_ & Hin & _ & Hty).
  split; [by apply Hin |].
  destruct grp as [|b0 rest]; [by apply elem_of_nil in Hb |].
  simpl in Hty. injection Hty as Hty.
  rewrite <- Hty. symmetry.
  by apply (chained_close_together_types (b0 :: rest) b0).
Qed.

(** X4. [_merge_adjacent_sensitive_boxes] keeps every box under its own
    category: every input box lies inside the rectangle of an output box
    that carries the same category (so a merged box never covers a box of
    another category as one of its members), the output has no more boxes
    than the input, and it is empty only for an empty input. *)
Theorem merge_adjacent_sensitive_covers (boxes : list TextBox) :
  ∃ outs,
    _merge_adjacent_sensitive_boxes boxes = Some outs
    ∧ (∀ b, b ∈ boxes →
         ∃ o, o ∈ outs
              ∧ rect_contains o b
              ∧ box_redaction_type o = box_redaction_type b)
    ∧ (length outs ≤ length boxes)%nat
    ∧ (outs = [] ↔ boxes = []).
Proof. apply merge_adjacent_sensitive_cover. Qed.

(** ** Stripping *)

Lemma py_lstrip_head (s : string) :
  py_lstrip s = ""
  ∨ ∃ c r, py_lstrip s = String c r ∧ py_isspace c = false.
Proof.
  induction s as [|c r IH]; [by left |].
  simpl. destruct (py_isspace c) eqn:Hc; [exact IH |].
  right. by exists c, r.
Qed.

Lemma py_rstrip_head (c : ascii) (r : string) :
  py_isspace c = false → ∃ r', py_rstrip (String c r) = String c r'.
Proof.
  intros Hc. simpl. destruct (py_rstrip r); [| by eexists].
  rewrite Hc. by eexists.
Qed.

Lemma py_rstrip_idemp (s : string) : py_rstrip (py_rstrip s) = py_rstrip s.
Proof.
  induction s as [|c r IH]; [done |].
  simpl. destruct (py_rstrip r) as [|d t] eqn:Ht.
  - destruct (py_isspace c) eqn:Hc; [done |]. simpl. by rewrite Hc.
  - change (py_rstrip (String c (String d t))) with
      (match py_rstrip (String d t) with
       | EmptyString =>
           if py_isspace c then EmptyString else String c EmptyString
       | r' => String c r'
       end).
    by rewrite IH.
Qed.

(** Stripping twice is stripping once: a stripped text has no white space
    at either end. *)
Lemma py_strip_idemp (s : string) : py_strip (py_strip s) = py_strip s.
Proof.
  unfold py_strip.
  destruct (py_lstrip_head s) as [-> | (c & r & -> & Hc)]; [done |].
  destruct (py_rstrip_head c r Hc) as [r' Hr'].
  rewrite Hr'. simpl py_lstrip. rewrite Hc. rewrite <- Hr'.
  apply py_rstrip_idemp.
Qed.

(** ** The boxes read from the OCR answer *)

(** X5. [extract_text_with_boxes] sends exactly one request, the OCR
    request for the image, touches no image object and never raises; each
    box it returns has a text that is not empty and has no white space at
    either end, and carries no category; and what it returns does not
    depend on the state it is given. *)
Theorem extract_text_with_boxes_boxes (remote : Remote) (image_b64 : string)
    (state : option State) (env : Env) :
  ∃ text_boxes,
    extract_text_with_boxes remote image_b64 state env
    = (Some text_boxes,
       mkEnv (images env) (requests env ++ [OcrRequest image_b64]))
    ∧ Forall (λ b, box_text b ≠ ""
                   ∧ py_strip (box_text b) = box_text b
                   ∧ box_redaction_type b = None
                   ∧ box_indices b = None) text_boxes
    ∧ (∀ state' env',
         (extract_text_with_boxes remote image_b64 state' env').1
         = Some text_boxes).
Proof.
  destruct env as [imgs reqs]. rewrite extract_text_with_boxes_run.
  eexists. split; [reflexivity |]. split.
  - destruct (ocr_space remote image_b64) as [| | | |[] parsed];
      try constructor.
    apply Forall_forall. intros b Hb.
    apply list_elem_of_bind in Hb as (words & Hb & _).
    apply list_elem_of_bind in Hb as (word & Hb & _).
    unfold word_box in Hb.
    destruct (py_truthy (py_strip (default "" (WordText word)))) eqn:Ht;
      [| by apply elem_of_nil in Hb].
    apply list_elem_of_singleton in Hb as ->. simpl.
    split; [| by rewrite py_strip_idemp].
    intros Hempty. by rewrite Hempty in Ht.
  - intros state' [imgs' reqs']. by rewrite extract_text_with_boxes_run.
Qed.

(** ** Classification *)

(** The [index: text] lines of the classification request. *)
Lemma identify_sensitive_text_with_ai_exact (remote : Remote)
    (text_boxes : list TextBox) (state : option State)
    (imgs : gmap nat Image) (reqs : list Request) :
  identify_sensitive_text_with_ai remote text_boxes state (mkEnv imgs reqs) =
  if decide (text_boxes = [] ∨ enabled_types state = [])
  then (Some ∅, mkEnv imgs reqs)
  else
    (Some match groq_classify remote (enabled_types state)
                  (imap (λ i box, (i, box_text box)) text_boxes) with
          | ClassifyRaises => ∅
          | ClassifyMap items =>
              if decide (report_raises text_boxes items) then ∅
              else list_to_map items
          end,
     mkEnv imgs
       (reqs ++ [ClassifyRequest (enabled_types state)
                   (imap (λ i box, (i, box_text box)) text_boxes)])).
Proof.
  unfold identify_sensitive_text_with_ai.
  destruct (decide (text_boxes = [])) as [Hnil | Hcons].
  { by rewrite decide_True by (by left). }
  destruct (decide (enabled_types state = [])) as [Hoff | Hon].
  { by rewrite decide_True by (by right). }
  rewrite decide_False by (by intros [? | ?]).
  destruct state as [st|]; [| done].
  rewrite try_except_run, bind_run. unfold send at 1. cbn [images requests].
  destruct (groq_classify remote _ _) as [|items]; [done |].
  rewrite bind_run, report_first_items_run.
  by destruct (decide (report_raises text_boxes items)).
Qed.

Lemma find_sensitive_boxes_exact (remote : Remote) (text_boxes : list TextBox)
    (state : option State) (env env' : Env) (m : gmap Z string) :
  identify_sensitive_text_with_ai remote text_boxes state env = (Some m, env') →
  find_sensitive_boxes remote text_boxes state env
  = (_merge_adjacent_sensitive_boxes
       (mjoin (imap (sensitive_entry m (type_to_enabled state)) text_boxes)),
     env').
Proof.
  intros Hid. unfold find_sensitive_boxes. by rewrite bind_run, Hid.
Qed.

(** The entries of [sensitive_boxes], from the text boxes to the list. *)
Lemma sensitive_entries_intro (sensitivity_map : gmap Z string)
    (enabled : gmap string bool) (text_boxes : list TextBox)
    (idx : nat) (box : TextBox) (redaction_type : string) :
  text_boxes !! idx = Some box →
  sensitivity_map !! Z.of_nat idx = Some redaction_type →
  default true (enabled !! redaction_type) = true →
  with_redaction_type box redaction_type
  ∈ mjoin (imap (sensitive_entry sensitivity_map enabled) text_boxes).
Proof.
  intros Hbox Hrt Hen. apply list_elem_of_join.
  exists [with_redaction_type box redaction_type]. split; [left |].
  apply list_elem_of_lookup. exists idx.
  rewrite list_lookup_imap, Hbox. simpl.
  unfold sensitive_entry. by rewrite Hrt, Hen.
Qed.

(** X6. When the classifier answers with a map, [find_sensitive_boxes]
    redacts what the map flags and nothing else, unless the report of the
    first five items raises. If one of the first five keys of the answer
    lies below [-len(text_boxes)], the subscript of the report raises and
    nothing at all is redacted. Otherwise every text box whose index the
    map gives a category that is not switched off lies inside the
    rectangle of a returned box of that category, and every returned box
    carries the category that the map gives to the index of a text box
    lying inside it. Keys of the map that are not the index of a text
    box, negative ones included, flag nothing. *)
Theorem find_sensitive_boxes_follows_map (remote : Remote)
    (text_boxes : list TextBox) (state : option State) (env : Env)
    (items : list (Z * string)) :
  text_boxes ≠ [] →
  enabled_types state ≠ [] →
  groq_classify remote (enabled_types state)
    (imap (λ i box, (i, box_text box)) text_boxes)
  = ClassifyMap items →
  ∃ sensitive_boxes env',
    find_sensitive_boxes remote text_boxes state env
    = (Some sensitive_boxes, env')
    ∧ (report_raises text_boxes items → sensitive_boxes = [])
    ∧ (¬ report_raises text_boxes items →
       (∀ (idx : nat) box redaction_type,
          text_boxes !! idx = Some box →
          (list_to_map items : gmap Z string) !! Z.of_nat idx
          = Some redaction_type →
          default true (type_to_enabled state !! redaction_type) = true →
          ∃ o, o ∈ sensitive_boxes
               ∧ rect_contains o box
               ∧ box_redaction_type o = Some redaction_type)
       ∧ (∀ o, o ∈ sensitive_boxes →
            ∃ (idx : nat) box redaction_type,
              text_boxes !! idx = Some box
              ∧ (list_to_map items : gmap Z string) !! Z.of_nat idx
                = Some redaction_type
              ∧ default true (type_to_enabled state !! redaction_type) = true
              ∧ rect_contains o box
              ∧ box_redaction_type o = Some redaction_type)).
Proof.
  intros Hboxes Hon Hmap. destruct env as [imgs reqs].
  pose proof (identify_sensitive_text_with_ai_exact remote text_boxes state
                imgs reqs) as Hid.
  rewrite decide_False in Hid by (by intros [? | ?]).
  rewrite Hmap in Hid.
  rewrite (find_sensitive_boxes_exact _ _ _ _ _ _ Hid).
  destruct (decide (report_raises text_boxes items)) as [Hraises | Hreads].
  { exists []. eexists. split; [| split; [done | done]].
    assert (mjoin (imap (sensitive_entry ∅ (type_to_enabled state))
                     text_boxes) = []) as ->; [| done].
    destruct (mjoin _) as [|b entries'] eqn:Hentries; [done |].
    assert (b ∈ mjoin (imap (sensitive_entry ∅ (type_to_enabled state))
                         text_boxes)) as Hb by (rewrite Hentries; left).
    apply sensitive_entries_spec in Hb as (idx & box & rt & _ & Hrt & _).
    by rewrite lookup_empty in Hrt. }
  set (entries := mjoin (imap (sensitive_entry (list_to_map items)
                                 (type_to_enabled state)) text_boxes)).
  destruct (merge_adjacent_sensitive_cover entries)
    as (outs & Hrun & Hcover & _).
  exists outs. eexists. split; [by rewrite Hrun |].
  split; [done |]. intros _. split.
  - intros idx box rt Hbox Hrt Hen.
    destruct (Hcover (with_redaction_type box rt)) as (o & Ho & Hin & Hty).
    { by apply (sensitive_entries_intro _ _ _ idx). }
    exists o. split; [done |]. split; [exact Hin | exact Hty].
  - intros o Ho.
    destruct (merge_adjacent_groups entries) as (outs' & Hrun' & Hall).
    assert (outs' = outs) as -> by congruence.
    apply list_elem_of_lookup in Ho as [i Ho].
    destruct (Forall2_lookup_r _ _ _ _ _ Hall Ho) as (grp & Hgrp & Hclose).
    pose proof (group_adjacent_nonempty (sorted_by_position entries)) as Hne.
    rewrite Forall_forall in Hne.
    assert (grp ∈ group_adjacent (sorted_by_position entries)) as Hin.
    { apply list_elem_of_lookup. by exists i. }
    specialize (Hne grp Hin). destruct grp as [|b0 rest]; [done |].
    rewrite close_group_merge in Hclose.
    destruct (merge_box_group_spec _ _ Hclose) as (_ & Hcont & _ & Hty).
    assert (b0 ∈ entries) as Hb0.
    { rewrite <- (sorted_by_position_perm entries), <- group_adjacent_join.
      apply list_elem_of_join. exists (b0 :: rest). split; [left | done]. }
    apply sensitive_entries_spec in Hb0 as (idx & box & rt & Hbox & Hrt & Hen & ->).
    exists idx, box, rt.
    split; [done |]. split; [done |]. split; [done |]. split.
    + apply (Hcont (with_redaction_type box rt)). left.
    + simpl in Hty. by injection Hty as <-.
Qed.

(** ** The image pipeline, step by step *)

Lemma extract_text_with_boxes_reads (remote : Remote) (image_b64 : string)
    (state : option State) (imgs : gmap nat Image) (reqs : list Request) :
  extract_text_with_boxes remote image_b64 state (mkEnv imgs reqs) =
  (Some (ocr_text_boxes (ocr_space remote image_b64)),
   mkEnv imgs (reqs ++ [OcrRequest image_b64])).
Proof. apply extract_text_with_boxes_run. Qed.

Lemma find_sensitive_boxes_flags (remote : Remote) (text_boxes : list TextBox)
    (state : option State) (imgs : gmap nat Image) (reqs : list Request) :
  find_sensitive_boxes remote text_boxes state (mkEnv imgs reqs) =
  (_merge_adjacent_sensitive_boxes (flagged_boxes remote state text_boxes),
   mkEnv imgs (reqs ++ classify_requests state text_boxes)).
Proof.
  pose proof (identify_sensitive_text_with_ai_exact remote text_boxes state
                imgs reqs) as Hid.
  unfold flagged_boxes, classified, classify_requests, text_lines.
  destruct (decide (text_boxes = [] ∨ enabled_types state = [])).
  - rewrite (find_sensitive_boxes_exact _ _ _ _ _ _ Hid).
    by rewrite app_nil_r.
  - by rewrite (find_sensitive_boxes_exact _ _ _ _ _ _ Hid).
Qed.

(** The pipeline, for every input: what it returns, what it sends and
    what it leaves alone. *)
Lemma redact_image_from_base64_run (remote : Remote) (pil : Pillow)
    (image_b64 : string) (state : option State)
    (imgs : gmap nat Image) (reqs : list Request) :
  ∃ out imgs',
    redact_image_from_base64 remote pil image_b64 state (mkEnv imgs reqs)
    = (Some out,
       mkEnv imgs' (reqs ++ pipeline_requests remote pil image_b64 state))
    ∧ (∀ l, l ∈ dom imgs → imgs' !! l = imgs !! l)
    ∧ (image_open_b64 pil image_b64 = None → out = image_b64 ∧ imgs' = imgs)
    ∧ (∀ sb,
         _merge_adjacent_sensitive_boxes
           (flagged_boxes remote state
              (ocr_text_boxes (ocr_space remote image_b64))) = Some sb →
         sb = [] → out = image_b64)
    ∧ (out = image_b64
       ∨ ∃ opened drawn,
           image_open_b64 pil image_b64 = Some opened
           ∧ out = save_png_b64 pil drawn
           ∧ im_mode drawn = "RGB"
           ∧ (label_keeps_shape pil →
              same_shape (im_rows opened) (im_rows drawn)))
    ∧ (∀ opened sb,
         image_open_b64 pil image_b64 = Some opened →
         _merge_adjacent_sensitive_boxes
           (flagged_boxes remote state
              (ocr_text_boxes (ocr_space remote image_b64))) = Some sb →
         sb ≠ [] →
         ∃ image src env_d,
           images env_d !! image = Some src
           ∧ im_rows src = im_rows opened
           ∧ match draw_redaction_boxes pil image sb true state env_d with
             | (Some img_copy, env_d') =>
                 ∃ drawn, images env_d' !! img_copy = Some drawn
                          ∧ out = save_png_b64 pil drawn
             | (None, _) => out = image_b64
             end).
Proof.
  unfold redact_image_from_base64, pipeline_requests.
  rewrite try_except_run, bind_run. unfold of_option.
  destruct (image_open_b64 pil image_b64) as [opened|] eqn:Hopen.
  2: { exists image_b64, imgs. rewrite app_nil_r.
       split; [done |]. split; [done |]. split; [done |].
       split; [done |]. split; [by left | done]. }
  rewrite bind_run. unfold new_image at 1. cbn [images requests].
  match goal with
  | |- context [mbind ?k (if decide (im_mode opened ≠ "RGB") then _ else _)] =>
      set (K := k)
  end.
  set (tb := ocr_text_boxes (ocr_space remote image_b64)).
  assert (∀ image imgs1 img0,
            imgs1 !! image = Some img0 →
            im_rows img0 = im_rows opened →
            im_mode img0 = "RGB" →
            ∃ r imgs',
              K image (mkEnv imgs1 reqs)
              = (r, mkEnv imgs'
                      (reqs ++ OcrRequest image_b64
                              :: classify_requests state tb))
              ∧ (∀ l, l ∈ dom imgs1 → imgs' !! l = imgs1 !! l)
              ∧ (∀ sb,
                   _merge_adjacent_sensitive_boxes
                     (flagged_boxes remote state tb) = Some sb →
                   sb = [] → r = Some image_b64)
              ∧ (r = None ∨ r = Some image_b64
                 ∨ ∃ drawn,
                     r = Some (save_png_b64 pil drawn)
                     ∧ im_mode drawn = "RGB"
                     ∧ (label_keeps_shape pil →
                        same_shape (im_rows opened) (im_rows drawn)))
              ∧ (∀ sb,
                   _merge_adjacent_sensitive_boxes
                     (flagged_boxes remote state tb) = Some sb →
                   sb ≠ [] →
                   ∃ env_d,
                     images env_d !! image = Some img0
                     ∧ match draw_redaction_boxes pil image sb true state
                               env_d with
                       | (Some img_copy, env_d') =>
                           ∃ drawn, images env_d' !! img_copy = Some drawn
                                    ∧ r = Some (save_png_b64 pil drawn)
                       | (None, _) => r = None
                       end))
    as HK.
  { intros image imgs1 img0 Himg Hrows Hmode. subst K. cbv beta.
    rewrite bind_run, extract_text_with_boxes_reads. fold tb.
    destruct (decide (tb = [])) as [Htb | Htb].
    { exists (Some image_b64), imgs1. unfold classify_requests.
      rewrite decide_True by (by left).
      split; [done |]. split; [done |]. split; [done |].
      split; [right; by left |].
      intros sb Hsb Hne. exfalso. apply Hne.
      assert (flagged_boxes remote state tb = []) as Hflag
        by (by unfold flagged_boxes; rewrite Htb).
      rewrite Hflag in Hsb. by injection Hsb as <-. }
    rewrite bind_run, find_sensitive_boxes_flags.
    destruct (merge_adjacent_groups (flagged_boxes remote state tb))
      as (sb & Hsb & _).
    rewrite Hsb. unfold of_option. rewrite <- app_assoc. cbn [app].
    destruct (decide (sb = [])) as [Hnil | Hcons].
    { exists (Some image_b64), imgs1.
      split; [done |]. split; [done |]. split; [done |].
      split; [right; by left |].
      intros sb' Hsb' Hne. congruence. }
    rewrite bind_run.
    destruct (draw_redaction_boxes_run pil image sb true state imgs1
                (reqs ++ OcrRequest image_b64 :: classify_requests state tb)
                img0 Himg)
      as (r & drawn & Hdraw & Hne & Hdmode & _ & Hshape).
    rewrite Hdraw.
    assert (∀ l, l ∈ dom imgs1 →
                 <[fresh (dom imgs1) := drawn]> imgs1 !! l = imgs1 !! l)
      as Hkeep.
    { intros l Hl. rewrite lookup_insert_ne; [done |].
      intros <-. by apply (is_fresh (dom imgs1)). }
    destruct r as [[]|].
    - rewrite bind_run. unfold read_image. cbn [images].
      rewrite lookup_insert_eq. unfold mret, Py_ret.
      eexists _, _. split; [reflexivity |]. split; [exact Hkeep |].
      split; [intros sb' Hsb' ->; congruence |].
      split.
      + right. right. exists drawn. split; [done |].
        split; [by rewrite Hdmode |].
        intros Hpil. rewrite <- Hrows. by apply Hshape.
      + intros sb' Hsb' _. assert (sb' = sb) as -> by congruence.
        exists (mkEnv imgs1
                  (reqs ++ OcrRequest image_b64
                          :: classify_requests state tb)).
        split; [exact Himg |]. rewrite Hdraw.
        exists drawn. cbn [images]. by rewrite lookup_insert_eq.
    - eexists _, _. split; [reflexivity |]. split; [exact Hkeep |].
      split; [intros sb' Hsb' ->; congruence |].
      split; [by left |].
      intros sb' Hsb' _. assert (sb' = sb) as -> by congruence.
      exists (mkEnv imgs1
                (reqs ++ OcrRequest image_b64
                        :: classify_requests state tb)).
      split; [exact Himg |]. by rewrite Hdraw. }
  assert (∀ image imgs1 img0,
            imgs1 !! image = Some img0 →
            im_rows img0 = im_rows opened →
            im_mode img0 = "RGB" →
            (∀ l, l ∈ dom imgs → imgs1 !! l = imgs !! l) →
            dom imgs ⊆ dom imgs1 →
            ∃ out imgs',
              match K image (mkEnv imgs1 reqs) with
              | (Some a, s') => (Some a, s')
              | (None, s') => (mret image_b64 : Py Env string) s'
              end
              = (Some out,
                 mkEnv imgs'
                   (reqs ++ OcrRequest image_b64
                           :: classify_requests state tb))
              ∧ (∀ l, l ∈ dom imgs → imgs' !! l = imgs !! l)
              ∧ (Some opened = None → out = image_b64 ∧ imgs' = imgs)
              ∧ (∀ sb,
                   _merge_adjacent_sensitive_boxes
                     (flagged_boxes remote state tb) = Some sb →
                   sb = [] → out = image_b64)
              ∧ (out = image_b64
                 ∨ ∃ opened' drawn,
                     Some opened = Some opened'
                     ∧ out = save_png_b64 pil drawn
                     ∧ im_mode drawn = "RGB"
                     ∧ (label_keeps_shape pil →
                        same_shape (im_rows opened') (im_rows drawn)))
              ∧ (∀ opened' sb,
                   Some opened = Some opened' →
                   _merge_adjacent_sensitive_boxes
                     (flagged_boxes remote state tb) = Some sb →
                   sb ≠ [] →
                   ∃ image src env_d,
                     images env_d !! image = Some src
                     ∧ im_rows src = im_rows opened'
                     ∧ match draw_redaction_boxes pil image sb true state
                               env_d with
                       | (Some img_copy, env_d') =>
                           ∃ drawn, images env_d' !! img_copy = Some drawn
                                    ∧ out = save_png_b64 pil drawn
                       | (None, _) => out = image_b64
                       end))
    as HK'.
  { intros image imgs1 img0 Himg Hrows Hmode Hold Hdom.
    destruct (HK image imgs1 img0 Himg Hrows Hmode)
      as (r & imgs' & -> & Hkeep & Hnil & Hout & Hdrawn).
    assert (∀ out opened' sb,
              (r = Some out ∨ r = None ∧ out = image_b64) →
              Some opened = Some opened' →
              _merge_adjacent_sensitive_boxes
                (flagged_boxes remote state tb) = Some sb →
              sb ≠ [] →
              ∃ image src env_d,
                images env_d !! image = Some src
                ∧ im_rows src = im_rows opened'
                ∧ match draw_redaction_boxes pil image sb true state
                          env_d with
                  | (Some img_copy, env_d') =>
                      ∃ drawn, images env_d' !! img_copy = Some drawn
                               ∧ out = save_png_b64 pil drawn
                  | (None, _) => out = image_b64
                  end) as Hdrawn'.
    { intros out opened' sb Hr [= <-] Hsb Hne.
      destruct (Hdrawn sb Hsb Hne) as (env_d & Hsrc & Hmatch).
      exists image, img0, env_d. split; [exact Hsrc |]. split; [exact Hrows |].
      destruct (draw_redaction_boxes pil image sb true state env_d)
        as [[img_copy|] env_d'].
      - destruct Hmatch as (drawn & Hd & Hr').
        exists drawn. split; [exact Hd |].
        destruct Hr as [Hr | [Hr _]]; congruence.
      - destruct Hr as [Hr | [_ ?]]; [congruence | done]. }
    assert (∀ l, l ∈ dom imgs → imgs' !! l = imgs !! l) as Hkeep'.
    { intros l Hl. rewrite Hkeep by (by apply Hdom). by apply Hold. }
    destruct r as [out|].
    - exists out, imgs'. split; [done |]. split; [exact Hkeep' |].
      split; [done |]. split.
      { intros sb Hsb Hsbnil. specialize (Hnil sb Hsb Hsbnil). congruence. }
      split.
      + destruct Hout as [? | [[= ->] | (drawn & [= ->] & Hm & Hs)]];
          [done | by left |].
        right. by exists opened, drawn.
      + intros opened' sb. apply Hdrawn'. by left.
    - exists image_b64, imgs'. split; [done |]. split; [exact Hkeep' |].
      split; [done |]. split; [done |]. split; [by left |].
      intros opened' sb. apply Hdrawn'. by right. }
  assert (∀ l, l ∈ dom imgs →
               <[fresh (dom imgs) := opened]> imgs !! l = imgs !! l) as Hold0.
  { intros l Hl. rewrite lookup_insert_ne; [done |].
    intros <-. by apply (is_fresh (dom imgs)). }
  rewrite bind_run.
  destruct (decide (im_mode opened ≠ "RGB")) as [Hmode | Hmode].
  - unfold new_image at 1. cbn [images requests].
    set (imgs1 := <[fresh (dom imgs) := opened]> imgs) in *.
    eapply (HK' _ _ (converted "RGB" opened));
      [apply lookup_insert_eq | done | done | |].
    + intros l Hl. rewrite lookup_insert_ne; [by apply Hold0 |].
      intros <-. apply (is_fresh (dom imgs1)).
      apply elem_of_dom. rewrite Hold0 by done. by apply elem_of_dom.
    + rewrite dom_insert_L. subst imgs1. rewrite dom_insert_L.
      intros l Hl. by do 2 apply elem_of_union_r.
  - unfold mret at 1, Py_ret at 1.
    eapply (HK' _ _ opened); [apply lookup_insert_eq | done | | done |].
    + by destruct (decide (im_mode opened = "RGB")) as [? | Hn];
        [| destruct Hmode].
    + rewrite dom_insert_L. intros l Hl. by apply elem_of_union_r.
Qed.

(** ** C8: size and format of the result *)

(** The drawing loop does not raise on boxes of the data model. *)
Lemma draw_loop_in_range (pil : Pillow) (labels : gmap string string)
    (show_labels : bool) (l : nat) (boxes : list TextBox) :
  Forall box_in_range boxes →
  ∀ imgs reqs cur,
    imgs !! l = Some cur →
    (for_each boxes (draw_box pil labels show_labels l) (mkEnv imgs reqs)).1
    = Some ().
Proof.
  intros Hrange.
  induction boxes as [|box boxes IH]; intros imgs reqs cur Hcur; [done |].
  apply Forall_cons in Hrange as [(Hx & Hy & Hw & Hh) Hrange].
  cbn [for_each]. rewrite bind_run.
  rewrite (draw_box_run _ _ _ _ _ _ _ cur Hcur).
  destruct (fill_rectangle_ok (im_rows cur)
              (Z.max 0 (box_x box - 2)) (Z.max 0 (box_y box - 2))
              (box_x box + box_width box + 2)
              (box_y box + box_height box + 2) (0, 0, 0))
    as (rows' & Hfill & _); [lia | lia |].
  change (Z.max 0 (box_x box - 2), Z.max 0 (box_y box - 2),
          box_x box + box_width box + 2, box_y box + box_height box + 2)
    with (redaction_rectangle box) in Hfill.
  rewrite Hfill. eapply (IH Hrange). apply lookup_insert_eq.
Qed.

Lemma draw_redaction_boxes_in_range (pil : Pillow) (image : nat)
    (sensitive_boxes : list TextBox) (show_labels : bool)
    (state : option State) (env : Env) (original : Image) :
  images env !! image = Some original →
  Forall box_in_range sensitive_boxes →
  (draw_redaction_boxes pil image sensitive_boxes show_labels state env).1
  ≠ None.
Proof.
  intros Himage Hrange. destruct env as [imgs reqs]. cbn [images] in Himage.
  unfold draw_redaction_boxes.
  rewrite bind_run. unfold read_image at 1. cbn [images]. rewrite Himage.
  rewrite bind_run. unfold new_image at 1. cbn [images requests].
  rewrite bind_run.
  pose proof (draw_loop_in_range pil (labels_of state) show_labels
                (fresh (dom imgs)) sensitive_boxes Hrange
                (<[fresh (dom imgs) := copy_of original]> imgs) reqs
                (copy_of original) (lookup_insert_eq _ _ _)) as Hloop.
  destruct (for_each _ _ _) as [r env2]. cbn [fst] in Hloop. by subst r.
Qed.

(** C8 (amended). For every input that Pillow can open,
    [redact_image_from_base64] returns a string: the input string itself
    when no sensitive box is found, so that size and format are those of
    the input; and, when sensitive boxes are found, the PNG encoding of
    the image that [draw_redaction_boxes] makes of the input with these
    boxes, which has the pixel dimensions of the input whatever the
    format of the input was (or again the input string, if the drawing
    raises, which it does not for boxes without negative coordinates or
    sizes). In every case the result is the input string or a PNG image
    of the same dimensions. *)
Theorem redact_image_keeps_size_saves_png (remote : Remote) (pil : Pillow)
    (image_b64 : string) (state : option State) (env : Env) (input : Image) :
  label_keeps_shape pil →
  png_reopens pil →
  image_open_b64 pil image_b64 = Some input →
  ∃ out env',
    redact_image_from_base64 remote pil image_b64 state env = (Some out, env')
    ∧ (out = image_b64
       ∨ ∃ reopened,
           image_open_b64 pil out = Some reopened
           ∧ im_format reopened = Some "PNG"
           ∧ im_size reopened = im_size input)
    ∧ ∀ text_boxes sensitive_boxes env1 env2,
        (extract_text_with_boxes remote image_b64 state env1).1
        = Some text_boxes →
        (find_sensitive_boxes remote text_boxes state env2).1
        = Some sensitive_boxes →
        (sensitive_boxes = [] → out = image_b64)
        ∧ (sensitive_boxes ≠ [] →
           ∃ image src env_d,
             images env_d !! image = Some src
             ∧ im_rows src = im_rows input
             ∧ match draw_redaction_boxes pil image sensitive_boxes true
                       state env_d with
               | (Some img_copy, env_d') =>
                   ∃ drawn reopened,
                     images env_d' !! img_copy = Some drawn
                     ∧ out = save_png_b64 pil drawn
                     ∧ image_open_b64 pil out = Some reopened
                     ∧ im_format reopened = Some "PNG"
                     ∧ im_size reopened = im_size input
               | (None, _) => out = image_b64
               end)
        ∧ (sensitive_boxes ≠ [] →
           Forall box_in_range sensitive_boxes →
           ∃ reopened,
             image_open_b64 pil out = Some reopened
             ∧ im_format reopened = Some "PNG"
             ∧ im_size reopened = im_size input).
Proof.
  intros Hlabel Hpng Hopen. destruct env as [imgs reqs].
  destruct (redact_image_from_base64_run remote pil image_b64 state imgs reqs)
    as (out & imgs' & Hrun & _ & _ & Hnil & Hout & Hdrawn).
  assert (∀ src drawn,
            im_rows src = im_rows input →
            same_shape (im_rows src) (im_rows drawn) →
            ∃ reopened,
              image_open_b64 pil (save_png_b64 pil drawn) = Some reopened
              ∧ im_format reopened = Some "PNG"
              ∧ im_size reopened = im_size input) as Hsaved.
  { intros src drawn Hrows Hshape.
    destruct (Hpng drawn) as (reopened & Hre & Hfmt & Hsize).
    exists reopened. split; [done |]. split; [done |].
    rewrite Hsize. symmetry. transitivity (im_size src).
    - unfold im_size. by rewrite Hrows.
    - by apply same_shape_size. }
  assert (∀ image src env_d img_copy env_d' drawn sb,
            images env_d !! image = Some src →
            draw_redaction_boxes pil image sb true state env_d
            = (Some img_copy, env_d') →
            images env_d' !! img_copy = Some drawn →
            same_shape (im_rows src) (im_rows drawn)) as Hshape.
  { intros image src [imgs_d reqs_d] img_copy env_d' drawn sb Hsrc Hdraw Hd.
    cbn [images] in Hsrc.
    destruct (draw_redaction_boxes_run pil image sb true state imgs_d reqs_d
                src Hsrc) as (r & drawn' & Hdraw' & _ & _ & _ & Hs).
    rewrite Hdraw in Hdraw'. destruct r as [[]|]; [| done].
    injection Hdraw' as -> ->. cbn [images] in Hd.
    rewrite lookup_insert_eq in Hd. injection Hd as <-. by apply Hs. }
  exists out. eexists. split; [exact Hrun |]. split.
  { destruct Hout as [? | (opened & drawn & Hopened & -> & _ & Hs)];
      [by left | right].
    assert (opened = input) as -> by congruence.
    apply (Hsaved input drawn); [done | by apply Hs]. }
  intros text_boxes sensitive_boxes [imgs1 reqs1] [imgs2 reqs2] Htb Hsb.
  rewrite extract_text_with_boxes_reads in Htb. injection Htb as <-.
  rewrite find_sensitive_boxes_flags in Hsb. cbn [fst] in Hsb.
  assert (sensitive_boxes ≠ [] →
          ∃ image src env_d,
            images env_d !! image = Some src
            ∧ im_rows src = im_rows input
            ∧ match draw_redaction_boxes pil image sensitive_boxes true
                      state env_d with
              | (Some img_copy, env_d') =>
                  ∃ drawn reopened,
                    images env_d' !! img_copy = Some drawn
                    ∧ out = save_png_b64 pil drawn
                    ∧ image_open_b64 pil out = Some reopened
                    ∧ im_format reopened = Some "PNG"
                    ∧ im_size reopened = im_size input
              | (None, _) => out = image_b64
              end) as Hcase.
  { intros Hne.
    destruct (Hdrawn input sensitive_boxes Hopen Hsb Hne)
      as (image & src & env_d & Hsrc & Hrows & Hmatch).
    exists image, src, env_d. split; [exact Hsrc |]. split; [exact Hrows |].
    destruct (draw_redaction_boxes pil image sensitive_boxes true state env_d)
      as [[img_copy|] env_d'] eqn:Hdraw; [| exact Hmatch].
    destruct Hmatch as (drawn & Hd & ->).
    destruct (Hsaved src drawn Hrows
                (Hshape _ _ _ _ _ _ _ Hsrc Hdraw Hd))
      as (reopened & Hre & Hfmt & Hsize).
    by exists drawn, reopened. }
  split; [by apply Hnil |]. split; [exact Hcase |].
  intros Hne Hrange.
  destruct (Hcase Hne) as (image & src & env_d & Hsrc & Hrows & Hmatch).
  pose proof (draw_redaction_boxes_in_range pil image sensitive_boxes true
                state env_d src Hsrc Hrange) as Hsome.
  destruct (draw_redaction_boxes pil image sensitive_boxes true state env_d)
    as [[img_copy|] env_d']; [| done].
  destruct Hmatch as (drawn & reopened & _ & _ & Hre & Hfmt & Hsize).
  by exists reopened.
Qed.

(** The pipeline on a 3×2 JPEG image with the sample services: the word
    that the classifier calls a name is covered, and the result is a
    3×2 PNG image. *)
Lemma redact_image_keeps_size_saves_png_witness :
  label_keeps_shape Sample.pil
  ∧ png_reopens Sample.pil
  ∧ image_open_b64 Sample.pil "Jwwwhh" = Some (Sample.blank "JPEG" 3 2)
  ∧ ∃ out env',
      redact_image_from_base64 Sample.remote Sample.pil "Jwwwhh"
        (Some initial_state) Sample.empty_env = (Some out, env')
      ∧ ∃ reopened,
          image_open_b64 Sample.pil out = Some reopened
          ∧ im_format reopened = Some "PNG"
          ∧ im_size reopened = im_size (Sample.blank "JPEG" 3 2).
Proof.
  split; [apply sample_label_keeps_shape |].
  split; [apply sample_png_reopens |].
  split; [reflexivity |].
  destruct (redact_image_keeps_size_saves_png Sample.remote Sample.pil
              "Jwwwhh" (Some initial_state) Sample.empty_env
              (Sample.blank "JPEG" 3 2) sample_label_keeps_shape
              sample_png_reopens eq_refl)
    as (out & env' & Hrun & _ & Hcases).
  exists out, env'. split; [exact Hrun |].
  destruct (Hcases [mkTextBox "Alice" 0 0 50 10 None None]
              [mkTextBox "Alice" 0 0 50 10 (Some "name") None]
              Sample.empty_env Sample.empty_env eq_refl eq_refl)
    as (_ & _ & Hpng).
  apply Hpng; [discriminate |].
  constructor; [| constructor]. unfold box_in_range. simpl. lia.
Defined.

(** Nothing is flagged when the map gives no text box a category that
    passes the filter. *)
Lemma flagged_boxes_none (remote : Remote) (state : option State)
    (text_boxes : list TextBox) :
  (∀ (idx : nat) box redaction_type,
     text_boxes !! idx = Some box →
     classified remote state text_boxes !! Z.of_nat idx = Some redaction_type →
     default true (type_to_enabled state !! redaction_type) = false) →
  flagged_boxes remote state text_boxes = [].
Proof.
  intros Hnone. unfold flagged_boxes.
  destruct (mjoin _) as [|b l] eqn:Hl; [done |].
  assert (b ∈ b :: l) as Hb by left. rewrite <- Hl in Hb.
  apply sensitive_entries_spec in Hb as (idx & box & rt & Hbox & Hrt & Hen & _).
  rewrite (Hnone idx box rt Hbox Hrt) in Hen. done.
Qed.

(** X7. [redact_image_from_base64] never raises and talks to the services
    in a fixed order: nothing is sent for an image that cannot be opened;
    otherwise one OCR request is sent, followed by one classification
    request, for the enabled categories and with one line per text box,
    exactly when the OCR found text and some category is enabled. The
    image objects that existed before the call are left as they were. *)
Theorem redact_image_from_base64_requests (remote : Remote) (pil : Pillow)
    (image_b64 : string) (state : option State) (env : Env) :
  ∃ out env',
    redact_image_from_base64 remote pil image_b64 state env = (Some out, env')
    ∧ (∀ l, l ∈ dom (images env) → images env' !! l = images env !! l)
    ∧ (image_open_b64 pil image_b64 = None → requests env' = requests env)
    ∧ (∀ text_boxes,
         image_open_b64 pil image_b64 ≠ None →
         (extract_text_with_boxes remote image_b64 state env).1
         = Some text_boxes →
         requests env'
         = requests env
           ++ OcrRequest image_b64
              :: (if decide (text_boxes = [] ∨ enabled_types state = [])
                  then []
                  else [ClassifyRequest (enabled_types state)
                          (imap (λ i box, (i, box_text box)) text_boxes)])).
Proof.
  destruct env as [imgs reqs].
  destruct (redact_image_from_base64_run remote pil image_b64 state imgs reqs)
    as (out & imgs' & Hrun & Hkeep & _).
  exists out. eexists. split; [exact Hrun |]. cbn [images requests].
  split; [exact Hkeep |]. unfold pipeline_requests. split.
  - intros ->. by rewrite app_nil_r.
  - intros tb Hopen Htb. rewrite extract_text_with_boxes_reads in Htb.
    injection Htb as <-.
    by destruct (image_open_b64 pil image_b64).
Qed.

(** When nothing is flagged the pipeline returns its input. *)
Lemma redact_image_from_base64_unflagged (remote : Remote) (pil : Pillow)
    (image_b64 : string) (state : option State) (env : Env) :
  image_open_b64 pil image_b64 = None
  ∨ flagged_boxes remote state (ocr_text_boxes (ocr_space remote image_b64))
    = [] →
  (redact_image_from_base64 remote pil image_b64 state env).1
  = Some image_b64.
Proof.
  intros Hcase. destruct env as [imgs reqs].
  destruct (redact_image_from_base64_run remote pil image_b64 state imgs reqs)
    as (out & imgs' & -> & _ & Hfail & Hnil & _).
  simpl. f_equal. destruct Hcase as [Hopen | Hflag].
  - by apply Hfail.
  - apply (Hnil []); [by rewrite Hflag | done].
Qed.

(** X8. The pipeline fails open: [redact_image_from_base64] returns the
    base64 string it was given when the image cannot be opened, when no
    category is enabled (in particular when it is called without a
    state), when the classification call fails, when the classifier
    gives no text box a category that passes the filter, and when one of
    the first five keys of its answer lies below [-len(text_boxes)], so
    that the report of the answer raises. *)
Theorem redact_image_from_base64_fails_open (remote : Remote) (pil : Pillow)
    (image_b64 : string) (state : option State) (env : Env)
    (text_boxes : list TextBox) :
  (extract_text_with_boxes remote image_b64 state env).1 = Some text_boxes →
  image_open_b64 pil image_b64 = None
  ∨ enabled_types state = []
  ∨ groq_classify remote (enabled_types state)
      (imap (λ i box, (i, box_text box)) text_boxes) = ClassifyRaises
  ∨ (∃ items,
       groq_classify remote (enabled_types state)
         (imap (λ i box, (i, box_text box)) text_boxes)
       = ClassifyMap items
       ∧ ∀ (idx : nat) box redaction_type,
           text_boxes !! idx = Some box →
           (list_to_map items : gmap Z string) !! Z.of_nat idx
           = Some redaction_type →
           default true (type_to_enabled state !! redaction_type) = false)
  ∨ (∃ items,
       groq_classify remote (enabled_types state)
         (imap (λ i box, (i, box_text box)) text_boxes)
       = ClassifyMap items
       ∧ report_raises text_boxes items) →
  (redact_image_from_base64 remote pil image_b64 state env).1
  = Some image_b64.
Proof.
  intros Htb Hcase. apply redact_image_from_base64_unflagged.
  destruct env as [imgs reqs].
  rewrite extract_text_with_boxes_reads in Htb. injection Htb as Htb.
  rewrite Htb.
  destruct Hcase as [Hopen | Hcase]; [by left | right].
  apply flagged_boxes_none. intros idx box rt Hbox Hrt.
  unfold classified, text_lines in Hrt.
  destruct (decide (text_boxes = [] ∨ enabled_types state = [])) as [|Hon];
    [by rewrite lookup_empty in Hrt |].
  destruct Hcase as [Hoff | [Hraise | [(m & Hm & Hnone) | (m & Hm & Hidx)]]].
  - destruct Hon. by right.
  - rewrite Hraise in Hrt. by rewrite lookup_empty in Hrt.
  - rewrite Hm in Hrt.
    destruct (decide (report_raises text_boxes m));
      [by rewrite lookup_empty in Hrt |].
    by apply (Hnone idx box rt).
  - rewrite Hm in Hrt. rewrite decide_True in Hrt by exact Hidx.
    by rewrite lookup_empty in Hrt.
Qed.

(** X9. The [redact_image] method of the state class never redacts: it
    calls the pipeline without a state, so no category counts as enabled
    for the classification, no classification request is sent, and the
    image comes back as it was given, whatever the OCR finds. *)
Theorem state_redact_image_returns_input (remote : Remote) (pil : Pillow)
    (image_b64 : string) (env : Env) :
  ∃ env',
    EmailPrivacyRedactorAI_redact_image remote pil image_b64 env
    = (Some image_b64, env')
    ∧ (∀ l, l ∈ dom (images env) → images env' !! l = images env !! l)
    ∧ (requests env' = requests env
       ∨ requests env' = requests env ++ [OcrRequest image_b64]).
Proof.
  unfold EmailPrivacyRedactorAI_redact_image, redact_image.
  pose proof (redact_image_from_base64_unflagged remote pil image_b64 None env)
    as Hout.
  destruct env as [imgs reqs].
  destruct (redact_image_from_base64_run remote pil image_b64 None imgs reqs)
    as (out & imgs' & Hrun & Hkeep & _).
  assert (out = image_b64) as ->.
  { rewrite Hrun in Hout. simpl in Hout.
    assert (Some out = Some image_b64) as Heq; [| by injection Heq].
    apply Hout. right. apply flagged_boxes_none. intros idx box rt _ Hrt.
    unfold classified in Hrt. rewrite decide_True in Hrt by (by right).
    by rewrite lookup_empty in Hrt. }
  rewrite Hrun.
  eexists. split; [reflexivity |]. cbn [images requests].
  split; [exact Hkeep |].
  unfold pipeline_requests, classify_requests.
  rewrite decide_True by (by right).
  destruct (image_open_b64 pil image_b64); [by right | left].
  by rewrite app_nil_r.
Qed.

(** ** Compositing several boxes *)

Lemma in_rectangle_padded (box : TextBox) (px py : nat) :
  in_rectangle (redaction_rectangle box) px py = true
  ↔ in_padded_box box px py.
Proof.
  unfold in_rectangle, redaction_rectangle, in_padded_box.
  rewrite !andb_true_iff, !Z.leb_le. lia.
Qed.

(** The drawing loop without labels blackens the padded boxes and nothing
    else. *)
Lemma draw_loop_blackens (pil : Pillow) (labels : gmap string string)
    (show_labels : bool) (l : nat) (boxes : list TextBox) :
  Forall box_in_range boxes →
  show_labels = false ∨ Forall (λ b, box_width b <= 40) boxes →
  ∀ imgs reqs cur,
    imgs !! l = Some cur →
    ∃ cur',
      for_each boxes (draw_box pil labels show_labels l) (mkEnv imgs reqs)
      = (Some (), mkEnv (<[l := cur']> imgs) reqs)
      ∧ im_mode cur' = im_mode cur
      ∧ same_shape (im_rows cur) (im_rows cur')
      ∧ ∀ px py c,
          pixel (im_rows cur) px py = Some c →
          pixel (im_rows cur') px py
          = Some (if decide (Exists (λ b, in_padded_box b px py) boxes)
                  then (0, 0, 0) else c).
Proof.
  intros Hrange Hlabel.
  induction boxes as [|box boxes IH]; intros imgs reqs cur Hcur.
  - exists cur. simpl. py_run. rewrite insert_id by done.
    split; [done |]. split; [done |]. split; [apply same_shape_refl |].
    intros px py c Hc.
    destruct (decide (Exists (λ b, in_padded_box b px py) []))
      as [Hex | _]; [by apply Exists_nil in Hex | done].
  - apply Forall_cons in Hrange as [(Hx & Hy & Hw & Hh) Hrange].
    assert (show_labels && (40 <? box_width box) = false) as Hnolabel.
    { destruct Hlabel as [-> | Hwide]; [done |].
      apply Forall_cons in Hwide as [Hwide _].
      apply andb_false_iff. right. apply Z.ltb_ge. exact Hwide. }
    assert (show_labels = false ∨ Forall (λ b, box_width b <= 40) boxes)
      as Hlabel'.
    { destruct Hlabel as [? | Hwide]; [by left | right].
      by apply Forall_cons in Hwide as [_ ?]. }
    cbn [for_each]. rewrite bind_run.
    rewrite (draw_box_run _ _ _ _ _ _ _ cur Hcur).
    destruct (fill_rectangle_ok (im_rows cur)
                (Z.max 0 (box_x box - 2)) (Z.max 0 (box_y box - 2))
                (box_x box + box_width box + 2)
                (box_y box + box_height box + 2) (0, 0, 0))
      as (rows' & Hfill & Hshape & Hpix); [lia | lia |].
    change (Z.max 0 (box_x box - 2), Z.max 0 (box_y box - 2),
            box_x box + box_width box + 2, box_y box + box_height box + 2)
      with (redaction_rectangle box) in Hfill, Hpix.
    rewrite Hfill, Hnolabel.
    destruct (IH Hrange Hlabel' (<[l := with_rows rows' cur]> imgs) reqs
                (with_rows rows' cur)) as (cur' & Hrun & Hmode & Hs & Hp).
    { apply lookup_insert_eq. }
    exists cur'. rewrite Hrun, insert_insert_eq.
    split; [done |]. split; [by rewrite Hmode |]. split.
    { eapply same_shape_trans; [exact Hshape | exact Hs]. }
    intros px py c Hc. simpl in Hp.
    rewrite (Hp px py _ (Hpix px py c Hc)). f_equal.
    destruct (in_rectangle (redaction_rectangle box) px py) eqn:Hin.
    + apply in_rectangle_padded in Hin.
      rewrite (decide_True (P := Exists _ (box :: boxes)))
        by (by apply Exists_cons_hd).
      by destruct (decide _).
    + assert (¬ in_padded_box box px py) as Hout.
      { intros Hp'. apply in_rectangle_padded in Hp'. congruence. }
      destruct (decide (Exists (λ b, in_padded_box b px py) boxes))
        as [Hex | Hnex].
      * by rewrite decide_True by (by apply Exists_cons_tl).
      * rewrite decide_False; [done |].
        intros [? | ?]%Exists_cons; done.
Qed.

(** X10. For boxes of the data model, when no label is drawn (labels are
    switched off, or no box is wider than 40px), [draw_redaction_boxes]
    returns a copy of the same size in which a pixel is black exactly
    when it lies in the 2px-padded rectangle of one of the boxes, and has
    the colour of the original otherwise. *)
Theorem draw_redaction_boxes_blackens (pil : Pillow) (image : nat)
    (sensitive_boxes : list TextBox) (show_labels : bool)
    (state : option State) (env : Env) (original : Image) :
  images env !! image = Some original →
  Forall box_in_range sensitive_boxes →
  show_labels = false ∨ Forall (λ b, box_width b <= 40) sensitive_boxes →
  ∃ img_copy env' out,
    draw_redaction_boxes pil image sensitive_boxes show_labels state env
    = (Some img_copy, env')
    ∧ images env' !! img_copy = Some out
    ∧ same_shape (im_rows original) (im_rows out)
    ∧ ∀ px py c,
        pixel (im_rows original) px py = Some c →
        pixel (im_rows out) px py
        = Some (if decide (Exists (λ b, in_padded_box b px py)
                             sensitive_boxes)
                then (0, 0, 0) else c).
Proof.
  intros Himage Hrange Hlabel. destruct env as [imgs reqs].
  simpl in Himage.
  destruct (draw_loop_blackens pil (labels_of state) show_labels
              (fresh (dom imgs)) sensitive_boxes Hrange Hlabel
              (<[fresh (dom imgs) := copy_of original]> imgs) reqs
              (copy_of original)) as (out & Hrun & _ & Hshape & Hpix).
  { apply lookup_insert_eq. }
  rewrite insert_insert_eq in Hrun.
  exists (fresh (dom imgs)), (mkEnv (<[fresh (dom imgs) := out]> imgs) reqs),
         out.
  split.
  { unfold draw_redaction_boxes. py_run. rewrite Himage.
    cbn [images requests].
    unfold mbind, Py_bind in Hrun. by rewrite Hrun. }
  cbn [images]. split; [apply lookup_insert_eq |].
  split; [exact Hshape | exact Hpix].
Qed.

(** ** The text step, for every answer *)

(** The loop over the uploaded images appends one result per image. *)
Lemma redact_images_loop_exact (remote : Remote) (pil : Pillow)
    (snapshot : option State) (imgs : list string) :
  ∀ st env,
  ∃ outs env',
    for_each imgs (λ img_b64,
      redacted_img ← in_env (redact_image remote pil img_b64 snapshot);
      modify_state (λ st,
        set_redacted_images (redacted_images st ++ [redacted_img]) st))
      (st, env)
    = (Some (),
       (set_redacted_images (redacted_images st ++ outs) st, env'))
    ∧ Forall2 (λ img out,
         ∃ e, (redact_image_from_base64 remote pil img snapshot e).1
              = Some out) imgs outs
    ∧ (∀ l, l ∈ dom (images env) → images env' !! l = images env !! l)
    ∧ ∃ sent, requests env' = requests env ++ sent.
Proof.
  induction imgs as [|img imgs IH]; intros st env.
  - exists [], env. rewrite app_nil_r. split.
    { destruct st. reflexivity. }
    split; [constructor |]. split; [done |]. exists []. by rewrite app_nil_r.
  - cbn [for_each]. rewrite !bind_run. unfold in_env. cbn [fst snd].
    unfold redact_image. destruct env as [imgs0 reqs0].
    destruct (redact_image_from_base64_run remote pil img snapshot imgs0 reqs0)
      as (out & imgs1 & Hrun & Hkeep & _).
    rewrite Hrun. unfold modify_state. cbn [fst snd].
    destruct (IH (set_redacted_images (redacted_images st ++ [out]) st)
                (mkEnv imgs1 (reqs0 ++ pipeline_requests remote pil img
                                         snapshot)))
      as (outs & env' & Hloop & Hall & Hkeep' & sent & Hsent).
    exists (out :: outs), env'. split.
    { etransitivity; [exact Hloop |]. f_equal. f_equal.
      cbn [redacted_images set_redacted_images].
      rewrite <- app_assoc. reflexivity. }
    split.
    { constructor; [| exact Hall]. exists (mkEnv imgs0 reqs0).
      by rewrite Hrun. }
    split.
    { intros l Hl. cbn [images] in *. rewrite Hkeep'; [by apply Hkeep |].
      apply elem_of_dom. rewrite Hkeep by done. by apply elem_of_dom. }
    eexists. rewrite Hsent. cbn [requests]. by rewrite <- app_assoc.
Qed.

Lemma py_truthy_blank (to content : string) :
  py_truthy to = true → py_truthy content = true →
  negb (py_truthy to) || negb (py_truthy content) = false.
Proof. by intros -> ->. Qed.

(** The [try] block of [redact_text] from the point where the redacted
    content is stored. *)
Lemma redact_text_tail (remote : Remote) (pil : Pillow) (state : State)
    (text_out : string) (env : Env) :
  ∃ imgs_out env' sent,
    (modify_state (set_redacted_content text_out);;
     state ← get_state;
     (if decide (uploaded_images state ≠ [])
      then
        modify_state (set_redacted_images []);;
        for_each (uploaded_images state) (λ img_b64,
          redacted_img ← in_env (redact_image remote pil img_b64 (Some state));
          modify_state (λ st,
            set_redacted_images (redacted_images st ++ [redacted_img]) st))
      else mret ());;
     modify_state (set_step "preview")) (state, env)
    = (Some (),
       (set_step "preview"
          (set_redacted_images imgs_out
             (set_redacted_content text_out state)), env'))
    ∧ requests env' = requests env ++ sent
    ∧ (∀ l, l ∈ dom (images env) → images env' !! l = images env !! l)
    ∧ (uploaded_images state = [] →
       imgs_out = redacted_images state ∧ sent = [])
    ∧ (uploaded_images state ≠ [] →
       Forall2 (λ img out,
          ∃ e, (redact_image_from_base64 remote pil img
                  (Some (set_redacted_content text_out state)) e).1
               = Some out)
         (uploaded_images state) imgs_out).
Proof.
  rewrite modify_bind, get_bind. cbn [fst snd]. rewrite bind_run.
  change (uploaded_images (set_redacted_content text_out state))
    with (uploaded_images state).
  destruct (decide (uploaded_images state ≠ [])) as [Himgs | Himgs].
  - rewrite modify_bind. cbn [fst snd].
    destruct (redact_images_loop_exact remote pil
                (Some (set_redacted_content text_out state))
                (uploaded_images state)
                (set_redacted_images [] (set_redacted_content text_out state))
                env) as (outs & env' & Hloop & Hall & Hkeep & sent & Hsent).
    rewrite Hloop. unfold modify_state. cbn [fst snd].
    exists outs, env', sent.
    split; [reflexivity |]. split; [done |]. split; [done |].
    split; [done |]. intros _. exact Hall.
  - unfold mret at 1, Py_ret at 1. unfold modify_state. cbn [fst snd].
    exists (redacted_images state), env, [].
    split; [by destruct state |]. split; [by rewrite app_nil_r |].
    split; [done |]. split; [done | done].
Qed.

(** [redact_text] on a draft with a recipient and a content, for every
    answer of the rewriting service. *)
Lemma redact_text_run (remote : Remote) (pil : Pillow)
    (state : State) (env : Env) :
  py_truthy (to_email state) = true →
  py_truthy (content state) = true →
  ∃ text_out imgs_out env' sent,
    redact_text remote pil (state, env)
    = (Some (),
       (set_loading false
          (set_step "preview"
             (set_redacted_images imgs_out
                (set_redacted_content text_out (with_originals state)))),
        env'))
    ∧ requests env'
      = requests env
        ++ RewriteRequest (redaction_instructions state) (content state)
           :: sent
    ∧ (∀ l, l ∈ dom (images env) → images env' !! l = images env !! l)
    ∧ text_out
      = match groq_rewrite remote (redaction_instructions state)
                (content state) with
        | RewriteResponse status_code (ChatMessage (Some answer) true) =>
            if decide (status_code = 200) then answer else content state
        | _ => content state
        end
    ∧ (rewrite_raises (groq_rewrite remote (redaction_instructions state)
                         (content state)) →
       imgs_out = uploaded_images state ∧ sent = [])
    ∧ (¬ rewrite_raises (groq_rewrite remote (redaction_instructions state)
                           (content state)) →
       (uploaded_images state = [] →
        imgs_out = redacted_images state ∧ sent = [])
       ∧ (uploaded_images state ≠ [] →
          Forall2 (λ img out,
             ∃ e, (redact_image_from_base64 remote pil img
                     (Some (set_redacted_content text_out
                              (with_originals state))) e).1 = Some out)
            (uploaded_images state) imgs_out)).
Proof.
  intros Hto Hcontent. unfold redact_text.
  rewrite get_bind. cbn [fst snd].
  rewrite (py_truthy_blank _ _ Hto Hcontent).
  repeat (rewrite modify_bind; cbn [fst snd]).
  fold (with_originals state).
  unfold try_finally. rewrite try_except_run, get_bind. cbn [fst snd].
  rewrite bind_run. unfold in_env at 1, send. cbn [fst snd images requests].
  change (redaction_instructions (with_originals state))
    with (redaction_instructions state).
  change (content (with_originals state)) with (content state).
  destruct env as [imgs reqs]. cbn [images requests].
  set (req := RewriteRequest (redaction_instructions state) (content state)).
  (* the handler of the [except] clause and the [finally] clause *)
  assert (∀ s1 e1,
            (let (r, s') :=
               (get_state ≫= λ state0,
                  modify_state (set_redacted_content (content state0));;
                  modify_state (set_redacted_images (uploaded_images state0));;
                  modify_state (set_step "preview"))
                 ((s1, e1) : State * Env) in
             let (o, s'') := modify_state (set_loading false) s' in
             match o with
             | Some _ => (r, s'')
             | None => (None, s'')
             end)
            = (Some (),
               (set_loading false
                  (set_step "preview"
                     (set_redacted_images (uploaded_images s1)
                        (set_redacted_content (content s1) s1))), e1)))
    as Hexcept by reflexivity.
  (* the rest of the [try] block *)
  assert (∀ text_out,
            ∃ imgs_out env' sent,
              (let (r, s') :=
                 let (o, s') :=
                   (modify_state (set_redacted_content text_out);;
                    state ← get_state;
                    (if decide (uploaded_images state ≠ [])
                     then
                       modify_state (set_redacted_images []);;
                       for_each (uploaded_images state) (λ img_b64,
                         redacted_img ←
                           in_env (redact_image remote pil img_b64
                                     (Some state));
                         modify_state (λ st,
                           set_redacted_images
                             (redacted_images st ++ [redacted_img]) st))
                     else mret ());;
                    modify_state (set_step "preview"))
                     (with_originals state, mkEnv imgs (reqs ++ [req])) in
                 match o with
                 | Some a => (Some a, s')
                 | None =>
                     (get_state ≫= λ state0,
                        modify_state (set_redacted_content (content state0));;
                        modify_state
                          (set_redacted_images (uploaded_images state0));;
                        modify_state (set_step "preview")) s'
                 end in
               let (o, s'') := modify_state (set_loading false) s' in
               match o with
               | Some _ => (r, s'')
               | None => (None, s'')
               end)
              = (Some (),
                 (set_loading false
                    (set_step "preview"
                       (set_redacted_images imgs_out
                          (set_redacted_content text_out
                             (with_originals state)))), env'))
              ∧ requests env' = reqs ++ req :: sent
              ∧ (∀ l, l ∈ dom imgs → images env' !! l = imgs !! l)
              ∧ (uploaded_images state = [] →
                 imgs_out = redacted_images state ∧ sent = [])
              ∧ (uploaded_images state ≠ [] →
                 Forall2 (λ img out,
                    ∃ e, (redact_image_from_base64 remote pil img
                            (Some (set_redacted_content text_out
                                     (with_originals state))) e).1
                         = Some out)
                   (uploaded_images state) imgs_out)) as Htry.
  { intros text_out.
    destruct (redact_text_tail remote pil (with_originals state) text_out
                (mkEnv imgs (reqs ++ [req])))
      as (imgs_out & env' & sent & Hrun & Hsent & Hkeep & Hnone & Hsome).
    exists imgs_out, env', sent. rewrite Hrun.
    split; [reflexivity |].
    split; [by rewrite Hsent; cbn [requests]; rewrite <- app_assoc |].
    split; [exact Hkeep |]. split; [exact Hnone | exact Hsome]. }
  destruct (groq_rewrite remote (redaction_instructions state) (content state))
    as [|status_code body] eqn:Hreply.
  - (* no answer *)
    unfold raise.
    exists (content state), (uploaded_images state),
           (mkEnv imgs (reqs ++ [req])), [].
    split; [exact (Hexcept (with_originals state) _) |].
    split; [done |]. split; [done |].
    split; [done |]. split; [done |]. intros Hn. by destruct Hn.
  - destruct (decide (status_code = 200)) as [-> | Hstatus].
    + destruct body as [|message_content [|]].
      * (* status 200, the message cannot be read *)
        unfold raise.
        exists (content state), (uploaded_images state),
               (mkEnv imgs (reqs ++ [req])), [].
        split; [exact (Hexcept (with_originals state) _) |].
        split; [done |]. split; [done |].
        split; [done |]. split; [done |]. intros Hn. by destruct Hn.
      * (* status 200, a message and a usage that can be read *)
        destruct (Htry (default (content state) message_content))
          as (imgs_out & env' & sent & Hrun & Hsent & Hkeep & Hnone & Hsome).
        exists (default (content state) message_content), imgs_out, env', sent.
        split; [exact Hrun |]. split; [exact Hsent |]. split; [exact Hkeep |].
        split; [by destruct message_content |].
        split; [by intros [_ ?] |].
        intros _. split; [exact Hnone | exact Hsome].
      * (* status 200, a message, but a usage that is no object: the
           content is stored, then the handler puts the draft back *)
        exists (content state), (uploaded_images state),
               (mkEnv imgs (reqs ++ [req])), [].
        split.
        { etransitivity;
            [exact (Hexcept (set_redacted_content
                               (default (content state) message_content)
                               (with_originals state)) _) |].
          do 2 f_equal; try (lazy; reflexivity). }
        split; [done |]. split; [done |].
        split; [by destruct message_content |].
        split; [done |]. intros Hn. by destruct Hn.
    + (* another status *)
      destruct (Htry (content state))
        as (imgs_out & env' & sent & Hrun & Hsent & Hkeep & Hnone & Hsome).
      exists (content state), imgs_out, env', sent.
      split; [exact Hrun |]. split; [exact Hsent |]. split; [exact Hkeep |].
      split; [by destruct body as [|[] []] |].
      split.
      * intros Hr.
        destruct body; [by destruct Hstatus | by destruct Hr as [? _]].
      * intros _. split; [exact Hnone | exact Hsome].
Qed.

(** X11. [redact_text] does nothing at all on a draft without recipient
    or without content: the state is untouched and nothing is sent.
    Otherwise it never raises, whatever the services answer: it ends with
    [loading] off and the step [preview], it leaves the draft (recipient,
    cc, subject, content, uploaded images) and the category settings as
    they were, it stores the draft in the [original_*] fields, its first
    request is the rewriting request for the content, and it leaves the
    existing image objects alone. *)
Theorem redact_text_keeps_draft (remote : Remote) (pil : Pillow)
    (state : State) (env : Env) :
  (py_truthy (to_email state) = false ∨ py_truthy (content state) = false →
   redact_text remote pil (state, env) = (Some (), (state, env)))
  ∧ (py_truthy (to_email state) = true →
     py_truthy (content state) = true →
     ∃ state' env' sent,
       redact_text remote pil (state, env) = (Some (), (state', env'))
       ∧ loading state' = false
       ∧ step state' = "preview"
       ∧ to_email state' = to_email state
       ∧ cc_email state' = cc_email state
       ∧ subject state' = subject state
       ∧ content state' = content state
       ∧ uploaded_images state' = uploaded_images state
       ∧ original_to state' = to_email state
       ∧ original_cc state' = cc_email state
       ∧ original_subject state' = subject state
       ∧ original_content state' = content state
       ∧ original_images state' = uploaded_images state
       ∧ category_flags state' = category_flags state
       ∧ category_placeholders state' = category_placeholders state
       ∧ requests env'
         = requests env
           ++ RewriteRequest (redaction_instructions state) (content state)
              :: sent
       ∧ (∀ l, l ∈ dom (images env) → images env' !! l = images env !! l)).
Proof.
  split.
  - intros Hblank. unfold redact_text. rewrite get_bind. cbn [fst snd].
    by destruct Hblank as [-> | ->]; [| rewrite orb_true_r].
  - intros Hto Hcontent.
    destruct (redact_text_run remote pil state env Hto Hcontent)
      as (text_out & imgs_out & env' & sent & Hrun & Hsent & Hkeep & _).
    eexists _, env', sent. split; [exact Hrun |].
    repeat (split; [reflexivity |]). split; [exact Hsent | exact Hkeep].
Qed.

(** X12. The redacted content that [redact_text] stores, for a draft with
    a recipient and a content. It is the text of the answer when the
    service answers with status 200, the body has a
    [choices[0].message.content] and its [usage], if present, is an
    object. It is the unchanged content of the draft in every other case:
    a status other than 200; a body in which [choices], [message] or
    [content] is missing, where the defaults of [.get] apply; no answer;
    a 200 body on which reading the message raises; and a 200 body whose
    [usage] is no object, where the content of the answer is stored and
    then put back by the handler. In the last three cases, those in which
    the [try] block raises, the uploaded images are kept as the redacted
    images and no further request is sent. *)
Theorem redact_text_fails_open (remote : Remote) (pil : Pillow)
    (state : State) (env : Env) :
  py_truthy (to_email state) = true →
  py_truthy (content state) = true →
  ∃ state' env',
    redact_text remote pil (state, env) = (Some (), (state', env'))
    ∧ redacted_content state'
      = match groq_rewrite remote (redaction_instructions state)
                (content state) with
        | RewriteResponse status_code (ChatMessage (Some answer) true) =>
            if decide (status_code = 200) then answer else content state
        | _ => content state
        end
    ∧ (rewrite_raises
         (groq_rewrite remote (redaction_instructions state) (content state)) →
       redacted_images state' = uploaded_images state
       ∧ requests env'
         = requests env
           ++ [RewriteRequest (redaction_instructions state) (content state)]).
Proof.
  intros Hto Hcontent.
  destruct (redact_text_run remote pil state env Hto Hcontent)
    as (text_out & imgs_out & env' & sent & Hrun & Hsent & _ & Htext
        & Hraise & _).
  eexists _, env'. split; [exact Hrun |].
  split; [exact Htext |].
  intros Hcase. destruct (Hraise Hcase) as [-> ->].
  split; [reflexivity | exact Hsent].
Qed.

(** X13. The redacted images that [redact_text] stores, when the text
    step does not raise (the service answers, and in an answer with
    status 200 the message can be read and the [usage], if present, is an
    object): with uploaded images, one redacted image per
    uploaded image, in the order of the uploads, each the result of the
    image pipeline on its upload; without uploaded images the list of
    redacted images is left as it was. *)
Theorem redact_text_redacts_each_image (remote : Remote) (pil : Pillow)
    (state : State) (env : Env) :
  py_truthy (to_email state) = true →
  py_truthy (content state) = true →
  ¬ rewrite_raises
      (groq_rewrite remote (redaction_instructions state) (content state)) →
  ∃ state' env',
    redact_text remote pil (state, env) = (Some (), (state', env'))
    ∧ (uploaded_images state = [] →
       redacted_images state' = redacted_images state)
    ∧ (uploaded_images state ≠ [] →
       length (redacted_images state') = length (uploaded_images state)
       ∧ Forall2 (λ img out,
            ∃ st e,
              category_flags st = category_flags state
              ∧ category_placeholders st = category_placeholders state
              ∧ (redact_image_from_base64 remote pil img (Some st) e).1
                = Some out)
           (uploaded_images state) (redacted_images state')).
Proof.
  intros Hto Hcontent Hreads.
  destruct (redact_text_run remote pil state env Hto Hcontent)
    as (text_out & imgs_out & env' & sent & Hrun & _ & _ & _ & _ & Hok).
  destruct (Hok Hreads) as [Hnone Hsome].
  eexists _, env'. split; [exact Hrun |].
  cbn [redacted_images set_loading set_step set_redacted_images]. split.
  - intros Hnil. by destruct (Hnone Hnil) as [-> _].
  - intros Hcons. specialize (Hsome Hcons).
    split; [symmetry; by eapply Forall2_length |].
    eapply Forall2_impl; [exact Hsome |].
    intros img out [e He]. eexists _, e. split; [| split; [| exact He]]; done.
Qed.

(** ** Delivery *)

(** The cc header of a message: the cc as typed, unless it is empty or
    names the recipient again. *)
Lemma cc_header_dedup (to_email cc_email : string) :
  cc_header
    (mailpit_email_sender.deduplicate_email_addresses to_email cc_email).2
  = (if decide (cc_email = ""
                ∨ (py_strip (py_lower cc_email) ≠ ""
                   ∧ py_strip (py_lower cc_email)
                     = py_strip (py_lower to_email)))
     then None else Some cc_email)
  ∧ (mailpit_email_sender.deduplicate_email_addresses to_email cc_email).1
    = to_email
  ∧ resend_api_email_sender.deduplicate_email_addresses to_email cc_email
    = mailpit_email_sender.deduplicate_email_addresses to_email cc_email
  ∧ sendgrid_api_email_sender.deduplicate_email_addresses to_email cc_email
    = mailpit_email_sender.deduplicate_email_addresses to_email cc_email.
Proof.
  split; [| split; [| done]].
  - unfold mailpit_email_sender.deduplicate_email_addresses, cc_header.
    assert ((if py_truthy cc_email then py_strip (py_lower cc_email) else "")
            = py_strip (py_lower cc_email)) as -> by (by destruct cc_email).
    assert ((if py_truthy to_email then py_strip (py_lower to_email) else "")
            = py_strip (py_lower to_email)) as -> by (by destruct to_email).
    assert (∀ s, py_truthy s = true ↔ s ≠ "") as Htruthy.
    { intros s. destruct s; simpl; split; congruence. }
    destruct (py_truthy (py_strip (py_lower cc_email))) eqn:Hn; simpl.
    + apply Htruthy in Hn.
      destruct (bool_decide_reflect
                  (py_strip (py_lower cc_email)
                   = py_strip (py_lower to_email))) as [Heq | Hneq]; simpl.
      * by rewrite decide_True by (by right).
      * destruct (py_truthy cc_email) eqn:Hcc.
        -- apply Htruthy in Hcc. rewrite decide_False; [done |].
           intros [? | [_ ?]]; done.
        -- destruct cc_email; [| done]. by rewrite decide_True by (by left).
    + destruct (py_truthy cc_email) eqn:Hcc.
      * apply Htruthy in Hcc. rewrite decide_False; [done |].
        intros [? | [Hne _]]; [done |].
        apply Htruthy in Hne. congruence.
      * destruct cc_email; [| done]. by rewrite decide_True by (by left).
  - unfold mailpit_email_sender.deduplicate_email_addresses.
    by destruct (_ && _).
Qed.

Lemma api_mail_of (c : Carriers) (provider : Provider)
    (from_email to_email subject body_text cc_email : string)
    (images : option (list string)) :
  provider ≠ Mailpit →
  mail_of c provider to_email subject body_text cc_email (images_given images)
    (api_mail
       (mailpit_email_sender.deduplicate_email_addresses to_email cc_email)
       from_email subject body_text images).
Proof.
  intros Hp.
  destruct (cc_header_dedup to_email cc_email) as (Hcc & Hto & _).
  unfold mail_of, api_mail. cbn [mail_to mail_subject mail_text mail_cc
                                   mail_attachments].
  split; [exact Hto |]. split; [done |]. split; [done |].
  split; [exact Hcc |]. split; [by rewrite length_imap |].
  intros i att Hatt. rewrite list_lookup_imap in Hatt.
  destruct (images_given images !! i) as [img|] eqn:Himg; [| done].
  injection Hatt as <-. split; [done |]. exists img. split; [done |].
  by destruct provider.
Qed.

(** [send_email_via_mailpit] never raises; it hands over at most one
    message, and none when an image is not valid base64. *)
Lemma send_email_via_mailpit_run (c : Carriers)
    (from_email to_email subject body_text cc_email : string)
    (images : option (list string)) (log : list Attempt) :
  ∃ ok sent,
    send_email_via_mailpit c from_email to_email subject body_text cc_email
      images log = (Some ok, log ++ sent)
    ∧ (sent = [] ∧ ok = false
       ∨ ∃ mail, sent = [mkAttempt Mailpit mail ok]
                 ∧ ok = smtp_send c mail
                 ∧ mail_from mail = from_email
                 ∧ mail_of c Mailpit to_email subject body_text cc_email
                     (images_given images) mail)
    ∧ (sent = [] ↔ ∃ img, img ∈ images_given images ∧ b64decode c img = None).
Proof.
  unfold send_email_via_mailpit. rewrite try_except_run, bind_run.
  unfold of_option.
  destruct (mapM _ (imap pair (images_given images))) as [atts|] eqn:Hatts.
  - apply mapM_Some in Hatts.
    set (mail := {| mail_from := from_email |}).
    assert (mail_of c Mailpit to_email subject body_text cc_email
              (images_given images) mail) as Hmail.
    { destruct (cc_header_dedup to_email cc_email) as (Hcc & Hto & _).
      unfold mail_of. subst mail. cbn [mail_to mail_subject mail_text mail_cc
                                         mail_attachments].
      split; [exact Hto |]. split; [done |]. split; [done |].
      split; [exact Hcc |].
      split; [by rewrite <- (Forall2_length _ _ _ Hatts), length_imap |].
      intros i att Hatt.
      destruct (Forall2_lookup_r _ _ _ _ _ Hatts Hatt) as (p & Hp & Hdec).
      rewrite list_lookup_imap in Hp.
      destruct (images_given images !! i) as [img|] eqn:Himg; [| done].
      injection Hp as <-. cbn [fst snd] in Hdec.
      destruct (b64decode c img) as [data|] eqn:Hdata; [| done].
      injection Hdec as <-. split; [done |]. by exists img. }
    assert (¬ ∃ img, img ∈ images_given images ∧ b64decode c img = None)
      as Hall.
    { intros (img & Himg & Hnone).
      apply list_elem_of_lookup in Himg as [i Hi].
      assert (imap pair (images_given images) !! i = Some (i, img)) as Hp.
      { by rewrite list_lookup_imap, Hi. }
      destruct (Forall2_lookup_l _ _ _ _ _ Hatts Hp) as (att & _ & Hdec).
      cbn [fst snd] in Hdec. by rewrite Hnone in Hdec. }
    unfold hand_over.
    destruct (smtp_send c mail) eqn:Hsmtp.
    + exists true, [mkAttempt Mailpit mail true].
      split; [done |]. split; [| split; [done | by intros ?]].
      right. by exists mail.
    + exists false, [mkAttempt Mailpit mail false].
      split; [done |]. split; [| split; [done | by intros ?]].
      right. by exists mail.
  - exists false, []. rewrite app_nil_r. split; [done |].
    split; [by left |]. split; [| done]. intros _.
    destruct (decide (Exists (λ img, b64decode c img = None)
                        (images_given images))) as [Hex | Hnex].
    + apply Exists_exists in Hex as (img & ? & ?). by exists img.
    + exfalso. apply Forall_Exists_neg in Hnex.
      assert (is_Some (mapM (λ p : nat * string,
                  img_data ← b64decode c p.2;
                  Some (attachment_name p.1, img_data))
               (imap pair (images_given images)))) as [? Hsome];
        [| congruence].
      apply mapM_is_Some. apply Forall_forall. intros [i img] Hp.
      apply list_elem_of_lookup in Hp as [j Hj].
      rewrite list_lookup_imap in Hj.
      destruct (images_given images !! j) as [img'|] eqn:Himg; [| done].
      injection Hj as <- <-.
      rewrite Forall_forall in Hnex.
      assert (img' ∈ images_given images) as Hin.
      { apply list_elem_of_lookup. by exists j. }
      specialize (Hnex img' Hin). unfold compose. cbn [fst snd].
      destruct (b64decode c img'); [by eexists | done].
Qed.

(** Without a key [send_email_resend] hands nothing over; with one it
    hands over one message and answers what the transport answered. *)
Lemma send_email_resend_run (c : Carriers)
    (from_email to_email subject body_text cc_email : string)
    (images : option (list string)) (log : list Attempt) :
  ∃ ok sent,
    send_email_resend c from_email to_email subject body_text cc_email
      images None log = (Some ok, log ++ sent)
    ∧ (sent = [] ∧ ok = false
       ∨ ∃ mail, sent = [mkAttempt Resend mail ok]
                 ∧ mail_from mail = from_email
                 ∧ mail_of c Resend to_email subject body_text cc_email
                     (images_given images) mail)
    ∧ (sent = [] ↔ py_truthy (getenv_default c "RESEND_API_KEY" "") = false).
Proof.
  unfold send_email_resend.
  destruct (py_truthy (getenv_default c "RESEND_API_KEY" "")) eqn:Hkey;
    cbn [negb].
  2:{ exists false, []. rewrite app_nil_r. split; [done |].
      split; [by left | done]. }
  rewrite try_except_run.
  destruct (cc_header_dedup to_email cc_email) as (_ & _ & -> & _).
  set (mail := api_mail _ _ _ _ _).
  assert (mail_of c Resend to_email subject body_text cc_email
            (images_given images) mail) as Hmail by by apply api_mail_of.
  assert (mail_from mail = from_email) as Hfrom by done.
  assert (∀ ok, ∃ ok' sent,
            (Some ok', log ++ [mkAttempt Resend mail ok])
            = (Some ok', log ++ sent)
            ∧ ok' = ok
            ∧ (sent = [] ∧ ok' = false
               ∨ ∃ mail', sent = [mkAttempt Resend mail' ok']
                          ∧ mail_from mail' = from_email
                          ∧ mail_of c Resend to_email subject body_text
                              cc_email (images_given images) mail')
            ∧ (sent = [] ↔ true = false)) as Hone.
  { intros ok. exists ok, [mkAttempt Resend mail ok].
    split; [done |]. split; [done |].
    split; [right; by exists mail | done]. }
  destruct (resend_installed c).
  - unfold hand_over.
    destruct (Hone (resend_sdk c mail)) as (ok & sent & Heq & -> & Hrest).
    exists (resend_sdk c mail), sent.
    split; [| exact Hrest].
    destruct (resend_sdk c mail); cbn [mret Py_ret]; by rewrite <- Heq.
  - destruct (resend_http c mail) as [| status_code json_object].
    + unfold hand_over.
      destruct (Hone false) as (ok & sent & Heq & -> & Hrest).
      exists false, sent. split; [| exact Hrest]. by rewrite <- Heq.
    + destruct (decide (status_code = 200)); unfold hand_over.
      * destruct (Hone json_object) as (ok & sent & Heq & -> & Hrest).
        exists json_object, sent. split; [| exact Hrest].
        destruct json_object; by rewrite <- Heq.
      * destruct (Hone false) as (ok & sent & Heq & -> & Hrest).
        exists false, sent. split; [| exact Hrest]. by rewrite <- Heq.
Qed.

Lemma send_email_sendgrid_run (c : Carriers)
    (from_email to_email subject body_text cc_email : string)
    (images : option (list string)) (log : list Attempt) :
  ∃ ok sent,
    send_email_sendgrid c from_email to_email subject body_text cc_email
      images None log = (Some ok, log ++ sent)
    ∧ (sent = [] ∧ ok = false
       ∨ ∃ mail, sent = [mkAttempt SendGrid mail ok]
                 ∧ mail_from mail = from_email
                 ∧ mail_of c SendGrid to_email subject body_text cc_email
                     (images_given images) mail)
    ∧ (sent = [] ↔ py_truthy (getenv_default c "SENDGRID_API_KEY" "") = false).
Proof.
  unfold send_email_sendgrid.
  destruct (py_truthy (getenv_default c "SENDGRID_API_KEY" "")) eqn:Hkey;
    cbn [negb].
  2:{ exists false, []. rewrite app_nil_r. split; [done |].
      split; [by left | done]. }
  rewrite try_except_run.
  destruct (cc_header_dedup to_email cc_email) as (_ & _ & _ & ->).
  set (mail := api_mail _ _ _ _ _).
  assert (mail_of c SendGrid to_email subject body_text cc_email
            (images_given images) mail) as Hmail by by apply api_mail_of.
  assert (mail_from mail = from_email) as Hfrom by done.
  assert (∀ ok, ∃ sent,
            (Some ok, log ++ [mkAttempt SendGrid mail ok])
            = (Some ok, log ++ sent)
            ∧ (sent = [] ∧ ok = false
               ∨ ∃ mail', sent = [mkAttempt SendGrid mail' ok]
                          ∧ mail_from mail' = from_email
                          ∧ mail_of c SendGrid to_email subject body_text
                              cc_email (images_given images) mail')
            ∧ (sent = [] ↔ true = false)) as Hone.
  { intros ok. exists [mkAttempt SendGrid mail ok].
    split; [done |]. split; [right; by exists mail | done]. }
  destruct (sendgrid_http c mail) as [| status_code json_object].
  - unfold hand_over. destruct (Hone false) as (sent & Heq & Hrest).
    exists false, sent. split; [| exact Hrest]. by rewrite <- Heq.
  - destruct (decide (status_code = 202)); unfold hand_over.
    + destruct (Hone true) as (sent & Heq & Hrest).
      exists true, sent. split; [| exact Hrest]. by rewrite <- Heq.
    + destruct (Hone false) as (sent & Heq & Hrest).
      exists false, sent. split; [| exact Hrest]. by rewrite <- Heq.
Qed.

Lemma images_given_argument (state : State) :
  images_given (images_argument state) = redacted_images state.
Proof. unfold images_argument. by destruct (redacted_images state). Qed.

(** What one call of [send_email] does, for every configuration and every
    behaviour of the transports. *)
Lemma send_email_run (c : Carriers) (state : State) (log : list Attempt) :
  ∃ sent,
    send_email c (state, log) = (Some (), (set_step "sent" state, log ++ sent))
    ∧ Forall (λ a,
        mail_from (attempt_mail a) = sender_address c (attempt_provider a)
        ∧ mail_of c (attempt_provider a) (to_email state) (subject state)
            (redacted_content state) (cc_email state) (redacted_images state)
            (attempt_mail a)) sent
    ∧ if use_production c
      then ∃ r s,
        sent = r ++ s
        ∧ (r = [] ∨ ∃ mail ok, r = [mkAttempt Resend mail ok])
        ∧ (r = [] ↔ key_set c "RESEND_API_KEY" = false)
        ∧ (s = [] ∨ ∃ mail ok, s = [mkAttempt SendGrid mail ok])
        ∧ (s = [] ↔ (∃ mail, r = [mkAttempt Resend mail true])
                    ∨ key_set c "SENDGRID_API_KEY" = false)
      else
        (sent = [] ∨ ∃ mail, sent = [mkAttempt Mailpit mail (smtp_send c mail)])
        ∧ (sent = [] ↔ ∃ img, img ∈ redacted_images state
                              ∧ b64decode c img = None).
Proof.
  unfold send_email. rewrite try_except_run, bind_run.
  unfold current_state at 1. cbn [fst snd].
  fold (use_production c). destruct (use_production c); cbn [negb].
  - destruct (send_email_resend_run c
                (getenv_default c "EMAIL_SENDER_RESEND" "")
                (to_email state) (subject state) (redacted_content state)
                (cc_email state) (images_argument state) log)
      as (rok & r & Hr & Hrshape & Hrkey).
    rewrite images_given_argument in Hrshape.
    rewrite bind_run. unfold with_log at 1. cbn [fst snd]. rewrite Hr.
    assert (Forall (λ a,
        mail_from (attempt_mail a) = sender_address c (attempt_provider a)
        ∧ mail_of c (attempt_provider a) (to_email state) (subject state)
            (redacted_content state) (cc_email state) (redacted_images state)
            (attempt_mail a)) r) as Hrmail.
    { destruct Hrshape as [[-> _] | (mail & -> & Hfrom & Hmail)];
        [constructor |].
      constructor; [| constructor]. by split. }
    assert (r = [] ∨ ∃ mail ok, r = [mkAttempt Resend mail ok]) as Hr1.
    { destruct Hrshape as [[-> _] | (mail & -> & _)]; [by left |].
      right. by exists mail, rok. }
    destruct rok.
    + exists r. split; [done |]. split; [exact Hrmail |].
      exists r, []. rewrite app_nil_r. split; [done |].
      split; [exact Hr1 |]. split; [exact Hrkey |]. split; [by left |].
      split; [| done]. intros _. left.
      destruct Hrshape as [[_ ?] | (mail & -> & _)]; [done |]. by exists mail.
    + destruct (send_email_sendgrid_run c
                  (getenv_default c "EMAIL_SENDER_SENDGRID" "")
                  (to_email state) (subject state) (redacted_content state)
                  (cc_email state) (images_argument state) (log ++ r))
        as (sok & s & Hs & Hsshape & Hskey).
      rewrite images_given_argument in Hsshape.
      rewrite bind_run. unfold with_log at 1. cbn [fst snd]. rewrite Hs.
      exists (r ++ s). rewrite (assoc_L (++)).
      split; [by destruct sok |].
      split.
      { apply Forall_app. split; [exact Hrmail |].
        destruct Hsshape as [[-> _] | (mail & -> & Hfrom & Hmail)];
          [constructor |].
        constructor; [| constructor]. by split. }
      exists r, s. split; [done |]. split; [exact Hr1 |].
      split; [exact Hrkey |]. split.
      { destruct Hsshape as [[-> _] | (mail & -> & _)]; [by left |].
        right. by exists mail, sok. }
      rewrite Hskey. split; [by right |].
      intros [(mail & ->) | ?]; [| done].
      destruct Hrshape as [[? _] | (mail' & ? & _)]; done.
  - destruct (send_email_via_mailpit_run c
                (getenv_default c "EMAIL_SENDER_MAILPIT" "")
                (to_email state) (subject state) (redacted_content state)
                (cc_email state) (images_argument state) log)
      as (ok & sent & Hrun & Hshape & Hnone).
    rewrite images_given_argument in Hshape, Hnone.
    rewrite bind_run. unfold with_log at 1. cbn [fst snd]. rewrite Hrun.
    exists sent. split; [by destruct ok |]. split.
    { destruct Hshape as [[-> _] | (mail & -> & _ & Hfrom & Hmail)];
        [constructor |].
      constructor; [| constructor]. by split. }
    split; [| exact Hnone].
    destruct Hshape as [[-> _] | (mail & -> & -> & _)]; [by left |].
    right. by exists mail.
Qed.

(** X14. [send_email] never raises and always leaves the draft at step
    [sent]: whatever the configuration and whatever the transports answer,
    also when no message was accepted or none was handed over at all. The
    rest of the state is as it was, and the attempts made are added after
    those already logged. *)
Theorem send_email_always_sent (c : Carriers) (state : State)
    (log : list Attempt) :
  ∃ sent,
    send_email c (state, log) = (Some (), (set_step "sent" state, log ++ sent)).
Proof.
  destruct (send_email_run c state log) as (sent & Hrun & _).
  by exists sent.
Qed.

(** X15. Every message that [send_email] hands to a transport is built
    from the redacted draft: it goes to [to_email] with [subject], its text
    is [redacted_content] (never [content]), its sender is the address
    configured for the provider, its cc is the cc of the draft unless that
    is empty or repeats the recipient, and its attachments are the
    redacted images in order, named [image_1.png], [image_2.png], ... *)
Theorem send_email_sends_redacted_draft (c : Carriers) (state : State)
    (log : list Attempt) :
  ∃ sent,
    (send_email c (state, log)).2.2 = log ++ sent
    ∧ ∀ a, a ∈ sent →
        mail_from (attempt_mail a) = sender_address c (attempt_provider a)
        ∧ mail_of c (attempt_provider a) (to_email state) (subject state)
            (redacted_content state) (cc_email state) (redacted_images state)
            (attempt_mail a).
Proof.
  destruct (send_email_run c state log) as (sent & Hrun & Hmail & _).
  exists sent. rewrite Hrun. split; [done |].
  by apply Forall_forall.
Qed.


Lemma routing_production (c : Carriers) (r s : list Attempt)
    (rk sk : bool) :
  (r = [] ∨ ∃ mail ok, r = [mkAttempt Resend mail ok]) →
  (r = [] ↔ rk = false) →
  (s = [] ∨ ∃ mail ok, s = [mkAttempt SendGrid mail ok]) →
  (s = [] ↔ (∃ mail, r = [mkAttempt Resend mail true]) ∨ sk = false) →
  sublist (attempt_provider <$> r ++ s) [Resend; SendGrid]
  ∧ (∀ before a after,
       r ++ s = before ++ a :: after → attempt_accepted a = true → after = [])
  ∧ (Mailpit ∉ attempt_provider <$> r ++ s)
  ∧ (Resend ∈ attempt_provider <$> r ++ s ↔ rk = true)
  ∧ (SendGrid ∈ attempt_provider <$> r ++ s ↔
       sk = true
       ∧ ∀ a, a ∈ r ++ s → attempt_provider a = Resend →
              attempt_accepted a = false).
Proof.
  intros Hr Hrkey Hs Hskey.
  destruct Hr as [-> | (rmail & rok & ->)],
           Hs as [-> | (smail & sok & ->)];
    cbn [app fmap list_fmap attempt_provider].
  - (* nothing handed over *)
    split; [repeat constructor |].
    split; [intros before a after Heq; by destruct before |].
    split; [intros Hin; by apply elem_of_nil in Hin |].
    split.
    { rewrite elem_of_nil. split; [done |]. intros ->.
      by destruct Hrkey as [Hk _]; specialize (Hk eq_refl). }
    rewrite elem_of_nil. split; [done |]. intros [-> _].
    destruct Hskey as [Hk _]. destruct (Hk eq_refl) as [[? ?] | ?]; done.
  - (* SendGrid only *)
    split; [repeat constructor |].
    split.
    { intros before a after Heq _.
      destruct before as [| b0 before]; [by simplify_eq/= |].
      by destruct before. }
    split; [rewrite elem_of_cons, elem_of_nil; by intros [? | ?] |].
    split.
    { rewrite elem_of_cons, elem_of_nil. split; [by intros [? | ?] |].
      intros ->. by destruct Hrkey as [Hk _]; specialize (Hk eq_refl). }
    rewrite elem_of_cons, elem_of_nil. split; [| by left].
    intros _. split.
    + destruct sk; [done |]. destruct Hskey as [_ Hk].
      by specialize (Hk (or_intror eq_refl)).
    + intros a Ha. apply elem_of_cons in Ha as [-> | Ha]; [done |].
      by apply elem_of_nil in Ha.
  - (* Resend only *)
    split; [repeat constructor |].
    split.
    { intros before a after Heq _.
      destruct before as [| b0 before]; [by simplify_eq/= |].
      by destruct before. }
    split; [rewrite elem_of_cons, elem_of_nil; by intros [? | ?] |].
    split.
    { rewrite elem_of_cons, elem_of_nil. split; [| by left].
      intros _. destruct rk; [done |]. by destruct Hrkey as [_ Hk];
        specialize (Hk eq_refl). }
    rewrite elem_of_cons, elem_of_nil. split; [by intros [? | ?] |].
    intros [-> Hall].
    destruct Hskey as [Hk _]. destruct (Hk eq_refl) as [[mail Heq] | ?];
      [| done].
    injection Heq as <- ->.
    specialize (Hall (mkAttempt Resend rmail true)).
    rewrite elem_of_cons in Hall. by specialize (Hall (or_introl eq_refl) eq_refl).
  - (* Resend, then SendGrid *)
    assert (rok = false) as ->.
    { destruct rok; [| done]. destruct Hskey as [_ Hk].
      by specialize (Hk (or_introl (ex_intro _ rmail eq_refl))). }
    split; [repeat constructor |].
    split.
    { intros before a after Heq Hacc.
      destruct before as [| b0 before]; [by simplify_eq/= |].
      destruct before as [| b1 before]; [by simplify_eq/= |].
      by destruct before. }
    split; [rewrite !elem_of_cons, elem_of_nil; by intros [? | [? | ?]] |].
    split.
    { rewrite !elem_of_cons, elem_of_nil. split; [| by left].
      intros _. destruct rk; [done |]. by destruct Hrkey as [_ Hk];
        specialize (Hk eq_refl). }
    rewrite !elem_of_cons, elem_of_nil. split; [| by right; left].
    intros _. split.
    + destruct sk; [done |]. destruct Hskey as [_ Hk].
      by specialize (Hk (or_intror eq_refl)).
    + intros a Ha. rewrite !elem_of_cons, elem_of_nil in Ha.
      destruct Ha as [-> | [-> | []]]; done.
Qed.

Lemma routing_development (c : Carriers) (images : list string)
    (sent : list Attempt) :
  (sent = [] ∨ ∃ mail, sent = [mkAttempt Mailpit mail (smtp_send c mail)]) →
  (sent = [] ↔ ∃ img, img ∈ images ∧ b64decode c img = None) →
  sublist (attempt_provider <$> sent) [Mailpit]
  ∧ (∀ before a after,
       sent = before ++ a :: after → attempt_accepted a = true → after = [])
  ∧ (Mailpit ∈ attempt_provider <$> sent ↔
       ∀ img, img ∈ images → b64decode c img ≠ None)
  ∧ (Resend ∉ attempt_provider <$> sent)
  ∧ (SendGrid ∉ attempt_provider <$> sent).
Proof.
  intros Hsent Hnone.
  destruct Hsent as [-> | (mail & ->)];
    cbn [app fmap list_fmap attempt_provider].
  - split; [repeat constructor |].
    split; [intros before a after Heq; by destruct before |].
    split.
    { rewrite elem_of_nil. split; [done |]. intros Hall.
      destruct Hnone as [Hk _].
      destruct (Hk eq_refl) as (img & Hin & Himg). by apply (Hall img). }
    split; intros Hin; by apply elem_of_nil in Hin.
  - split; [repeat constructor |].
    split.
    { intros before a after Heq _.
      destruct before as [| b0 before]; [by simplify_eq/= |].
      by destruct before. }
    split.
    { rewrite elem_of_cons. split; [| by left].
      intros _ img Hin Himg. destruct Hnone as [_ Hk].
      by specialize (Hk (ex_intro _ img (conj Hin Himg))). }
    split; rewrite elem_of_cons, elem_of_nil; by intros [? | ?].
Qed.

(** X16. Which transports [send_email] tries. In development only
    Mailpit, once, and not at all when an image is not valid base64. In
    production Resend first, when its key is set, and SendGrid after it,
    when its key is set and Resend did not accept the message. No
    transport is tried after one has accepted. *)
Theorem send_email_routing (c : Carriers) (state : State)
    (log : list Attempt) :
  ∃ sent,
    (send_email c (state, log)).2.2 = log ++ sent
    ∧ sublist (attempt_provider <$> sent)
        (if use_production c then [Resend; SendGrid] else [Mailpit])
    ∧ (∀ before a after,
         sent = before ++ a :: after → attempt_accepted a = true → after = [])
    ∧ (Mailpit ∈ attempt_provider <$> sent ↔
         use_production c = false
         ∧ ∀ img, img ∈ redacted_images state → b64decode c img ≠ None)
    ∧ (Resend ∈ attempt_provider <$> sent ↔
         use_production c = true ∧ key_set c "RESEND_API_KEY" = true)
    ∧ (SendGrid ∈ attempt_provider <$> sent ↔
         use_production c = true ∧ key_set c "SENDGRID_API_KEY" = true
         ∧ ∀ a, a ∈ sent → attempt_provider a = Resend →
                attempt_accepted a = false).
Proof.
  destruct (send_email_run c state log) as (sent & Hrun & _ & Hshape).
  exists sent. rewrite Hrun. split; [done |].
  destruct (use_production c).
  - destruct Hshape as (r & s & -> & Hr & Hrkey & Hs & Hskey).
    destruct (routing_production c r s _ _ Hr Hrkey Hs Hskey)
      as (Hsub & Hlast & Hmailpit & Hresend & Hsendgrid).
    split; [exact Hsub |]. split; [exact Hlast |].
    split; [split; [done | by intros [? _]] |].
    split.
    + rewrite Hresend. split; [done | by intros [_ ?]].
    + rewrite Hsendgrid. split; [done | by intros [_ ?]].
  - destruct Hshape as [Hsent Hnone].
    destruct (routing_development c _ sent Hsent Hnone)
      as (Hsub & Hlast & Hmailpit & Hresend & Hsendgrid).
    split; [exact Hsub |]. split; [exact Hlast |].
    split; [rewrite Hmailpit; split; [done | by intros [_ ?]] |].
    split; (split; [done | by intros [? _]]).
Qed.

(** ** Going back to the draft *)

(** X17. Back from the preview: after [redact_text] has run on a draft
    with a recipient and a content, [handle_back] returns to the step
    [compose] with the recipient, cc, subject, content and uploaded images
    that the draft had, whatever the services answered, and keeps the
    redacted content and images that [redact_text] stored. *)
Theorem handle_back_restores_draft (remote : Remote) (pil : Pillow)
    (state : State) (env : Env) :
  py_truthy (to_email state) = true →
  py_truthy (content state) = true →
  ∃ state' env',
    redact_text remote pil (state, env) = (Some (), (state', env'))
    ∧ step state' = "preview"
    ∧ step (handle_back state') = "compose"
    ∧ to_email (handle_back state') = to_email state
    ∧ cc_email (handle_back state') = cc_email state
    ∧ subject (handle_back state') = subject state
    ∧ content (handle_back state') = content state
    ∧ uploaded_images (handle_back state') = uploaded_images state
    ∧ redacted_content (handle_back state') = redacted_content state'
    ∧ redacted_images (handle_back state') = redacted_images state'
    ∧ category_flags (handle_back state') = category_flags state
    ∧ category_placeholders (handle_back state') = category_placeholders state.
Proof.
  intros Hto Hcontent.
  destruct (redact_text_run remote pil state env Hto Hcontent)
    as (text_out & imgs_out & env' & sent & Hrun & _).
  eexists _, env'. split; [exact Hrun |].
  split; [reflexivity |].
  repeat (split; [lazy; reflexivity |]). lazy; reflexivity.
Qed.

(** The draft with an upload, sent through the sample services and back. *)
Lemma handle_back_restores_draft_witness :
  py_truthy (to_email Draft.with_upload) = true
  ∧ py_truthy (content Draft.with_upload) = true
  ∧ ∃ state' env',
      redact_text Sample.remote Sample.pil
        (Draft.with_upload, Sample.empty_env) = (Some (), (state', env'))
      ∧ step state' = "preview"
      ∧ content (handle_back state') = "Hi Bob"
      ∧ uploaded_images (handle_back state') = ["Jwwwhh"].
Proof.
  split; [reflexivity |]. split; [reflexivity |].
  destruct (handle_back_restores_draft Sample.remote Sample.pil
              Draft.with_upload Sample.empty_env)
    as (state' & env' & Hrun & Hstep & _ & _ & _ & _ & Hcontent & Himgs & _);
    [reflexivity | reflexivity |].
  exists state', env'.
  split; [exact Hrun |]. split; [exact Hstep |].
  split; [exact Hcontent | exact Himgs].
Defined.

(** ** Instances *)

(** One word that the sample classifier calls a name. *)
Lemma find_sensitive_boxes_follows_map_witness :
  [mkTextBox "Alice" 0 0 50 10 None None] ≠ []
  ∧ enabled_types (Some initial_state) ≠ []
  ∧ ¬ report_raises [mkTextBox "Alice" 0 0 50 10 None None] [(0, "name")]
  ∧ ∃ sensitive_boxes env',
      find_sensitive_boxes Sample.remote
        [mkTextBox "Alice" 0 0 50 10 None None] (Some initial_state)
        Sample.empty_env = (Some sensitive_boxes, env')
      ∧ ∃ o, o ∈ sensitive_boxes
             ∧ rect_contains o (mkTextBox "Alice" 0 0 50 10 None None)
             ∧ box_redaction_type o = Some "name".
Proof.
  assert (¬ report_raises [mkTextBox "Alice" 0 0 50 10 None None]
            [(0, "name")]) as Hreads.
  { unfold report_raises. cbn [take length].
    intros [Hlow | Hnone]%Exists_cons; [simpl in Hlow; lia |].
    by apply Exists_nil in Hnone. }
  split; [discriminate |]. split; [discriminate |]. split; [exact Hreads |].
  destruct (find_sensitive_boxes_follows_map Sample.remote
              [mkTextBox "Alice" 0 0 50 10 None None] (Some initial_state)
              Sample.empty_env [(0, "name")])
    as (sensitive_boxes & env' & Hrun & _ & Hflagged);
    [discriminate | discriminate | reflexivity |].
  exists sensitive_boxes, env'. split; [exact Hrun |].
  destruct (Hflagged Hreads) as [Hcover _].
  apply (Hcover 0%nat (mkTextBox "Alice" 0 0 50 10 None None) "name");
    reflexivity.
Defined.

(** The pipeline called without a state. *)
Lemma redact_image_from_base64_fails_open_witness :
  (extract_text_with_boxes Sample.remote "Jwwwhh" None Sample.empty_env).1
  = Some [mkTextBox "Alice" 0 0 50 10 None None]
  ∧ enabled_types None = []
  ∧ (redact_image_from_base64 Sample.remote Sample.pil "Jwwwhh" None
       Sample.empty_env).1 = Some "Jwwwhh".
Proof.
  split; [reflexivity |]. split; [reflexivity |].
  apply (redact_image_from_base64_fails_open Sample.remote Sample.pil
           "Jwwwhh" None Sample.empty_env
           [mkTextBox "Alice" 0 0 50 10 None None]);
    [reflexivity |].
  right. left. reflexivity.
Defined.

(** One box on a blank 3×2 image, labels off. *)
Lemma draw_redaction_boxes_blackens_witness :
  images (mkEnv {[ 0%nat := Sample.blank "PNG" 3 2 ]} []) !! 0%nat
  = Some (Sample.blank "PNG" 3 2)
  ∧ Forall box_in_range [mkTextBox "Alice" 0 0 0 0 (Some "name") None]
  ∧ ∃ img_copy env' out,
      draw_redaction_boxes Sample.pil 0
        [mkTextBox "Alice" 0 0 0 0 (Some "name") None] false None
        (mkEnv {[ 0%nat := Sample.blank "PNG" 3 2 ]} [])
      = (Some img_copy, env')
      ∧ images env' !! img_copy = Some out
      ∧ same_shape (im_rows (Sample.blank "PNG" 3 2)) (im_rows out).
Proof.
  assert (Forall box_in_range [mkTextBox "Alice" 0 0 0 0 (Some "name") None])
    as Hrange.
  { constructor; [| constructor]. unfold box_in_range. simpl. lia. }
  split; [reflexivity |]. split; [exact Hrange |].
  destruct (draw_redaction_boxes_blackens Sample.pil 0
              [mkTextBox "Alice" 0 0 0 0 (Some "name") None] false None
              (mkEnv {[ 0%nat := Sample.blank "PNG" 3 2 ]} [])
              (Sample.blank "PNG" 3 2))
    as (img_copy & env' & out & Hrun & Hout & Hshape & _);
    [reflexivity | exact Hrange | by left |].
  exists img_copy, env', out.
  split; [exact Hrun |]. split; [exact Hout | exact Hshape].
Defined.

(** The sample rewriting service answers with a text of its own. *)
Lemma redact_text_fails_open_witness :
  py_truthy (to_email Draft.with_upload) = true
  ∧ py_truthy (content Draft.with_upload) = true
  ∧ ∃ state' env',
      redact_text Sample.remote Sample.pil
        (Draft.with_upload, Sample.empty_env) = (Some (), (state', env'))
      ∧ redacted_content state' = "Here is the email: Hi Bob".
Proof.
  split; [reflexivity |]. split; [reflexivity |].
  destruct (redact_text_fails_open Sample.remote Sample.pil
              Draft.with_upload Sample.empty_env)
    as (state' & env' & Hrun & Htext & _); [reflexivity | reflexivity |].
  exists state', env'. split; [exact Hrun | exact Htext].
Defined.

(** One upload, one redacted image. *)
Lemma redact_text_redacts_each_image_witness :
  py_truthy (to_email Draft.with_upload) = true
  ∧ py_truthy (content Draft.with_upload) = true
  ∧ ¬ rewrite_raises
        (groq_rewrite Sample.remote
           (redaction_instructions Draft.with_upload)
           (content Draft.with_upload))
  ∧ ∃ state' env',
      redact_text Sample.remote Sample.pil
        (Draft.with_upload, Sample.empty_env) = (Some (), (state', env'))
      ∧ length (redacted_images state') = 1%nat.
Proof.
  assert (¬ rewrite_raises
              (groq_rewrite Sample.remote
                 (redaction_instructions Draft.with_upload)
                 (content Draft.with_upload))) as Hreads
    by (by intros [_ ?]).
  split; [reflexivity |]. split; [reflexivity |]. split; [exact Hreads |].
  destruct (redact_text_redacts_each_image Sample.remote Sample.pil
              Draft.with_upload Sample.empty_env)
    as (state' & env' & Hrun & _ & Himgs);
    [reflexivity | reflexivity | exact Hreads |].
  exists state', env'. split; [exact Hrun |].
  apply Himgs. discriminate.
Defined.

(** ** Addresses *)

Lemma append_cons (c : ascii) (a b : string) :
  String c a +:+ b = String c (a +:+ b).
Proof. reflexivity. Qed.

Lemma split_first_spec (c : ascii) (s a b : string) :
  split_first c s = Some (a, b) → s = a +:+ String c b.
Proof.
  revert a. induction s as [|d r IH]; intros a; [done |].
  cbn [split_first]. destruct (Ascii.eqb_spec d c) as [-> | Hne].
  - by intros [= <- <-].
  - destruct (split_first c r) as [[a' b'] |]; [| done].
    intros [= <- <-]. by rewrite append_cons, (IH a').
Qed.

Lemma split_first_found (p : ascii → bool) (c : ascii) (a b : string) :
  all_chars p a = true → p c = false →
  split_first c (a +:+ String c b) = Some (a, b).
Proof.
  intros Ha Hc. induction a as [|d a IH].
  - change (split_first c (String c b) = Some (EmptyString, b)).
    cbn [split_first]. by rewrite Ascii.eqb_refl.
  - cbn [all_chars] in Ha. apply andb_true_iff in Ha as [Hd Ha].
    rewrite append_cons. cbn [split_first].
    destruct (Ascii.eqb_spec d c) as [-> | Hne]; [congruence |].
    by rewrite (IH Ha).
Qed.

Lemma split_last_spec (c : ascii) (s a b : string) :
  split_last c s = Some (a, b) → s = a +:+ String c b.
Proof.
  revert a. induction s as [|d r IH]; intros a; [done |].
  cbn [split_last]. destruct (split_last c r) as [[a' b'] |].
  - intros [= <- <-]. by rewrite append_cons, (IH a').
  - destruct (Ascii.eqb_spec d c) as [-> | Hne]; [| done].
    by intros [= <- <-].
Qed.

Lemma split_last_absent (p : ascii → bool) (c : ascii) (b : string) :
  all_chars p b = true → p c = false → split_last c b = None.
Proof.
  intros Hb Hc. induction b as [|d b IH]; [done |].
  cbn [all_chars] in Hb. apply andb_true_iff in Hb as [Hd Hb].
  cbn [split_last]. rewrite (IH Hb).
  destruct (Ascii.eqb_spec d c) as [-> | Hne]; [congruence | done].
Qed.

Lemma split_last_found (p : ascii → bool) (c : ascii) (a b : string) :
  all_chars p b = true → p c = false →
  split_last c (a +:+ String c b) = Some (a, b).
Proof.
  intros Hb Hc. induction a as [|d a IH].
  - change (split_last c (String c b) = Some (EmptyString, b)).
    cbn [split_last]. rewrite (split_last_absent p c b Hb Hc).
    by rewrite Ascii.eqb_refl.
  - rewrite append_cons. cbn [split_last]. by rewrite IH.
Qed.

(** The matcher accepts the strings of the shape [local@domain.tld], for
    strings that do not end with a newline (as no stripped string does). *)
Lemma matches_email_pattern_spec (email : string) :
  before_final_newline email = email →
  matches_email_pattern email = true ↔ well_formed_address email.
Proof.
  intros Hnl. unfold matches_email_pattern, well_formed_address.
  rewrite Hnl. split.
  - destruct (split_first "@" email) as [[local rest] |] eqn:Hfirst; [| done].
    destruct (split_last "." rest) as [[domain tld] |] eqn:Hlast; [| done].
    rewrite !andb_true_iff. intros [[[[[Hl Hlc] Hd] Hdc] Hlen] Htld].
    exists local, domain, tld.
    apply split_first_spec in Hfirst. apply split_last_spec in Hlast.
    split; [by rewrite Hfirst, Hlast |].
    split; [by destruct local |]. split; [done |].
    split; [by destruct domain |]. split; [done |].
    split; [by apply Nat.leb_le |]. done.
  - intros (local & domain & tld & Heq & Hl & Hlc & Hd & Hdc & Hlen & Htld).
    assert (email = local +:+ String "@" (domain +:+ String "." tld)) as ->
      by exact Heq.
    rewrite (split_first_found local_char "@" local _ Hlc eq_refl).
    rewrite (split_last_found is_letter "." domain tld Htld eq_refl).
    rewrite Hlc, Hdc, Htld. apply Nat.leb_le in Hlen. rewrite Hlen.
    by destruct local, domain.
Qed.

Lemma py_rstrip_no_final_newline (s : string) :
  before_final_newline (py_rstrip s) = py_rstrip s.
Proof.
  induction s as [|c r IH]; [done |].
  cbn [py_rstrip]. destruct (py_rstrip r) as [|d t] eqn:Ht.
  - destruct (py_isspace c) eqn:Hc; [done |].
    cbn [before_final_newline].
    destruct (Ascii.eqb_spec c "010") as [-> | Hne]; [done | done].
  - change (String c (before_final_newline (String d t))
            = String c (String d t)).
    by rewrite IH.
Qed.

Lemma py_strip_no_final_newline (s : string) :
  before_final_newline (py_strip s) = py_strip s.
Proof. apply py_rstrip_no_final_newline. Qed.

Lemma filter_empty_iff {A} (P : A → Prop) `{∀ x, Decision (P x)}
    (l : list A) :
  filter P l = [] ↔ ∀ x, x ∈ l → ¬ P x.
Proof.
  split.
  - intros Hnil x Hin HP. by apply (filter_nil_not_elem_of P l x).
  - intros Hall. apply elem_of_nil_inv. intros x Hx.
    apply list_elem_of_filter in Hx as [HP Hin]. by apply (Hall x).
Qed.

(** X18. [validate_emails] accepts a blank string. A string that is not
    blank it accepts exactly when every piece between commas and
    semicolons is, once stripped, empty or of the shape
    [local@domain.tld]: a non-empty local part of letters, digits and
    [._%+-], one [@], a non-empty domain of letters, digits, dots and
    hyphens, and after the last dot at least two letters. It answers
    either [True] with no message or [False] with a message that lists the
    rejected pieces. *)
Theorem validate_emails_spec (email_string : string) :
  (py_strip email_string = "" → validate_emails email_string = (true, ""))
  ∧ (py_strip email_string ≠ "" →
     ((validate_emails email_string).1 = true ↔
      ∀ piece, piece ∈ split_addresses email_string →
        py_strip piece = "" ∨ well_formed_address (py_strip piece)))
  ∧ (validate_emails email_string = (true, "")
     ∨ ∃ rejected,
         rejected ≠ []
         ∧ Forall (λ piece, piece ≠ "" ∧ ¬ well_formed_address piece
                            ∧ ∃ typed, typed ∈ split_addresses email_string
                                       ∧ piece = py_strip typed) rejected
         ∧ validate_emails email_string
           = (false,
              "Invalid email address(es): " +:+ py_join ", " rejected)).
Proof.
  assert (∀ piece : string,
            py_truthy (py_strip piece) = true
            ∧ matches_email_pattern (py_strip piece) = false
            ↔ py_strip piece ≠ "" ∧ ¬ well_formed_address (py_strip piece))
    as Hbad.
  { intros piece.
    rewrite <- (matches_email_pattern_spec _
                  (py_strip_no_final_newline piece)).
    destruct (py_strip piece) as [|c r]; [by split; intros [? ?] |].
    destruct (matches_email_pattern (String c r)).
    - split; [by intros [_ ?] |]. intros [_ Hn]. by destruct Hn.
    - split; [| done]. intros _. split; [done |]. by intros ?. }
  unfold validate_emails. split; [| split].
  - intros Hblank. rewrite Hblank. cbn [py_truthy negb].
    by rewrite orb_true_r.
  - intros Hblank.
    assert (negb (py_truthy email_string)
            || negb (py_truthy (py_strip email_string)) = false) as ->.
    { destruct email_string; [done |]. by destruct (py_strip _). }
    set (invalid := filter _ _).
    assert (invalid = [] ↔
            ∀ piece, piece ∈ split_addresses email_string →
              py_strip piece = "" ∨ well_formed_address (py_strip piece))
      as Hiff.
    { subst invalid. rewrite filter_empty_iff.
      split.
      - intros Hall piece Hin.
        specialize (Hall (py_strip piece)
                      (list_elem_of_fmap_2 py_strip _ _ Hin)).
        rewrite Hbad in Hall.
        destruct (decide (py_strip piece = "")) as [? | Hne]; [by left |].
        right.
        rewrite <- (matches_email_pattern_spec _
                      (py_strip_no_final_newline piece)).
        rewrite <- (matches_email_pattern_spec _
                      (py_strip_no_final_newline piece)) in Hall.
        destruct (matches_email_pattern (py_strip piece)); [done |].
        exfalso. apply Hall. split; [done |]. by intros ?.
      - intros Hall stripped Hin.
        apply list_elem_of_fmap in Hin as (piece & -> & Hin).
        rewrite Hbad. intros [Hne Hnw].
        destruct (Hall piece Hin); done. }
    rewrite <- Hiff. by destruct (decide (invalid = [])).
  - destruct (negb (py_truthy email_string)
              || negb (py_truthy (py_strip email_string))); [by left |].
    set (invalid := filter _ _).
    destruct (decide (invalid = [])) as [? | Hne]; [by left |].
    right. exists invalid. split; [done |]. split; [| done].
    apply Forall_forall. intros piece Hin. subst invalid.
    apply list_elem_of_filter in Hin as [Hpiece Hin].
    apply list_elem_of_fmap in Hin as (typed & -> & Htyped).
    apply Hbad in Hpiece as [? ?].
    split; [done |]. split; [done |]. by exists typed.
Qed.

Lemma validate_emails_blank (email_string : string) :
  py_strip email_string = "" → validate_emails email_string = (true, "").
Proof.
  intros Hblank. unfold validate_emails. rewrite Hblank.
  cbn [py_truthy negb]. by rewrite orb_true_r.
Qed.

(** [redact_text] never raises. *)
Lemma redact_text_total (remote : Remote) (pil : Pillow)
    (state : State) (env : Env) :
  ∃ state' env',
    redact_text remote pil (state, env) = (Some (), (state', env')).
Proof.
  destruct (py_truthy (to_email state)) eqn:Hto;
    [destruct (py_truthy (content state)) eqn:Hcontent |].
  - destruct (redact_text_run remote pil state env Hto Hcontent)
      as (text_out & imgs_out & env' & sent & Hrun & _).
    by eexists _, env'.
  - exists state, env. unfold redact_text. rewrite get_bind. cbn [fst snd].
    by rewrite Hcontent, orb_true_r.
  - exists state, env. unfold redact_text. rewrite get_bind. cbn [fst snd].
    by rewrite Hto.
Qed.

(** X19. The [redact_text] handler of the state class validates before
    it redacts. With a blank recipient it reports that the recipient is
    required; with a recipient that [validate_emails] rejects it reports
    the rejected addresses; with a valid recipient and a cc that
    [validate_emails] rejects it reports those of the cc. In these three
    cases the state is left as it was and nothing is sent to any service.
    Only with a recipient that is not blank and two fields that
    [validate_emails] accepts does it run [redact_text], and it reports no
    error. *)
Theorem redact_text_handler_validates (remote : Remote) (pil : Pillow)
    (state : State) (env : Env) :
  ∃ errors state' env',
    EmailPrivacyRedactorAI_redact_text remote pil (state, env)
    = (Some errors, (state', env'))
    ∧ (py_strip (to_email state) = "" →
       errors = ("To email is required", "") ∧ state' = state ∧ env' = env)
    ∧ (py_strip (to_email state) ≠ "" →
       (validate_emails (to_email state)).1 = false →
       errors = ((validate_emails (to_email state)).2, "")
       ∧ state' = state ∧ env' = env)
    ∧ (py_strip (to_email state) ≠ "" →
       (validate_emails (to_email state)).1 = true →
       (validate_emails (cc_email state)).1 = false →
       errors = ("", (validate_emails (cc_email state)).2)
       ∧ state' = state ∧ env' = env)
    ∧ (py_strip (to_email state) ≠ "" →
       (validate_emails (to_email state)).1 = true →
       (validate_emails (cc_email state)).1 = true →
       errors = ("", "")
       ∧ redact_text remote pil (state, env) = (Some (), (state', env'))).
Proof.
  unfold EmailPrivacyRedactorAI_redact_text. rewrite get_bind. cbn [fst snd].
  destruct (decide (py_strip (to_email state) = "")) as [Hblank | Hto].
  { assert (negb (py_truthy (to_email state))
            || negb (py_truthy (py_strip (to_email state))) = true) as ->.
    { rewrite Hblank. cbn [py_truthy negb]. by rewrite orb_true_r. }
    exists ("To email is required", ""), state, env.
    split; [done |]. split; [done |]. by repeat split. }
  assert (negb (py_truthy (to_email state))
          || negb (py_truthy (py_strip (to_email state))) = false) as ->.
  { destruct (to_email state); [done |]. by destruct (py_strip _). }
  destruct (validate_emails (to_email state)) as [[|] to_error] eqn:Hvalid;
    cbn [fst snd negb].
  2: { exists (to_error, ""), state, env.
       split; [done |]. split; [done |]. by repeat split. }
  assert ((if py_truthy (cc_email state)
              && py_truthy (py_strip (cc_email state))
           then validate_emails (cc_email state)
           else (true, "")) = validate_emails (cc_email state)) as ->.
  { destruct (py_truthy (cc_email state)
              && py_truthy (py_strip (cc_email state))) eqn:Hcc; [done |].
    symmetry. apply validate_emails_blank.
    apply andb_false_iff in Hcc as [Hcc | Hcc].
    - by destruct (cc_email state).
    - by destruct (py_strip (cc_email state)). }
  destruct (validate_emails (cc_email state)) as [[|] cc_error] eqn:Hcc;
    cbn [fst snd negb].
  2: { exists ("", cc_error), state, env.
       split; [done |]. split; [done |]. by repeat split. }
  destruct (redact_text_total remote pil state env)
    as (state' & env' & Hrun).
  exists ("", ""), state', env'. rewrite bind_run, Hrun.
  split; [done |]. split; [done |]. by repeat split.
Qed.

Example validate_emails_accepts :
  validate_emails "bob@example.com; Eve.Adams+x@mail.example.org , "
  = (true, "").
Proof. by vm_compute. Qed.

Example validate_emails_rejects :
  validate_emails "bob@example.com, eve@localhost,a b@x.io"
  = (false, "Invalid email address(es): eve@localhost, a b@x.io").
Proof. by vm_compute. Qed.
